(** * OTP lifecycle, alert schedulers and expense numbering

    A shallow embedding of the request handlers of
    [backend/controllers/auth/mobileAuthController.js], of the alert
    schedulers ([checkAbandonedCarts], [checkWishlistPriceDrops],
    [checkWishlistBackInStock]) and of [generateExpenseNumber], followed by
    the properties the specification states about them.  The password
    reset by verified phone and the wishlist controller are embedded as
    well, and a last part states further properties of the handlers: what
    they leave alone, how they compose, and what repeated runs do.

    Conventions.
    - A JavaScript string is a [string]; its characters are 8-bit code units.
    - A [Date] is its [getTime()] value, a [Z] number of milliseconds.  The
      handlers store dates with [toISOString()] and read them back with
      [new Date(...)], which returns the same number of milliseconds.
    - A finite JavaScript number is a rational [Q]: every finite double is a
      rational and the comparisons of the two agree.  Where the code
      multiplies or adds two numbers and the result decides what it returns
      ([generateOTP]), the result is rounded to the nearest double.
    - A Prisma collection is the list of its records; [findUnique] and
      [findFirst] return the first record satisfying the filter.
    - What a handler reads from outside (clock, [Math.random], generated
      identifiers) is an explicit argument, and what it sends after the
      response ([setImmediate]) is returned as a list of deferred effects.
    - Collaborators return.  Where a handler writes a row before a step
      that may throw ([mobileLogin]), how that step ends is an explicit
      argument as well.
    - The counter of an expense number is a whole number, which is what the
      double of the code holds below 2^53. *)

From Stdlib Require Import ZArith QArith Qround Qabs Qpower String Ascii Bool.
From Stdlib Require Import DecimalString DecimalZ DecimalPos.
From stdpp Require Import base list strings numbers.

Open Scope string_scope.
Open Scope list_scope.

Set Warnings "-register-all".

(** ** JavaScript primitives used by the handlers *)

Module JS.

(** [!s] is true exactly for the empty string (and for a missing field,
    which the request records below represent by the empty string). *)
Definition truthy (s : string) : bool := negb (String.eqb s "").

(** [\s] restricted to 8-bit code units: TAB, LF, VT, FF, CR, space, NBSP. *)
Definition isWhitespace (c : ascii) : bool :=
  let n := nat_of_ascii c in
  ((9 <=? n)%nat && (n <=? 13)%nat) || (n =? 32)%nat || (n =? 160)%nat.

(** [\d] *)
Definition isDigit (c : ascii) : bool :=
  let n := nat_of_ascii c in (48 <=? n)%nat && (n <=? 57)%nat.

Definition lowerChar (c : ascii) : ascii :=
  let n := nat_of_ascii c in
  if ((65 <=? n)%nat && (n <=? 90)%nat)
     || ((192 <=? n)%nat && (n <=? 222)%nat && negb (n =? 215)%nat)
  then ascii_of_nat (n + 32) else c.

(** [String.prototype.toLowerCase] *)
Fixpoint toLowerCase (s : string) : string :=
  match s with
  | EmptyString => EmptyString
  | String c s' => String (lowerChar c) (toLowerCase s')
  end.

(** [Number.prototype.toString] on an integer *)
Definition toString (z : Z) : string := NilZero.string_of_int (Z.to_int z).

(** A number that may be [NaN]. *)
Definition number := option Z.

Definition numberToString (n : number) : string :=
  match n with Some z => toString z | None => "NaN" end.

Fixpoint skipWhitespace (s : string) : string :=
  match s with
  | String c s' => if isWhitespace c then skipWhitespace s' else s
  | EmptyString => EmptyString
  end.

Definition digitValue (c : ascii) : Z := (Z.of_nat (nat_of_ascii c) - 48)%Z.

(** The longest prefix of decimal digits, read left to right. *)
Fixpoint readDigits (acc : option Z) (s : string) : option Z :=
  match s with
  | String c s' =>
      if isDigit c
      then readDigits (Some (10 * default 0 acc + digitValue c)%Z) s'
      else acc
  | EmptyString => acc
  end.

(** [parseInt(s, 10)]: leading white space, an optional sign, then the
    longest run of digits; [NaN] when there is no digit. *)
Definition parseInt (s : string) : number :=
  match skipWhitespace s with
  | EmptyString => None
  | String c s' =>
      if Ascii.eqb c "-" then Z.opp <$> readDigits None s'
      else if Ascii.eqb c "+" then readDigits None s'
      else readDigits None (String c s')
  end.

Fixpoint repeatChar (n : nat) (c : ascii) : string :=
  match n with O => EmptyString | S n' => String c (repeatChar n' c) end.

(** [s.padStart(n, c)] for a one-character filler *)
Definition padStart (n : nat) (c : ascii) (s : string) : string :=
  repeatChar (n - String.length s) c +:+ s.

(** [s.split(c)] for a one-character separator: never empty. *)
Fixpoint split (sep : ascii) (s : string) : list string :=
  match s with
  | EmptyString => [EmptyString]
  | String c s' =>
      if Ascii.eqb c sep then EmptyString :: split sep s'
      else match split sep s' with
           | p :: ps => String c p :: ps
           | [] => [String c EmptyString]
           end
  end.

(** [s.startsWith(p)] *)
Definition startsWith (s p : string) : bool := String.prefix p s.

(** [a.slice(-n)]: the last [n] elements, all of them when there are fewer. *)
Definition sliceLast {A} (n : nat) (a : list A) : list A :=
  drop (length a - n) a.

(** [a.slice(0, n)] *)
Definition sliceFirst {A} (n : nat) (a : list A) : list A := take n a.

(** *** Doubles

    A finite double is the rational it holds.  The result of an
    arithmetic operation is the double nearest to the exact result, the one
    with the even significand when two are as near (IEEE 754 binary64,
    round to nearest, ties to even).  A double has 53 significant bits above
    [2^-1022] and is a multiple of [2^-1074] below.  The exponent is not
    bounded above here: a result of [2^1024] or more, an infinity in
    JavaScript, is out of reach of the numbers below. *)

(** [e] with [2^e <= |q| < 2^(e+1)], for [q] other than zero *)
Definition binade (q : Q) : Z :=
  let e := (Z.log2 (Z.abs (Qnum q)) - Z.log2 (Z.pos (Qden q)))%Z in
  if Qle_bool (2 ^ e) (Qabs q) then e else (e - 1)%Z.

(** The integer nearest to [x]; of two that are as near, the even one. *)
Definition roundHalfEven (x : Q) : Z :=
  let f := Qfloor x in
  match ((x - inject_Z f) ?= (1 # 2))%Q with
  | Lt => f
  | Gt => (f + 1)%Z
  | Eq => if Z.even f then f else (f + 1)%Z
  end.

(** The double nearest to [q] *)
Definition roundDouble (q : Q) : Q :=
  if Qeq_bool q 0 then 0
  else
    let p := (Z.max (binade q) (-1022) - 52)%Z in
    inject_Z (roundHalfEven (q / 2 ^ p)) * 2 ^ p.

(** [a * b] and [a + b] on doubles *)
Definition fmul (a b : Q) : Q := roundDouble (a * b).

Definition fadd (a b : Q) : Q := roundDouble (a + b).

(** [q] is the value of a double. *)
Definition isDouble (q : Q) : Prop := (roundDouble q == q)%Q.

(** *** JSON numbers that may be missing *)

Inductive value :=
| Undefined
| Null
| Number (q : Q).

Definition Qltb (a b : Q) : bool := negb (Qle_bool b a).

(** ToBoolean *)
Definition isTruthy (v : value) : bool :=
  match v with
  | Number q => negb (Qeq_bool q 0)
  | _ => false
  end.

(** [a || b] *)
Definition or (a b : value) : value := if isTruthy a then a else b.

(** [v || 0], which is always a number *)
Definition orZero (v : value) : Q :=
  match v with
  | Number q => if Qeq_bool q 0 then 0 else q
  | _ => 0
  end.

(** ToNumber, [None] for [NaN] *)
Definition toNumber (v : value) : option Q :=
  match v with
  | Undefined => None
  | Null => Some 0%Q
  | Number q => Some q
  end.

(** [a < b]: false as soon as one side is [NaN] *)
Definition lt (a b : value) : bool :=
  match toNumber a, toNumber b with
  | Some x, Some y => Qltb x y
  | _, _ => false
  end.

(** [a[i]] for a number [i]: [undefined] unless [i] is an index in range. *)
Definition index {A} (a : list A) (i : Q) : option A :=
  let k := Qfloor i in
  if Qeq_bool i (inject_Z k) && (0 <=? k)%Z then a !! Z.to_nat k else None.

(** [s1 || s2] on strings that may be missing *)
Definition orString (a : option string) (b : option string) : option string :=
  match a with
  | Some s => if truthy s then a else b
  | None => b
  end.

End JS.

(** ** Regular expressions

    The three patterns of the controller are kept as patterns and matched by
    derivatives. *)

Module Regex.

Inductive regex :=
| Never
| Eps
| Class (p : ascii -> bool)
| Cat (r1 r2 : regex)
| Alt (r1 r2 : regex)
| Star (r : regex).

Fixpoint nullable (r : regex) : bool :=
  match r with
  | Never => false
  | Eps => true
  | Class _ => false
  | Cat r1 r2 => nullable r1 && nullable r2
  | Alt r1 r2 => nullable r1 || nullable r2
  | Star _ => true
  end.

Fixpoint deriv (c : ascii) (r : regex) : regex :=
  match r with
  | Never => Never
  | Eps => Never
  | Class p => if p c then Eps else Never
  | Cat r1 r2 =>
      if nullable r1
      then Alt (Cat (deriv c r1) r2) (deriv c r2)
      else Cat (deriv c r1) r2
  | Alt r1 r2 => Alt (deriv c r1) (deriv c r2)
  | Star r1 => Cat (deriv c r1) (Star r1)
  end.

(** The whole string matches: [^r$]. *)
Fixpoint matches (r : regex) (s : string) : bool :=
  match s with
  | EmptyString => nullable r
  | String c s' => matches (deriv c r) s'
  end.

Definition Plus (r : regex) : regex := Cat r (Star r).
Definition Opt (r : regex) : regex := Alt Eps r.
Definition Char (c : ascii) : regex := Class (Ascii.eqb c).
Definition anyChar : regex := Class (fun _ => true).

Fixpoint Times (n : nat) (r : regex) : regex :=
  match n with O => Eps | S n' => Cat r (Times n' r) end.

Fixpoint UpTo (n : nat) (r : regex) : regex :=
  match n with O => Eps | S n' => Opt (Cat r (UpTo n' r)) end.

(** [r{lo,hi}] *)
Definition Range (lo hi : nat) (r : regex) : regex :=
  Cat (Times lo r) (UpTo (hi - lo) r).

(** [/r/.test(s)] without anchors: some substring matches. *)
Definition search (r : regex) (s : string) : bool :=
  matches (Cat (Star anyChar) (Cat r (Star anyChar))) s.

End Regex.

(** ** Prisma's [orderBy: { ...: 'desc' }] *)

Module Prisma.

Section OrderBy.
Context {A : Type} (key : A -> Z).

(** Insertion in front of the first row that is not later. *)
Fixpoint insertDesc (x : A) (rows : list A) : list A :=
  match rows with
  | [] => [x]
  | y :: rows' =>
      if (key y <=? key x)%Z then x :: y :: rows'
      else y :: insertDesc x rows'
  end.

(** Rows by decreasing [key]; rows with equal keys keep their order. *)
Definition orderByDesc (rows : list A) : list A := foldr insertDesc [] rows.
End OrderBy.

End Prisma.

(** ** JSON responses *)

Inductive json :=
| JNull
| JBool (b : bool)
| JNum (n : Z)
| JStr (s : string)
| JObj (fields : list (string * json)).

(** [res.status(code).json(body)]; [res.json(body)] answers 200. *)
Record response := { status : nat; body : json }.

(** [o.k] on a JSON object, [None] for [undefined] *)
Definition field (k : string) (j : json) : option json :=
  match j with
  | JObj fs => snd <$> List.find (fun kv => String.eqb (fst kv) k) fs
  | _ => None
  end.

(** ** The mobile authentication controller *)

Module MobileAuth.

(** *** Collaborators: bcrypt, jsonwebtoken *)

Class Collaborators := {
  (** [bcrypt.hash(password, saltRounds)], with the salt it draws *)
  bcrypt_hash : string -> nat -> string -> string;
  (** [bcrypt.compare(password, hash)] *)
  bcrypt_compare : string -> string -> bool;
  (** [jwt.sign({ userId }, JWT_SECRET, { expiresIn: "7d" })] at a time *)
  jwt_sign : string -> Z -> string
}.

(** *** Records *)

Record otpEntry := {
  otp : string;
  expiresAt : Z;
  createdAt : Z
}.

Record fcmEntry := {
  token : string;
  device : string;
  lastUsed : Z
}.

(** [userType]: the collection a row was found in *)
Inductive userType := User | Admin.

Definition roleName (t : userType) : string :=
  match t with User => "user" | Admin => "admin" end.

(** A row of [prisma.user] or [prisma.admin], with the columns that the
    handlers below read or write.  [password] is [None] for [null];
    [emailOTPs] and [fcmTokens] are [None] when the stored JSON is not an
    array; [resetToken] and [resetTokenExpiry] are [None] for [null]. *)
Record account := {
  id : string;
  email : string;
  password : option string;
  name : string;
  phoneNumber : string;
  isVerified : bool;
  isActive : bool;
  provider : string;
  emailOTPs : option (list otpEntry);
  fcmTokens : option (list fcmEntry);
  lastLogin : option Z;
  resetToken : option string;
  resetTokenExpiry : option Z
}.

Record customer := {
  customerId : string;
  userId : option string;
  customerEmail : string;
  customerName : string;
  customerPhone : string;
  customerIsVerified : bool;
  customerProvider : string
}.

Record database := {
  users : list account;
  admins : list account;
  customers : list customer
}.

(** What a handler sends after the response, or hands to a collaborator. *)
Inductive effect :=
| SendEmail (to subject code : string)
| NewUserRegistrationAlert (userName userEmail : string) (cust : option string)
| WelcomeNotification (userId userName : string)
| AddSession (userId tok : string).

Record outcome := {
  res : response;
  db : database;
  deferred : list effect
}.

(** *** Prisma queries *)

(** [findUnique({ where: { email } })] *)
Definition findUniqueByEmail (rows : list account) (e : string) : option account :=
  List.find (fun a => String.eqb (email a) e) rows.

(** [findFirst({ where: { phoneNumber } })] *)
Definition findFirstByPhone (rows : list account) (p : string) : option account :=
  List.find (fun a => String.eqb (phoneNumber a) p) rows.

(** [update({ where: { id }, data })]: [id] is the primary key, and the
    handlers only update a row they have just read. *)
Definition update (rows : list account) (i : string) (data : account -> account)
  : list account :=
  map (fun a => if String.eqb (id a) i then data a else a) rows.

Definition setUsers (d : database) (rows : list account) : database :=
  {| users := rows; admins := admins d; customers := customers d |}.

Definition setAdmins (d : database) (rows : list account) : database :=
  {| users := users d; admins := rows; customers := customers d |}.

Definition setCustomers (d : database) (rows : list customer) : database :=
  {| users := users d; admins := admins d; customers := rows |}.

(** The update of the collection the account was found in. *)
Definition updateAccount (d : database) (t : userType) (i : string)
    (data : account -> account) : database :=
  match t with
  | Admin => setAdmins d (update (admins d) i data)
  | User => setUsers d (update (users d) i data)
  end.

(** "Find user in both collections": [prisma.user] first, then
    [prisma.admin], with the collection the row came from. *)
Definition findInBothByEmail (d : database) (e : string)
  : option (account * userType) :=
  match findUniqueByEmail (users d) e with
  | Some u => Some (u, User)
  | None =>
      match findUniqueByEmail (admins d) e with
      | Some u => Some (u, Admin)
      | None => None
      end
  end.

(** *** Responses *)

Definition failure (code : nat) (msg : string) : response :=
  {| status := code;
     body := JObj [("success", JBool false); ("error", JStr msg)] |}.

Definition failureWith (code : nat) (msg flag : string) : response :=
  {| status := code;
     body := JObj [("success", JBool false); ("error", JStr msg);
                   (flag, JBool true)] |}.

Definition alreadyVerifiedResponse : response :=
  {| status := 200;
     body := JObj [("success", JBool true);
                   ("message", JStr "Email already verified");
                   ("alreadyVerified", JBool true)] |}.

Definition reply (r : response) (d : database) : outcome :=
  {| res := r; db := d; deferred := [] |}.

(** *** generateOTP

    [Math.floor(100000 + Math.random() * 900000).toString()], for the
    double [r] that [Math.random()] returns: the product and the sum are
    rounded to doubles, the floor of a double is exact, and an integer
    below [2^53] prints as its decimal numeral. *)
Definition generateOTP (r : Q) : string :=
  JS.toString (Qfloor (JS.fadd 100000 (JS.fmul r 900000))).

Definition tenMinutes : Z := 10 * 60 * 1000.

(** *** mobileRegister *)

Record registerBody := {
  reg_email : string;
  reg_password : string;
  reg_name : string;
  reg_phoneNumber : string
}.

(** What [mobileRegister] and [resendOTP] read from their environment:
    [process.env.ADMIN_EMAIL], [Math.random()], the salt bcrypt draws,
    [Date.now()] for the expiry, [new Date()] for [createdAt], and the
    identifiers Prisma gives to the rows it creates. *)
Record environment := {
  ADMIN_EMAIL : option string;
  random : Q;
  salt : string;
  dateNow : Z;
  newDate : Z;
  newUserId : string;
  newCustomerId : string
}.

Import Regex.

Definition notSpaceOrAt (c : ascii) : bool :=
  negb (JS.isWhitespace c || Ascii.eqb c "@").

(** [/^[^\s@]+@[^\s@]+\.[^\s@]+$/] *)
Definition emailRegex : regex :=
  Cat (Plus (Class notSpaceOrAt))
    (Cat (Char "@")
       (Cat (Plus (Class notSpaceOrAt))
          (Cat (Char ".") (Plus (Class notSpaceOrAt))))).

Definition digitSpaceOrHyphen (c : ascii) : bool :=
  JS.isDigit c || JS.isWhitespace c || Ascii.eqb c "-".

(** [/^\+?[\d\s-]{10,15}$/] *)
Definition phoneRegex : regex :=
  Cat (Opt (Char "+")) (Range 10 15 (Class digitSpaceOrHyphen)).

Definition notSpace (c : ascii) : bool := negb (JS.isWhitespace c).

(** [/\S+@\S+\.\S+/] *)
Definition emailShape : regex :=
  Cat (Plus (Class notSpace))
    (Cat (Char "@")
       (Cat (Plus (Class notSpace))
          (Cat (Char ".") (Plus (Class notSpace))))).

Definition duplicateAccount : response :=
  failure 400
    "Account already exists. Please sign in with your email or phone number and password.".

(** The request has its four fields and both formats are accepted. *)
Definition passesValidation (b : registerBody) : Prop :=
  JS.truthy (reg_email b) = true
  /\ JS.truthy (reg_password b) = true
  /\ JS.truthy (reg_name b) = true
  /\ JS.truthy (reg_phoneNumber b) = true
  /\ Regex.matches emailRegex (reg_email b) = true
  /\ Regex.matches phoneRegex (reg_phoneNumber b) = true.

(** [adminEmails.includes(email.toLowerCase())] for
    [adminEmails = [process.env.ADMIN_EMAIL]] *)
Definition isAdminEmail (env : environment) (e : string) : bool :=
  match ADMIN_EMAIL env with
  | Some a => String.eqb a (JS.toLowerCase e)
  | None => false
  end.

(** "Create or Link Customer record for non-admin users" *)
Definition linkCustomer (env : environment) (u : account) (cs : list customer)
  : list customer * option string :=
  match List.find (fun c => String.eqb (customerEmail c) (email u)
                            || String.eqb (customerPhone c) (phoneNumber u)) cs with
  | Some existing =>
      (map (fun c =>
              if String.eqb (customerId c) (customerId existing)
              then {| customerId := customerId c;
                      userId := Some (id u);
                      customerEmail := customerEmail c;
                      customerName := customerName c;
                      customerPhone := customerPhone c;
                      customerIsVerified := customerIsVerified existing || false;
                      customerProvider := customerProvider c |}
              else c) cs,
       Some (customerId existing))
  | None =>
      (cs ++ [ {| customerId := newCustomerId env;
                  userId := Some (id u);
                  customerEmail := email u;
                  customerName := name u;
                  customerPhone := phoneNumber u;
                  customerIsVerified := false;
                  customerProvider := "local" |} ],
       Some (newCustomerId env))
  end.

Section Handlers.
Context `{Collaborators}.

Definition mobileRegister (env : environment) (b : registerBody) (d : database)
  : outcome :=
  let email := reg_email b in
  let phoneNumber := reg_phoneNumber b in
  if negb (JS.truthy email) || negb (JS.truthy (reg_password b))
     || negb (JS.truthy (reg_name b)) || negb (JS.truthy phoneNumber)
  then reply (failure 400 "Email, password, name, and phone number are required") d
  else if negb (matches emailRegex email)
  then reply (failure 400 "Invalid email format") d
  else if negb (matches phoneRegex phoneNumber)
  then reply (failure 400 "Invalid phone number format") d
  else
    let isAdmin := isAdminEmail env email in
    let existingUser :=
      if isAdmin then findUniqueByEmail (admins d) email
      else findUniqueByEmail (users d) email in
    let existingInOtherCollection :=
      if isAdmin then findUniqueByEmail (users d) email
      else findUniqueByEmail (admins d) email in
    if bool_decide (is_Some existingUser)
       || bool_decide (is_Some existingInOtherCollection)
    then reply duplicateAccount d
    else
      let existingPhone :=
        if isAdmin then findFirstByPhone (admins d) phoneNumber
        else findFirstByPhone (users d) phoneNumber in
      let existingPhoneInOtherCollection :=
        if isAdmin then findFirstByPhone (users d) phoneNumber
        else findFirstByPhone (admins d) phoneNumber in
      if bool_decide (is_Some existingPhone)
         || bool_decide (is_Some existingPhoneInOtherCollection)
      then reply duplicateAccount d
      else
        let hashedPassword := bcrypt_hash (reg_password b) 12 (salt env) in
        let otp := generateOTP (random env) in
        let otpExpiry := (dateNow env + tenMinutes)%Z in
        (* [isVerified], [isActive], [provider], [fcmTokens], [lastLogin],
           [resetToken] and [resetTokenExpiry] are not in [userData]: they
           take the defaults of the schema *)
        let newUser :=
          {| id := newUserId env;
             email := email;
             password := Some hashedPassword;
             name := reg_name b;
             phoneNumber := phoneNumber;
             isVerified := false;
             isActive := true;
             provider := "local";
             emailOTPs := Some [ {| otp := otp;
                                    expiresAt := otpExpiry;
                                    createdAt := newDate env |} ];
             fcmTokens := Some [];
             lastLogin := None;
             resetToken := None;
             resetTokenExpiry := None |} in
        let d1 := if isAdmin then setAdmins d (admins d ++ [newUser])
                  else setUsers d (users d ++ [newUser]) in
        let '(d2, customerId) :=
          if isAdmin then (d1, None)
          else let '(cs, cid) := linkCustomer env newUser (customers d1) in
               (setCustomers d1 cs, cid) in
        {| res :=
             {| status := 201;
                body := JObj [("success", JBool true);
                              ("message", JStr "Registration successful. Please check your email for OTP to verify your account.");
                              ("data", JObj [("id", JStr (id newUser));
                                             ("email", JStr email);
                                             ("name", JStr (reg_name b));
                                             ("role", JStr (if isAdmin then "admin" else "user"));
                                             ("otpSent", JBool true)])] |};
           db := d2;
           deferred :=
             SendEmail email "Verify Your Email - OTP Code" otp
             :: (if isAdmin then []
                 else [NewUserRegistrationAlert (reg_name b) email customerId]) |}.

(** *** verifyOTP *)

Record verifyBody := { ver_email : string; ver_otp : string }.

(** [otpEntry.otp === otp && expiryDate > now] *)
Definition accepts (code : string) (now : Z) (otpEntry : otpEntry) : bool :=
  String.eqb (otp otpEntry) code && (now <? expiresAt otpEntry)%Z.

(** The loop [for (let i = otpArray.length - 1; i >= 0; i--)]: [scan n]
    examines the indices below [n], from [n - 1] down to [0], and stops at
    the first entry with [otpEntry.otp === otp && expiryDate > now]. *)
Fixpoint scan (otpArray : list otpEntry) (code : string) (now : Z) (n : nat)
  : option otpEntry :=
  match n with
  | O => None
  | S i =>
      match otpArray !! i with
      | Some otpEntry =>
          if accepts code now otpEntry
          then Some otpEntry
          else scan otpArray code now i
      | None => scan otpArray code now i
      end
  end.

Definition expiredOTP : response :=
  failureWith 400 "OTP has expired. Please request a new OTP." "expired".

Definition invalidOTP : response :=
  failure 400 "Invalid OTP. Please check and try again.".

Definition markVerified (u : account) : account :=
  {| id := id u; email := email u; password := password u; name := name u;
     phoneNumber := phoneNumber u;
     isVerified := true;
     isActive := isActive u; provider := provider u;
     emailOTPs := Some [];
     fcmTokens := fcmTokens u; lastLogin := lastLogin u;
     resetToken := resetToken u; resetTokenExpiry := resetTokenExpiry u |}.

(** [prisma.customer.updateMany({ where: { userId }, data: { isVerified: true } })] *)
Definition verifyCustomers (i : string) (cs : list customer) : list customer :=
  map (fun c =>
         if bool_decide (userId c = Some i)
         then {| customerId := customerId c; userId := userId c;
                 customerEmail := customerEmail c;
                 customerName := customerName c;
                 customerPhone := customerPhone c;
                 customerIsVerified := true;
                 customerProvider := customerProvider c |}
         else c) cs.

Definition verifiedResponse (u : account) (t : userType) : response :=
  {| status := 200;
     body := JObj [("success", JBool true);
                   ("message", JStr "Email verified successfully");
                   ("data", JObj [("id", JStr (id u));
                                  ("email", JStr (email u));
                                  ("name", JStr (name u));
                                  ("isVerified", JBool true);
                                  ("role", JStr (roleName t))])] |}.

Definition verifyOTP (now : Z) (b : verifyBody) (d : database) : outcome :=
  let email := ver_email b in
  let otp := ver_otp b in
  if negb (JS.truthy email) || negb (JS.truthy otp)
  then reply (failure 400 "Email and OTP are required") d
  else
    match findInBothByEmail d email with
    | None => reply (failure 404 "User not found") d
    | Some (user, userType) =>
        if isVerified user then reply alreadyVerifiedResponse d
        else
          let otpArray := default [] (emailOTPs user) in
          if (length otpArray =? 0)%nat
          then reply (failure 400 "No OTP found. Please request a new OTP.") d
          else
            match scan otpArray otp now (length otpArray) with
            | None =>
                match List.find (fun entry => String.eqb (MobileAuth.otp entry) otp)
                                otpArray with
                | Some _ => reply expiredOTP d
                | None => reply invalidOTP d
                end
            | Some _ =>
                let d1 := updateAccount d userType (id user) markVerified in
                let d2 :=
                  match userType with
                  | Admin => d1
                  | User =>
                      setCustomers d1 (verifyCustomers (id user) (customers d1))
                  end in
                {| res := verifiedResponse (markVerified user) userType;
                   db := d2;
                   deferred :=
                     match userType with
                     | User => [WelcomeNotification (id user) (name user)]
                     | Admin => []
                     end |}
            end
    end.

(** *** resendOTP *)

Definition setOTPs (otps : list otpEntry) (u : account) : account :=
  {| id := id u; email := email u; password := password u; name := name u;
     phoneNumber := phoneNumber u; isVerified := isVerified u;
     isActive := isActive u; provider := provider u;
     emailOTPs := Some otps;
     fcmTokens := fcmTokens u; lastLogin := lastLogin u;
     resetToken := resetToken u; resetTokenExpiry := resetTokenExpiry u |}.

(** "Add new OTP to array (keep last 5 OTPs for history)" *)
Definition updatedOTPs (env : environment) (existingOTPs : list otpEntry)
  : list otpEntry :=
  JS.sliceLast 4 existingOTPs
  ++ [ {| otp := generateOTP (random env);
          expiresAt := (dateNow env + tenMinutes)%Z;
          createdAt := newDate env |} ].

Definition resendOTP (env : environment) (e : string) (d : database) : outcome :=
  if negb (JS.truthy e)
  then reply (failure 400 "Email is required") d
  else
    match findInBothByEmail d e with
    | None => reply (failure 404 "User not found") d
    | Some (user, userType) =>
        if isVerified user then reply alreadyVerifiedResponse d
        else
          let otp := generateOTP (random env) in
          let existingOTPs := default [] (emailOTPs user) in
          {| res :=
               {| status := 200;
                  body := JObj [("success", JBool true);
                                ("message", JStr "New OTP sent to your email");
                                ("data", JObj [("email", JStr (email user));
                                               ("otpSent", JBool true)])] |};
             db := updateAccount d userType (id user)
                     (setOTPs (updatedOTPs env existingOTPs));
             deferred := [SendEmail e "Verify Your Email - New OTP Code" otp] |}
    end.

(** *** mobileLogin *)

Record loginBody := {
  login_email : string;
  login_password : string;
  login_fcmToken : string
}.

(** What [mobileLogin] reads: [new Date()] for [lastLogin], [new Date()]
    for the device entry, the [user-agent] header (empty when absent) and
    the time at which the token is signed. *)
Record loginEnvironment := {
  loginDate : Z;
  deviceDate : Z;
  userAgent : string;
  signDate : Z
}.

(** How the two steps that follow the update of the row end:
    [generateToken] and [sessionManager.addSession] both return, or one of
    them throws. *)
Inductive sessionStep := SessionOpened | SignThrows | AddSessionThrows.

Definition passwordMissing (u : account) : bool :=
  match password u with
  | Some h => negb (JS.truthy h)
  | None => true
  end.

Definition notFoundMessage : string := "Invalid email/phone number or password".

Definition wrongPasswordMessage : string := "Invalid email or password".

Definition recordLogin (env : loginEnvironment) (fcmToken : string) (u : account)
  : account :=
  {| id := id u; email := email u; password := password u; name := name u;
     phoneNumber := phoneNumber u; isVerified := isVerified u;
     isActive := isActive u; provider := provider u;
     emailOTPs := emailOTPs u;
     fcmTokens :=
       if JS.truthy fcmToken
       then
         let existingTokens := default [] (fcmTokens u) in
         let device := if JS.truthy (userAgent env) then userAgent env
                       else "Mobile App" in
         let filteredTokens :=
           filter (fun t => negb (String.eqb (token t) fcmToken)) existingTokens in
         Some (JS.sliceFirst 10
                 ({| token := fcmToken; device := device;
                     lastUsed := deviceDate env |} :: filteredTokens))
       else fcmTokens u;
     lastLogin := Some (loginDate env);
     resetToken := resetToken u; resetTokenExpiry := resetTokenExpiry u |}.

Definition mobileLoginAttempt (step : sessionStep) (env : loginEnvironment)
    (b : loginBody) (d : database) : outcome :=
  let email := login_email b in
  let password := login_password b in
  if negb (JS.truthy email) || negb (JS.truthy password)
  then reply (failure 400 "Email or phone number and password are required") d
  else
    let isEmail := search emailShape email in
    let lookup rows :=
      if isEmail then findUniqueByEmail rows email
      else findFirstByPhone rows email in
    let found :=
      match lookup (users d) with
      | Some u => Some (u, User)
      | None =>
          match lookup (admins d) with
          | Some u => Some (u, Admin)
          | None => None
          end
      end in
    match found with
    | None => reply (failure 401 notFoundMessage) d
    | Some (user, userType) =>
        if negb (isActive user)
        then reply (failure 401 "Account is deactivated. Please contact administrator.") d
        else if negb (isVerified user)
        then reply (failureWith 401
                      "Please verify your email before signing in. Check your inbox for the OTP."
                      "needsVerification") d
        else if passwordMissing user && String.eqb (provider user) "google"
        then reply (failureWith 401 "Please sign in with Google" "useGoogleAuth") d
        else
          match MobileAuth.password user with
          | None =>
              (* bcrypt.compare throws on a null hash: caught at top level *)
              reply (failure 500 "Login failed") d
          | Some hash =>
              if negb (bcrypt_compare password hash)
              then reply (failure 401 wrongPasswordMessage) d
              else
                let updated :=
                  updateAccount d userType (id user)
                    (recordLogin env (login_fcmToken b)) in
                let tok := jwt_sign (id user) (signDate env) in
                match step with
                | SignThrows =>
                    (* caught at top level, the row already updated *)
                    {| res := failure 500 "Login failed";
                       db := updated;
                       deferred := [] |}
                | AddSessionThrows =>
                    {| res := failure 500 "Login failed";
                       db := updated;
                       deferred := [AddSession (id user) tok] |}
                | SessionOpened =>
                    {| res :=
                         {| status := 200;
                            body :=
                              JObj [("success", JBool true);
                                    ("message", JStr "Login successful");
                                    ("data",
                                     JObj [("token", JStr tok);
                                           ("user",
                                            JObj [("id", JStr (id user));
                                                  ("email", JStr (MobileAuth.email user));
                                                  ("name", JStr (name user));
                                                  ("role", JStr (roleName userType));
                                                  ("isVerified", JBool (isVerified user));
                                                  ("phoneNumber", JStr (phoneNumber user))])])] |};
                       db := updated;
                       deferred := [AddSession (id user) tok] |}
                end
          end
    end.

(** [mobileLogin] when [generateToken] and [sessionManager.addSession]
    return. *)
Definition mobileLogin (env : loginEnvironment) (b : loginBody) (d : database)
  : outcome :=
  mobileLoginAttempt SessionOpened env b d.

(** [n] successive [resendOTP] calls for one address, one environment
    per call *)
Definition resendMany (envs : list environment) (e : string) (d : database)
  : database :=
  fold_left (fun d env => db (resendOTP env e d)) envs d.

End Handlers.

End MobileAuth.

(** ** The abandoned-cart scheduler *)

Module CartAlerts.

Record cartItem := {
  createdAt : Z;
  quantity : Q;
  variantSellingPrice : Q;
  variantMRP : Q
}.

Record customer := {
  id : string;
  userId : option string;
  name : string;
  cartItems : list cartItem
}.

Record onlineOrder := {
  orderUserId : option string;
  orderCreatedAt : Z
}.

Record database := {
  customers : list customer;
  onlineOrders : list onlineOrder
}.

(** ['1hour'], ['24hours'], ['3days'] *)
Inductive reminderType := oneHour | twentyFourHours | threeDays.

(** The arguments of one [sendAbandonedCartReminder] call. *)
Record reminder := {
  toUser : option string;
  itemCount : Q;
  cartValue : Q;
  savings : Q;
  kind : reminderType
}.

(** The notification collaborator: [result.success] of a call. *)
Class Notifier := { sendAbandonedCartReminder : reminder -> bool }.

Record breakdown := {
  oneHourCount : nat;
  twentyFourHoursCount : nat;
  threeDaysCount : nat
}.

(** The variables of the loop: [alertsSent], [results] and, for the
    properties below, the calls made to the collaborator, in order. *)
Record tallies := {
  sent : nat;
  counts : breakdown;
  made : list reminder
}.

(** What [checkAbandonedCarts] returns, with the calls it made.  The early
    return has a [message] and neither [totalChecked] nor [breakdown]; the
    return after the loop has these two and no [message]. *)
Record report := {
  success : bool;
  alertsSent : nat;
  message : option string;
  totalChecked : option nat;
  results : option breakdown;
  calls : list reminder
}.

(** [include: { cartItems: { orderBy: { createdAt: 'desc' } } }] *)
Definition includeCartItems (c : customer) : customer :=
  {| id := id c; userId := userId c; name := name c;
     cartItems := Prisma.orderByDesc createdAt (cartItems c) |}.

(** [customer.findMany({ where: { cartItems: { some: {} } }, include })] *)
Definition customersWithCarts (d : database) : list customer :=
  map includeCartItems
      (List.filter (fun c => negb (length (cartItems c) =? 0)%nat) (customers d)).

(** [onlineOrder.findMany({ where: { userId, createdAt: { gte: lastCartActivity } } })];
    a customer without a user is matched with the orders without a user. *)
Definition recentOrders (d : database) (u : option string) (lastCartActivity : Z)
  : list onlineOrder :=
  List.filter (fun o => bool_decide (orderUserId o = u)
                        && (lastCartActivity <=? orderCreatedAt o)%Z)
              (onlineOrders d).

(** [t >= lo && t <= hi] *)
Definition between (t lo hi : Z) : bool := (lo <=? t)%Z && (t <=? hi)%Z.

(** The three tests on [lastCartActivity]; a later test that passes
    overwrites [reminderType]. *)
Definition chooseReminder (now lastCartActivity : Z) : option reminderType * bool :=
  let oneHourAgo := (now - 60 * 60 * 1000)%Z in
  let twentyFourHoursAgo := (now - 24 * 60 * 60 * 1000)%Z in
  let threeDaysAgo := (now - 3 * 24 * 60 * 60 * 1000)%Z in
  let s0 : option reminderType * bool := (None, false) in
  let oneHourWindow := (oneHourAgo - 10 * 60 * 1000)%Z in
  let oneHourWindowEnd := (oneHourAgo + 10 * 60 * 1000)%Z in
  let s1 := if between lastCartActivity oneHourWindow oneHourWindowEnd
            then (Some oneHour, true) else s0 in
  let twentyFourHourWindow := (twentyFourHoursAgo - 60 * 60 * 1000)%Z in
  let twentyFourHourWindowEnd := (twentyFourHoursAgo + 60 * 60 * 1000)%Z in
  let s2 := if between lastCartActivity twentyFourHourWindow twentyFourHourWindowEnd
            then (Some twentyFourHours, true) else s1 in
  let threeDaysWindow := (threeDaysAgo - 2 * 60 * 60 * 1000)%Z in
  let threeDaysWindowEnd := (threeDaysAgo + 2 * 60 * 60 * 1000)%Z in
  let s3 := if between lastCartActivity threeDaysWindow threeDaysWindowEnd
            then (Some threeDays, true) else s2 in
  s3.

(** The body of the loop up to the call: the reminder to send for one
    loaded customer, if any.  The totals are exact here; JavaScript rounds
    them to doubles. *)
Definition reminderFor (now : Z) (d : database) (c : customer) : option reminder :=
  match cartItems c with
  | [] => None
  | first :: _ =>
      let lastCartActivity := createdAt first in
      if (0 <? length (recentOrders d (userId c) lastCartActivity))%nat
      then None
      else
        let itemCount :=
          fold_left (fun sum item => sum + quantity item)%Q (cartItems c) 0%Q in
        let cartValue :=
          fold_left (fun sum item => sum + variantSellingPrice item * quantity item)%Q
                    (cartItems c) 0%Q in
        let savings :=
          fold_left (fun sum item =>
                       sum + (variantMRP item - variantSellingPrice item)
                             * quantity item)%Q
                    (cartItems c) 0%Q in
        match chooseReminder now lastCartActivity with
        | (Some reminderType, true) =>
            Some {| toUser := userId c; itemCount := itemCount;
                    cartValue := cartValue; savings := savings;
                    kind := reminderType |}
        | _ => None
        end
  end.

Definition tally (k : reminderType) (b : breakdown) : breakdown :=
  match k with
  | oneHour =>
      {| oneHourCount := S (oneHourCount b);
         twentyFourHoursCount := twentyFourHoursCount b;
         threeDaysCount := threeDaysCount b |}
  | twentyFourHours =>
      {| oneHourCount := oneHourCount b;
         twentyFourHoursCount := S (twentyFourHoursCount b);
         threeDaysCount := threeDaysCount b |}
  | threeDays =>
      {| oneHourCount := oneHourCount b;
         twentyFourHoursCount := twentyFourHoursCount b;
         threeDaysCount := S (threeDaysCount b) |}
  end.

Section Sweep.
Context `{Notifier}.

(** One iteration of [for (const customer of customersWithCarts)]. *)
Definition visit (now : Z) (d : database) (r : tallies) (c : customer) : tallies :=
  match reminderFor now d c with
  | None => r
  | Some m =>
      if sendAbandonedCartReminder m
      then {| sent := S (sent r);
              counts := tally (kind m) (counts r);
              made := made r ++ [m] |}
      else {| sent := sent r;
              counts := counts r;
              made := made r ++ [m] |}
  end.

Definition checkAbandonedCarts (now : Z) (d : database) : report :=
  let loaded := customersWithCarts d in
  if (length loaded =? 0)%nat
  then {| success := true; alertsSent := 0; message := Some "No carts";
          totalChecked := None; results := None; calls := [] |}
  else
    let after :=
      fold_left (visit now d) loaded
        {| sent := 0;
           counts := {| oneHourCount := 0; twentyFourHoursCount := 0;
                        threeDaysCount := 0 |};
           made := [] |} in
    {| success := true; alertsSent := sent after; message := None;
       totalChecked := Some (length loaded); results := Some (counts after);
       calls := made after |}.

End Sweep.

End CartAlerts.

(** ** The wishlist schedulers *)

Module WishlistAlerts.

(** The snapshot kept in a wishlist item ([productData], a JSON object).
    A field that is absent is [JS.Undefined]. *)
Record productData := {
  variantSellingPrice : JS.value;
  price : JS.value;
  variantIndex : JS.value;
  variantStockQuantity : JS.value;
  productName : option string;
  variantName : option string
}.

Record customer := {
  userId : option string;
  name : string
}.

(** [snapshot] is the [productData] column and [owner] the included
    [customer]; either may be [null]. *)
Record wishlistItem := {
  id : string;
  productId : string;
  snapshot : option productData;
  owner : option customer
}.

(** An element of [variants], with its [variantSellingPrice]. *)
Record variant := { liveSellingPrice : JS.value }.

Record onlineProduct := {
  onlineProductId : string;
  onlineProductName : option string;
  variants : option (list (option variant))
}.

Record priceDropAlert := {
  dropUser : option string;
  dropProductName : option string;
  storedPrice : JS.value;
  currentPrice : JS.value;
  dropProductId : string
}.

Record backInStockAlert := {
  stockUser : option string;
  stockProductName : option string;
  stockQuantity : Q;
  stockProductId : string
}.

(** The notification collaborator: [result.success] of a call. *)
Class Notifier := {
  sendPriceDropAlert : priceDropAlert -> bool;
  sendBackInStockAlert : backInStockAlert -> bool
}.

(** [onlineProduct.findUnique({ where: { id } })] *)
Definition findProduct (catalog : list onlineProduct) (i : string)
  : option onlineProduct :=
  List.find (fun p => String.eqb (onlineProductId p) i) catalog.

(** [currentProduct.variants?.[variantIndex]], [None] when falsy *)
Definition currentVariant (p : onlineProduct) (i : Q) : option variant :=
  match variants p with
  | Some vs =>
      match JS.index vs i with
      | Some (Some v) => Some v
      | _ => None
      end
  | None => None
  end.

(** [{ ...productData, variantSellingPrice: p, price: p }] *)
Definition withPrice (pd : productData) (p : JS.value) : productData :=
  {| variantSellingPrice := p; price := p;
     variantIndex := variantIndex pd;
     variantStockQuantity := variantStockQuantity pd;
     productName := productName pd; variantName := variantName pd |}.

(** [{ ...productData, variantStockQuantity: q }] *)
Definition withStock (pd : productData) (q : Q) : productData :=
  {| variantSellingPrice := variantSellingPrice pd; price := price pd;
     variantIndex := variantIndex pd;
     variantStockQuantity := JS.Number q;
     productName := productName pd; variantName := variantName pd |}.

(** [wishlistItem.update({ where: { id }, data: { productData } })] *)
Definition updateSnapshot (table : list wishlistItem) (i : string)
    (pd : productData) : list wishlistItem :=
  map (fun w => if String.eqb (id w) i
                then {| id := id w; productId := productId w;
                        snapshot := Some pd; owner := owner w |}
                else w) table.


(** The body of the price-drop loop up to the call: the alert to send for
    an item and the snapshot to store when it has been sent. *)
Definition priceDropFor (catalog : list onlineProduct) (item : wishlistItem)
  : option (priceDropAlert * productData) :=
  match snapshot item, owner item with
  | Some pd, Some cust =>
      match findProduct catalog (productId item) with
      | None => None
      | Some currentProduct =>
          let storedPrice := JS.or (variantSellingPrice pd) (price pd) in
          let variantIndex := JS.orZero (variantIndex pd) in
          match currentVariant currentProduct variantIndex with
          | None => None
          | Some v =>
              let currentPrice := liveSellingPrice v in
              if JS.lt currentPrice storedPrice
              then Some ({| dropUser := userId cust;
                            dropProductName :=
                              JS.orString (productName pd)
                                          (onlineProductName currentProduct);
                            storedPrice := storedPrice;
                            currentPrice := currentPrice;
                            dropProductId := productId item |},
                         withPrice pd currentPrice)
              else None
          end
      end
  | _, _ => None
  end.

(** The body of the back-in-stock loop up to the call. *)
Definition backInStockFor (variantIndex newStockQuantity : Q) (item : wishlistItem)
  : option (backInStockAlert * productData) :=
  match snapshot item, owner item with
  | Some pd, Some cust =>
      let itemVariantIndex := JS.orZero (WishlistAlerts.variantIndex pd) in
      if negb (Qeq_bool itemVariantIndex variantIndex) then None
      else
        let previousStock := JS.orZero (variantStockQuantity pd) in
        if Qeq_bool previousStock 0 && JS.Qltb 0 newStockQuantity
        then Some ({| stockUser := userId cust;
                      stockProductName :=
                        JS.orString (JS.orString (productName pd) (variantName pd))
                                    (Some "Product");
                      stockQuantity := newStockQuantity;
                      stockProductId := productId item |},
                   withStock pd newStockQuantity)
        else None
  | _, _ => None
  end.

(** The state of a sweep: the table as written so far, the counter, and
    the calls made to the collaborator, each with the id of the item it
    was made for and its [result.success]. *)
Record progress (alert : Type) := {
  table : list wishlistItem;
  alertsSent : nat;
  calls : list (string * alert * bool)
}.
Arguments table {alert}.
Arguments alertsSent {alert}.
Arguments calls {alert}.

(** The part the two loops share: call the collaborator with the alert
    and, if it reports success, count it and store the new snapshot. *)
Definition visit {alert : Type}
    (choose : wishlistItem -> option (alert * productData))
    (send : alert -> bool)
    (st : progress alert) (item : wishlistItem) : progress alert :=
  match choose item with
  | None => st
  | Some (a, pd) =>
      if send a
      then {| table := updateSnapshot (table st) (id item) pd;
              alertsSent := S (alertsSent st);
              calls := calls st ++ [(id item, a, true)] |}
      else {| table := table st;
              alertsSent := alertsSent st;
              calls := calls st ++ [(id item, a, false)] |}
  end.

(** What visiting an item adds to [calls]. *)
Definition callFor {alert : Type}
    (choose : wishlistItem -> option (alert * productData))
    (send : alert -> bool) (item : wishlistItem)
  : option (string * alert * bool) :=
  match choose item with
  | Some (a, _) => Some (id item, a, send a)
  | None => None
  end.

Definition withSnapshot (w : wishlistItem) (pd : productData) : wishlistItem :=
  {| id := id w; productId := productId w; snapshot := Some pd; owner := owner w |}.

(** The row an item is stored as once it has been visited. *)
Definition rowAfter {alert : Type}
    (choose : wishlistItem -> option (alert * productData))
    (send : alert -> bool) (item : wishlistItem) : wishlistItem :=
  match choose item with
  | Some (a, pd) => if send a then withSnapshot item pd else item
  | None => item
  end.

(** [item] is one of the rows of [items], by id. *)
Definition visited (items : list wishlistItem) (w : wishlistItem) : bool :=
  existsb (fun it => String.eqb (id it) (id w)) items.

Section Sweeps.
Context `{Notifier}.

(** The sweep over every wishlist item. *)
Definition checkWishlistPriceDrops (catalog : list onlineProduct)
    (stored : list wishlistItem) : progress priceDropAlert :=
  let wishlistItems := stored in
  let start := {| table := stored; alertsSent := 0; calls := [] |} in
  if (length wishlistItems =? 0)%nat then start
  else fold_left (visit (priceDropFor catalog) sendPriceDropAlert)
                 wishlistItems start.

(** The check made when the stock of variant [variantIndex] of product
    [pid] becomes [newStockQuantity]. *)
Definition checkWishlistBackInStock (pid : string) (variantIndex newStockQuantity : Q)
    (stored : list wishlistItem) : progress backInStockAlert :=
  let wishlistItems :=
    List.filter (fun w => String.eqb (productId w) pid) stored in
  let start := {| table := stored; alertsSent := 0; calls := [] |} in
  if (length wishlistItems =? 0)%nat then start
  else fold_left (visit (backInStockFor variantIndex newStockQuantity)
                        sendBackInStockAlert)
                 wishlistItems start.

End Sweeps.

(** An alert was sent for the item with id [i]. *)
Definition firedFor {alert : Type} (i : string) (p : progress alert) : Prop :=
  exists a ok, (i, a, ok) ∈ calls p.

(** An alert was sent for the item with id [i] and delivered. *)
Definition deliveredFor {alert : Type} (i : string) (p : progress alert) : Prop :=
  exists a, (i, a, true) ∈ calls p.

End WishlistAlerts.

(** ** Expense numbers *)

Module Expenses.

Record expense := {
  expenseNumber : string;
  createdAt : Z
}.

(** [`EXP-${currentYear}-`] *)
Definition yearPrefix (currentYear : Z) : string :=
  "EXP-" +:+ JS.toString currentYear +:+ "-".

(** [expense.findFirst({ where: { expenseNumber: { startsWith } },
                         orderBy: { createdAt: "desc" } })] *)
Definition latestExpense (currentYear : Z) (store : list expense) : option expense :=
  head (Prisma.orderByDesc createdAt
          (List.filter (fun e => JS.startsWith (expenseNumber e)
                                               (yearPrefix currentYear))
                       store)).

(** [parseInt(latestExpense.expenseNumber.split("-")[2], 10)]

    The counter is held as a whole number.  It is the double that
    JavaScript holds as long as it stays below 2^53
    ([DoubleProofs.roundDouble_int], [DoubleProofs.fadd_one]); the
    properties of the numbering that depend on the counter are stated for
    that range. *)
Definition lastNumber (expenseNumber : string) : JS.number :=
  let parts := JS.split "-" expenseNumber in
  match parts !! 2%nat with
  | Some part => JS.parseInt part
  | None => None
  end.

Definition generateExpenseNumber (currentYear : Z) (store : list expense) : string :=
  let nextNumber : JS.number :=
    match latestExpense currentYear store with
    | Some latest => (fun n => n + 1)%Z <$> lastNumber (expenseNumber latest)
    | None => Some 1%Z
    end in
  let paddedNumber := JS.padStart 3 "0" (JS.numberToString nextNumber) in
  yearPrefix currentYear +:+ paddedNumber.

(** The row [createExpense] inserts once its checks have passed, in year
    [currentYear] at time [now]. *)
Definition createExpense (currentYear now : Z) (store : list expense)
  : list expense :=
  store ++ [ {| expenseNumber := generateExpenseNumber currentYear store;
                createdAt := now |} ].

(** [createExpense] at each of [times], in year [currentYear] *)
Definition createMany (currentYear : Z) (times : list Z) (store : list expense)
  : list expense :=
  fold_left (fun st now => createExpense currentYear now st) times store.

(** The rows numbered 1, 2, 3, ... in year [currentYear], created at
    [times]. *)
Definition numbered (currentYear : Z) (times : list Z) : list expense :=
  imap (fun i now =>
          {| expenseNumber :=
               yearPrefix currentYear
               +:+ JS.padStart 3 "0" (JS.toString (Z.of_nat (S i)));
             createdAt := now |})
       times.

(** Each time is later than the ones before it. *)
Definition increasing (times : list Z) : Prop :=
  forall i j x y, (i < j)%nat -> times !! i = Some x -> times !! j = Some y ->
                  (x < y)%Z.

End Expenses.

(** ** What a regular expression matches *)

Module RegexSpec.
Import Regex.

(** The strings of a pattern, by the shape of the pattern. *)
Inductive Matches : regex -> string -> Prop :=
| MEps : Matches Eps ""
| MClass (p : ascii -> bool) (c : ascii) :
    p c = true -> Matches (Class p) (String c "")
| MCat (r1 r2 : regex) (s1 s2 : string) :
    Matches r1 s1 -> Matches r2 s2 -> Matches (Cat r1 r2) (s1 +:+ s2)
| MAltL (r1 r2 : regex) (s : string) :
    Matches r1 s -> Matches (Alt r1 r2) s
| MAltR (r1 r2 : regex) (s : string) :
    Matches r2 s -> Matches (Alt r1 r2) s
| MStarNil (r : regex) : Matches (Star r) ""
| MStarCons (r : regex) (s1 s2 : string) :
    Matches r s1 -> Matches (Star r) s2 -> Matches (Star r) (s1 +:+ s2).

(** Every character of [s] satisfies [p]. *)
Definition allChars (p : ascii -> bool) (s : string) : Prop :=
  forallb p (list_ascii_of_string s) = true.

End RegexSpec.

(** ** Notions used to state the properties of the controller *)

Module MobileAuthSpec.
Import MobileAuth.

(** [local@domain.tld]: three non-empty parts without white space or "@". *)
Definition wellFormedEmail (s : string) : Prop :=
  exists l m t,
    s = l +:+ "@" +:+ m +:+ "." +:+ t
    /\ l <> "" /\ m <> "" /\ t <> ""
    /\ RegexSpec.allChars notSpaceOrAt l
    /\ RegexSpec.allChars notSpaceOrAt m
    /\ RegexSpec.allChars notSpaceOrAt t.

(** An optional "+", then ten to fifteen digits, white spaces or hyphens. *)
Definition wellFormedPhone (s : string) : Prop :=
  exists digits,
    (s = digits \/ s = "+" +:+ digits)
    /\ (10 <= String.length digits <= 15)%nat
    /\ RegexSpec.allChars digitSpaceOrHyphen digits.

(** No two accounts, of either collection, share an address or a phone
    number. *)
Definition distinctAccounts (d : database) : Prop :=
  NoDup (map email (users d ++ admins d))
  /\ NoDup (map phoneNumber (users d ++ admins d)).

(** No account with this address or this phone number, in either
    collection. *)
Definition unused (d : database) (e p : string) : Prop :=
  forall a, a ∈ users d \/ a ∈ admins d -> email a <> e /\ phoneNumber a <> p.

(** The entry a call made in environment [env] issues. *)
Definition issued (env : environment) : otpEntry :=
  {| otp := generateOTP (random env);
     expiresAt := (dateNow env + tenMinutes)%Z;
     createdAt := newDate env |}.



(** The account is as it was, but for [lastLogin] and [fcmTokens]. *)
Definition sameButSession (a a' : account) : Prop :=
  id a' = id a /\ email a' = email a /\ password a' = password a
  /\ name a' = name a /\ phoneNumber a' = phoneNumber a
  /\ isVerified a' = isVerified a /\ isActive a' = isActive a
  /\ provider a' = provider a /\ emailOTPs a' = emailOTPs a
  /\ resetToken a' = resetToken a
  /\ resetTokenExpiry a' = resetTokenExpiry a.

(** The account is as it was, but for [emailOTPs]. *)
Definition sameButOTPs (a a' : account) : Prop :=
  id a' = id a /\ email a' = email a /\ password a' = password a
  /\ name a' = name a /\ phoneNumber a' = phoneNumber a
  /\ isVerified a' = isVerified a /\ isActive a' = isActive a
  /\ provider a' = provider a /\ fcmTokens a' = fcmTokens a
  /\ lastLogin a' = lastLogin a
  /\ resetToken a' = resetToken a
  /\ resetTokenExpiry a' = resetTokenExpiry a.

(** The account is as it was, but for [password], [resetToken] and
    [resetTokenExpiry]. *)
Definition sameButPassword (a a' : account) : Prop :=
  id a' = id a /\ email a' = email a
  /\ name a' = name a /\ phoneNumber a' = phoneNumber a
  /\ isVerified a' = isVerified a /\ isActive a' = isActive a
  /\ provider a' = provider a /\ emailOTPs a' = emailOTPs a
  /\ fcmTokens a' = fcmTokens a /\ lastLogin a' = lastLogin a.

(** The answers of [mobileLogin] before it looks at the password. *)
Definition deactivated : response :=
  failure 401 "Account is deactivated. Please contact administrator.".

Definition needsVerification : response :=
  failureWith 401
    "Please verify your email before signing in. Check your inbox for the OTP."
    "needsVerification".

(** The lookup of [mobileLogin]: by address when the identifier has the
    shape of one, by phone number otherwise; users first. *)
Definition findForLogin (d : database) (identifier : string)
  : option (account * userType) :=
  let lookup rows :=
    if Regex.search emailShape identifier
    then findUniqueByEmail rows identifier
    else findFirstByPhone rows identifier in
  match lookup (users d) with
  | Some u => Some (u, User)
  | None =>
      match lookup (admins d) with
      | Some u => Some (u, Admin)
      | None => None
      end
  end.

Section WithCollaborators.
Context `{Collaborators}.

(** The row [mobileRegister] creates for a request it accepts. *)
Definition registered (env : environment) (b : registerBody) : account :=
  {| id := newUserId env;
     email := reg_email b;
     password := Some (bcrypt_hash (reg_password b) 12 (salt env));
     name := reg_name b;
     phoneNumber := reg_phoneNumber b;
     isVerified := false;
     isActive := true;
     provider := "local";
     emailOTPs := Some [issued env];
     fcmTokens := Some [];
     lastLogin := None;
     resetToken := None;
     resetTokenExpiry := None |}.

End WithCollaborators.

End MobileAuthSpec.

(** ** Notions used to state the properties of the schedulers *)

Module CartAlertsSpec.
Import CartAlerts.

(** The reminder is of type [k]. *)
Definition ofKind (k : reminderType) (m : reminder) : bool :=
  match k, kind m with
  | oneHour, oneHour => true
  | twentyFourHours, twentyFourHours => true
  | threeDays, threeDays => true
  | _, _ => false
  end.

Section WithNotifier.
Context `{Notifier}.

(** The reminders of type [k] among [ms] that the notifier delivers. *)
Definition sentOfKind (k : reminderType) (ms : list reminder) : nat :=
  length (List.filter (fun m => sendAbandonedCartReminder m && ofKind k m) ms).

End WithNotifier.

End CartAlertsSpec.

Module WishlistAlertsSpec.
Import WishlistAlerts.


(** A stock update: the arguments of one [checkWishlistBackInStock] call. *)
Record stockEvent := {
  eventProduct : string;
  eventVariant : Q;
  eventStock : Q
}.

Section WithNotifier.
Context `{Notifier}.

Definition stockCheck (ev : stockEvent) (stored : list wishlistItem)
  : progress backInStockAlert :=
  checkWishlistBackInStock (eventProduct ev) (eventVariant ev) (eventStock ev)
    stored.

(** The table after the checks of successive stock updates. *)
Definition afterStockEvents (events : list stockEvent)
    (stored : list wishlistItem) : list wishlistItem :=
  fold_left (fun tbl ev => table (stockCheck ev tbl)) events stored.

End WithNotifier.

End WishlistAlertsSpec.

(** ** Password reset by verified phone *)

Module PasswordReset.
Import MobileAuth.

(** [admin.auth().verifyIdToken(firebaseToken)]: [None] when the token is
    rejected, otherwise the [phone_number] of the decoded token, which a
    token without that claim does not have. *)
Class Firebase := { verifyIdToken : string -> option (option string) }.

Record resetBody := {
  reset_phoneNumber : string;
  reset_newPassword : string;
  reset_firebaseToken : string
}.

(** [data: { password: hashedPassword, resetToken: null,
             resetTokenExpiry: null }] *)
Definition setPassword (hash : string) (u : account) : account :=
  {| id := id u; email := email u; password := Some hash; name := name u;
     phoneNumber := phoneNumber u; isVerified := isVerified u;
     isActive := isActive u; provider := provider u;
     emailOTPs := emailOTPs u;
     fcmTokens := fcmTokens u; lastLogin := lastLogin u;
     resetToken := None; resetTokenExpiry := None |}.

(** "Find user by phone number": [prisma.user] first, then [prisma.admin]. *)
Definition findInBothByPhone (d : database) (p : string)
  : option (account * userType) :=
  match findFirstByPhone (users d) p with
  | Some u => Some (u, User)
  | None =>
      match findFirstByPhone (admins d) p with
      | Some u => Some (u, Admin)
      | None => None
      end
  end.

Definition resetDone : response :=
  {| status := 200;
     body := JObj [("success", JBool true);
                   ("message", JStr "Password reset successful. You can now sign in with your new password.")] |}.

Section Handler.
Context `{Collaborators} `{Firebase}.

(** [salt] is the salt bcrypt draws. *)
Definition resetPasswordWithPhone (salt : string) (b : resetBody) (d : database)
  : outcome :=
  let phoneNumber := reset_phoneNumber b in
  let newPassword := reset_newPassword b in
  let firebaseToken := reset_firebaseToken b in
  if negb (JS.truthy phoneNumber) || negb (JS.truthy newPassword)
     || negb (JS.truthy firebaseToken)
  then reply (failure 400 "Phone number, new password, and Firebase token are required") d
  else if (String.length newPassword <? 6)%nat
  then reply (failure 400 "Password must be at least 6 characters") d
  else
    match verifyIdToken firebaseToken with
    | None =>
        reply (failure 401 "Invalid Firebase token. Please verify your phone number again.") d
    | Some phone_number =>
        if negb (bool_decide (phone_number = Some phoneNumber))
        then reply (failure 401 "Phone number mismatch. Please try again.") d
        else
          match findInBothByPhone d phoneNumber with
          | None => reply (failure 404 "Account not found with this phone number") d
          | Some (user, userType) =>
              if negb (isActive user)
              then reply (failure 401 "Account is deactivated. Please contact administrator.") d
              else
                let hashedPassword := bcrypt_hash newPassword 12 salt in
                {| res := resetDone;
                   db := updateAccount d userType (id user) (setPassword hashedPassword);
                   deferred := [] |}
          end
    end.

End Handler.

End PasswordReset.

(** ** The wishlist controller *)

Module WishlistController.

(** A row of [prisma.customer]; [userId] is unique and may be [null]. *)
Record customer := {
  id : string;
  userId : option string
}.

(** A row of [prisma.wishlistItem]; [productData] is the JSON the client
    sent. *)
Record wishlistItem := {
  itemId : string;
  customerId : string;
  productId : string;
  productData : json;
  addedAt : Z
}.

Record database := {
  customers : list customer;
  wishlistItems : list wishlistItem
}.

Record outcome := {
  res : response;
  db : database
}.

Definition reply (r : response) (d : database) : outcome :=
  {| res := r; db := d |}.

Definition failure (code : nat) (msg : string) : response :=
  {| status := code;
     body := JObj [("success", JBool false); ("error", JStr msg)] |}.

(** ToBoolean of a JSON value *)
Definition jsonTruthy (j : json) : bool :=
  match j with
  | JNull => false
  | JBool b => b
  | JNum n => negb (n =? 0)%Z
  | JStr s => JS.truthy s
  | JObj _ => true
  end.

(** [o.k = v] on the fields of an object literal: a key that is there keeps
    its place and takes the new value, a new key goes last. *)
Fixpoint assign (fields : list (string * json)) (k : string) (v : json)
  : list (string * json) :=
  match fields with
  | [] => [(k, v)]
  | (k', v') :: rest =>
      if String.eqb k' k then (k', v) :: rest
      else (k', v') :: assign rest k v
  end.

(** The own enumerable properties that [...j] copies: the fields of an
    object, the characters of a string under their indices, nothing
    otherwise. *)
Fixpoint characters (i : nat) (s : string) : list (string * json) :=
  match s with
  | EmptyString => []
  | String c s' =>
      (JS.toString (Z.of_nat i), JStr (String c EmptyString)) :: characters (S i) s'
  end.

Definition properties (j : json) : list (string * json) :=
  match j with
  | JObj fs => fs
  | JStr s => characters 0 s
  | _ => []
  end.

(** [{ wishlistItemId: item.id, addedAt: item.addedAt, ...item.productData }] *)
Definition itemData (item : wishlistItem) : json :=
  JObj (fold_left (fun fs kv => assign fs (fst kv) (snd kv))
                  (properties (productData item))
                  [("wishlistItemId", JStr (itemId item));
                   ("addedAt", JNum (addedAt item))]).

(** [customer.findUnique({ where: { userId } })] *)
Definition findCustomer (d : database) (u : string) : option customer :=
  List.find (fun c => bool_decide (userId c = Some u)) (customers d).

Definition belongsTo (c : customer) (p : string) (w : wishlistItem) : bool :=
  String.eqb (customerId w) (id c) && String.eqb (productId w) p.

(** [wishlistItem.findFirst({ where: { customerId, productId } })] *)
Definition findItem (d : database) (c : customer) (p : string) : option wishlistItem :=
  List.find (belongsTo c p) (wishlistItems d).

Definition setItems (d : database) (items : list wishlistItem) : database :=
  {| customers := customers d; wishlistItems := items |}.

Record addBody := {
  add_userId : string;
  add_productId : string;
  (** [None] when the request has no [productData] *)
  add_productData : option json
}.

(** [newId] and [now] are the id and the [addedAt] Prisma gives the row. *)
Definition addToWishlist (newId : string) (now : Z) (b : addBody) (d : database)
  : outcome :=
  let userId := add_userId b in
  let productId := add_productId b in
  match add_productData b with
  | None =>
      reply (failure 400 "User ID, product ID, and product data are required") d
  | Some productData =>
      if negb (JS.truthy userId) || negb (JS.truthy productId)
         || negb (jsonTruthy productData)
      then reply (failure 400 "User ID, product ID, and product data are required") d
      else
        match findCustomer d userId with
        | None =>
            reply (failure 404 "Customer not found. Please ensure user is registered.") d
        | Some customer =>
            match findItem d customer productId with
            | Some existingItem =>
                reply {| status := 409;
                         body := JObj [("success", JBool false);
                                       ("error", JStr "Product already in wishlist");
                                       ("data", itemData existingItem)] |} d
            | None =>
                let wishlistItem :=
                  {| itemId := newId; customerId := id customer;
                     productId := productId; productData := productData;
                     addedAt := now |} in
                {| res := {| status := 201;
                             body := JObj [("success", JBool true);
                                           ("message", JStr "Product added to wishlist");
                                           ("data", itemData wishlistItem)] |};
                   db := setItems d (wishlistItems d ++ [wishlistItem]) |}
            end
        end
  end.

(** [productId] comes from the route, [userId] from the query string. *)
Definition removeFromWishlist (productId userId : string) (d : database) : outcome :=
  if negb (JS.truthy userId)
  then reply (failure 400 "User ID is required") d
  else
    match findCustomer d userId with
    | None => reply (failure 404 "Customer not found") d
    | Some customer =>
        let count := length (List.filter (belongsTo customer productId) (wishlistItems d)) in
        let d' := setItems d (List.filter (fun w => negb (belongsTo customer productId w))
                                          (wishlistItems d)) in
        if (count =? 0)%nat
        then reply (failure 404 "Product not found in wishlist") d'
        else reply {| status := 200;
                      body := JObj [("success", JBool true);
                                    ("message", JStr "Product removed from wishlist")] |} d'
    end.

Definition clearWishlist (userId : string) (d : database) : outcome :=
  if negb (JS.truthy userId)
  then reply (failure 400 "User ID is required") d
  else
    match findCustomer d userId with
    | None => reply (failure 404 "Customer not found") d
    | Some customer =>
        let mine w := String.eqb (customerId w) (id customer) in
        let count := length (List.filter mine (wishlistItems d)) in
        reply {| status := 200;
                 body := JObj [("success", JBool true);
                               ("message", JStr "Wishlist cleared successfully");
                               ("data", JObj [("removedCount", JNum (Z.of_nat count))])] |}
              (setItems d (List.filter (fun w => negb (mine w)) (wishlistItems d)))
    end.

(** The answer of [checkWishlistItem]; [wishlistItemId: item?.id] is left
    out of the JSON when there is no item. *)
Definition checkAnswer (item : option wishlistItem) : response :=
  {| status := 200;
     body := JObj [("success", JBool true);
                   ("data",
                    JObj (("isInWishlist", JBool (bool_decide (is_Some item)))
                          :: match item with
                             | Some w => [("wishlistItemId", JStr (itemId w))]
                             | None => []
                             end))] |}.

Definition checkWishlistItem (productId userId : string) (d : database) : outcome :=
  if negb (JS.truthy userId)
  then reply (failure 400 "User ID is required") d
  else
    match findCustomer d userId with
    | None => reply (checkAnswer None) d
    | Some customer => reply (checkAnswer (findItem d customer productId)) d
    end.

(** The wishlist of a customer holds a product at most once. *)
Definition oncePerProduct (d : database) : Prop :=
  NoDup (map (fun w => (customerId w, productId w)) (wishlistItems d)).

(** [isInWishlist] of an answer *)
Definition isInWishlist (r : response) : option json :=
  match field "data" (body r) with
  | Some data => field "isInWishlist" data
  | None => None
  end.

(** [removedCount] of an answer *)
Definition removedCount (r : response) : option json :=
  match field "data" (body r) with
  | Some data => field "removedCount" data
  | None => None
  end.

End WishlistController.

(** ** Test doubles and sample data *)

Module Fixtures.
Import MobileAuth.

(** A stand-in for bcrypt and jsonwebtoken: the "hash" is the salt, a
    colon and the password. *)
#[export] Instance plainCollaborators : Collaborators := {
  bcrypt_hash p _ s := s +:+ ":" +:+ p;
  bcrypt_compare p h :=
    match JS.split ":" h with
    | [_; p'] => String.eqb p p'
    | _ => false
    end;
  jwt_sign i _ := "jwt." +:+ i
}.

Definition entry (code : string) (expiry : Z) : otpEntry :=
  {| otp := code; expiresAt := expiry; createdAt := expiry - tenMinutes |}.

(** An unverified user holding three codes, the oldest one twice. *)
Definition alice : account :=
  {| id := "u1"; email := "alice@example.com";
     password := Some "s:secret"; name := "Alice";
     phoneNumber := "9876543210";
     isVerified := false; isActive := true; provider := "local";
     emailOTPs := Some [entry "111111" 1000; entry "222222" 5000;
                        entry "111111" 9000];
     fcmTokens := Some []; lastLogin := None;
     resetToken := None; resetTokenExpiry := None |}.

(** A verified, active user with a local password and a reset token that
    has not been used. *)
Definition bob : account :=
  {| id := "u2"; email := "bob@example.com";
     password := Some "s:hunter2"; name := "Bob";
     phoneNumber := "9123456780";
     isVerified := true; isActive := true; provider := "local";
     emailOTPs := Some [];
     fcmTokens := Some []; lastLogin := None;
     resetToken := Some "r-1"; resetTokenExpiry := Some 86400000%Z |}.

Definition sampleDb : database :=
  {| users := [alice; bob]; admins := []; customers := [] |}.

Definition sampleEnv (r : Q) (now : Z) : environment :=
  {| ADMIN_EMAIL := Some "admin@example.com";
     random := r; salt := "s";
     dateNow := now; newDate := now;
     newUserId := "u9"; newCustomerId := "c9" |}.

(** A registration under Alice's address. *)
Definition duplicateRequest : registerBody :=
  {| reg_email := "alice@example.com"; reg_password := "pw";
     reg_name := "Al"; reg_phoneNumber := "9000000000" |}.

(** The double nearest to 0.7 *)
Definition nearestToSevenTenths : Q := 6305039478318694 # 9007199254740992.

(** A registration under an address and a phone number nobody has. *)
Definition freshRequest : registerBody :=
  {| reg_email := "carol@example.com"; reg_password := "pw";
     reg_name := "Carol"; reg_phoneNumber := "+91 95555-55555" |}.

Definition sampleLoginEnv : loginEnvironment :=
  {| loginDate := 20000; deviceDate := 20000;
     userAgent := "okhttp"; signDate := 20000 |}.

(** A stand-in for Firebase: the token [ok:<phone>] is accepted and carries
    that phone number, any other token is rejected. *)
#[export] Instance plainFirebase : PasswordReset.Firebase := {
  PasswordReset.verifyIdToken tok :=
    match JS.split ":" tok with
    | ["ok"; p] => Some (Some p)
    | _ => None
    end
}.

(** A reset of Bob's password, with a token for his phone number. *)
Definition resetRequest : PasswordReset.resetBody :=
  {| PasswordReset.reset_phoneNumber := "9123456780";
     PasswordReset.reset_newPassword := "correct horse";
     PasswordReset.reset_firebaseToken := "ok:9123456780" |}.

(** Five resends, one minute apart. *)
Definition fiveResends : list environment :=
  [sampleEnv (1 # 9) 60000; sampleEnv (2 # 9) 120000; sampleEnv (1 # 3) 180000;
   sampleEnv (4 # 9) 240000; sampleEnv (5 # 9) 300000].

End Fixtures.

Module CartFixtures.
Import CartAlerts.

#[export] Instance alwaysDelivers : Notifier :=
  {| sendAbandonedCartReminder _ := true |}.

Definition now : Z := 1700000000000.

(** A cart whose last item was added exactly 60 minutes ago. *)
Definition carol : customer :=
  {| id := "c1"; userId := Some "u3"; name := "Carol";
     cartItems :=
       [ {| createdAt := now - 5 * 60 * 60 * 1000; quantity := 1;
            variantSellingPrice := 40; variantMRP := 50 |};
         {| createdAt := now - 60 * 60 * 1000; quantity := 2;
            variantSellingPrice := 90; variantMRP := 100 |} ] |}.

Definition sampleDb : database :=
  {| customers := [carol]; onlineOrders := [] |}.

End CartFixtures.

Module WishlistFixtures.
Import WishlistAlerts.

#[export] Instance alwaysDelivers : Notifier :=
  {| sendPriceDropAlert _ := true; sendBackInStockAlert _ := true |}.

Definition dave : customer := {| userId := Some "u4"; name := "Dave" |}.

Definition cached (sellingPrice stock : JS.value) : productData :=
  {| variantSellingPrice := sellingPrice; price := sellingPrice;
     variantIndex := JS.Number 0; variantStockQuantity := stock;
     productName := Some "Kettle"; variantName := Some "1.5 l" |}.

Definition wished (i : string) (pd : productData) : wishlistItem :=
  {| id := i; productId := "p1"; snapshot := Some pd; owner := Some dave |}.

(** A cached price of 100 against a live price of 80. *)
Definition catalog : list onlineProduct :=
  [ {| onlineProductId := "p1"; onlineProductName := Some "Kettle";
       variants := Some [Some {| liveSellingPrice := JS.Number 80 |}] |} ].

Definition outOfStock : wishlistItem :=
  wished "w1" (cached (JS.Number 100) (JS.Number 0)).

Definition inStock : wishlistItem :=
  wished "w2" (cached (JS.Number 100) (JS.Number 3)).

Definition neverCounted : wishlistItem :=
  wished "w3" (cached (JS.Number 100) JS.Undefined).
End WishlistFixtures.

Module WishlistControllerFixtures.
Import WishlistController.

Definition erin : customer := {| id := "c7"; userId := Some "u7" |}.

Definition kettle : wishlistItem :=
  {| itemId := "w7"; customerId := "c7"; productId := "p1";
     productData := JObj [("productName", JStr "Kettle");
                          ("wishlistItemId", JStr "client-side")];
     addedAt := 1000 |}.


Definition sampleDb : database :=
  {| customers := [erin]; wishlistItems := [kettle] |}.
End WishlistControllerFixtures.

Module ExpenseFixtures.
Import Expenses.

(** A ledger whose latest number of 2024 was typed by hand. *)
Definition brokenLedger : list expense :=
  [ {| expenseNumber := "EXP-2024-001"; createdAt := 100 |};
    {| expenseNumber := "EXP-2024-A12"; createdAt := 500 |} ].

Definition ledger : list expense :=
  [ {| expenseNumber := "EXP-2023-007"; createdAt := 100 |};
    {| expenseNumber := "EXP-2024-001"; createdAt := 500 |};
    {| expenseNumber := "EXP-2024-002"; createdAt := 900 |} ].

(** A ledger whose expense created last does not hold the greatest number
    of 2024. *)
Definition skewedLedger : list expense :=
  [ {| expenseNumber := "EXP-2024-002"; createdAt := 100 |};
    {| expenseNumber := "EXP-2024-001"; createdAt := 500 |} ].

End ExpenseFixtures.

(** * Properties *)

(** ** Ordered queries *)

Module PrismaProofs.

Section OrderBy.
Context {A : Type} (key : A -> Z).

Lemma insertDesc_head (x : A) (rows : list A) :
  head (Prisma.insertDesc key x rows)
  = match head rows with
    | Some y => Some (if (key y <=? key x)%Z then x else y)
    | None => Some x
    end.
Proof.
  destruct rows as [|y rows]; simpl; [reflexivity|].
  destruct (key y <=? key x)%Z; reflexivity.
Qed.

(** The first row of [orderByDesc] is a row with the greatest key. *)
Lemma orderByDesc_head (rows : list A) :
  rows <> [] ->
  exists x, head (Prisma.orderByDesc key rows) = Some x
            /\ x ∈ rows
            /\ forall y, y ∈ rows -> (key y <= key x)%Z.
Proof.
  induction rows as [|a rows IH]; [congruence|]. intros _.
  unfold Prisma.orderByDesc. simpl. rewrite insertDesc_head.
  destruct rows as [|b rows].
  - exists a. simpl. split; [reflexivity|]. split; [constructor|].
    intros y Hy. apply list_elem_of_singleton in Hy as ->. lia.
  - destruct IH as (m & Hm & Hin & Hmax); [congruence|].
    fold (Prisma.orderByDesc key (b :: rows)). rewrite Hm.
    destruct (key m <=? key a)%Z eqn:Hcmp.
    + exists a. split; [reflexivity|]. split; [constructor|].
      intros y Hy. apply elem_of_cons in Hy as [->|Hy]; [lia|].
      specialize (Hmax y Hy). lia.
    + exists m. split; [reflexivity|]. split; [by constructor|].
      intros y Hy. apply elem_of_cons in Hy as [->|Hy]; [lia|].
      apply Hmax, Hy.
Qed.

Lemma orderByDesc_nil (rows : list A) :
  Prisma.orderByDesc key rows = [] -> rows = [].
Proof.
  destruct rows as [|a rows]; [reflexivity|]. intros Hnil.
  destruct (orderByDesc_head (a :: rows)) as (x & Hx & _); [congruence|].
  rewrite Hnil in Hx. discriminate.
Qed.
End OrderBy.

End PrismaProofs.

(** ** Numbers and strings *)

Module JSProofs.

Lemma readDigits_digit (acc : option Z) (c : ascii) (s : string) :
  JS.isDigit c = true ->
  JS.readDigits acc (String c s)
  = JS.readDigits (Some (10 * default 0 acc + JS.digitValue c)%Z) s.
Proof. intros Hc. simpl. by rewrite Hc. Qed.

Lemma readDigits_stop (acc : option Z) (c : ascii) (s : string) :
  JS.isDigit c = false -> JS.readDigits acc (String c s) = acc.
Proof. intros Hc. simpl. by rewrite Hc. Qed.

(** Reading the digits of a decimal numeral continues the accumulator the
    way [Pos.of_uint_acc] does. *)
Lemma readDigits_uint_acc (d : Decimal.uint) (acc : positive) :
  JS.readDigits (Some (Z.pos acc)) (NilEmpty.string_of_uint d)
  = Some (Z.pos (Pos.of_uint_acc d acc)).
Proof.
  revert acc.
  induction d as [|d IH|d IH|d IH|d IH|d IH|d IH|d IH|d IH|d IH|d IH];
    intros acc; [reflexivity|..];
    cbn [NilEmpty.string_of_uint Pos.of_uint_acc];
    rewrite readDigits_digit by reflexivity;
    rewrite <- IH; do 2 f_equal;
    cbv [default from_option id]; unfold JS.digitValue;
    match goal with
    | |- context [nat_of_ascii ?c] =>
        let v := eval vm_compute in (Z.of_nat (nat_of_ascii c)) in
        change (Z.of_nat (nat_of_ascii c)) with v
    end; lia.
Qed.

Lemma readDigits_uint_zero (d : Decimal.uint) :
  JS.readDigits (Some 0%Z) (NilEmpty.string_of_uint d)
  = Some (Z.of_N (Pos.of_uint d)).
Proof.
  induction d as [|d IH|d IH|d IH|d IH|d IH|d IH|d IH|d IH|d IH|d IH];
    [reflexivity|..];
    cbn [NilEmpty.string_of_uint Pos.of_uint];
    rewrite readDigits_digit by reflexivity;
    [exact IH|..];
    apply (readDigits_uint_acc d).
Qed.

Lemma readDigits_zeros (n : nat) (s : string) :
  JS.readDigits (Some 0%Z) (JS.repeatChar n "0" +:+ s)
  = JS.readDigits (Some 0%Z) s.
Proof.
  induction n as [|n IH]; [reflexivity|].
  change (JS.repeatChar (S n) "0" +:+ s)
    with (String "0" (JS.repeatChar n "0" +:+ s)).
  rewrite readDigits_digit by reflexivity. exact IH.
Qed.

(** The decimal numeral of a positive number: not empty, digits only. *)
Lemma string_of_uint_digits (d : Decimal.uint) :
  forallb JS.isDigit (list_ascii_of_string (NilEmpty.string_of_uint d)) = true.
Proof.
  induction d; simpl; try reflexivity; exact IHd.
Qed.

Lemma toString_nonneg (z : Z) :
  (0 <= z)%Z ->
  exists d, d <> Decimal.Nil
            /\ JS.toString z = NilEmpty.string_of_uint d
            /\ Z.of_N (Pos.of_uint d) = z.
Proof.
  intros Hz. destruct z as [|p|p]; [| |lia].
  - exists (Decimal.D0 Decimal.Nil). repeat split. discriminate.
  - exists (Pos.to_uint p).
    pose proof (DecimalPos.Unsigned.to_uint_nonnil p) as Hnil.
    split; [exact Hnil|]. split.
    + unfold JS.toString. simpl.
      destruct (Pos.to_uint p); [congruence|reflexivity..].
    + by rewrite DecimalPos.Unsigned.of_to.
Qed.

Lemma toString_digits (z : Z) :
  (0 <= z)%Z ->
  forallb JS.isDigit (list_ascii_of_string (JS.toString z)) = true.
Proof.
  intros Hz. destruct (toString_nonneg z Hz) as (d & _ & -> & _).
  apply string_of_uint_digits.
Qed.

Lemma readDigits_toString (z : Z) :
  (0 <= z)%Z -> JS.readDigits (Some 0%Z) (JS.toString z) = Some z.
Proof.
  intros Hz. destruct (toString_nonneg z Hz) as (d & _ & -> & <-).
  apply readDigits_uint_zero.
Qed.

Lemma readDigits_None_digit (c : ascii) (s : string) :
  JS.isDigit c = true ->
  JS.readDigits None (String c s)
  = JS.readDigits (Some 0%Z) (String c s).
Proof. intros Hc. by rewrite !readDigits_digit. Qed.

Lemma padStart_first_digit (n : nat) (s : string) :
  forallb JS.isDigit (list_ascii_of_string s) = true ->
  s <> "" ->
  exists c rest, JS.padStart n "0" s = String c rest /\ JS.isDigit c = true.
Proof.
  intros Hd Hne. unfold JS.padStart.
  destruct (n - String.length s)%nat as [|k].
  - destruct s as [|c rest]; [congruence|]. exists c, rest.
    simpl in Hd. apply andb_true_iff in Hd as [Hc _]. auto.
  - simpl. eauto.
Qed.

(** [parseInt] reads back what [toString] and [padStart] wrote. *)
Lemma parseInt_padStart_toString (n : nat) (z : Z) :
  (0 <= z)%Z -> JS.parseInt (JS.padStart n "0" (JS.toString z)) = Some z.
Proof.
  intros Hz.
  assert (Hne : JS.toString z <> "").
  { destruct (toString_nonneg z Hz) as (d & Hd & -> & _).
    destruct d; simpl; congruence. }
  destruct (padStart_first_digit n _ (toString_digits z Hz) Hne)
    as (c & rest & Hpad & Hc).
  unfold JS.parseInt. rewrite Hpad.
  assert (Hws : JS.isWhitespace c = false).
  { revert Hc. unfold JS.isDigit, JS.isWhitespace.
    generalize (nat_of_ascii c). intros k Hk.
    apply andb_true_iff in Hk as [H1 H2].
    apply Nat.leb_le in H1, H2.
    repeat (apply orb_false_iff; split);
      [apply andb_false_iff; right; apply Nat.leb_gt; lia
      | apply Nat.eqb_neq; lia | apply Nat.eqb_neq; lia]. }
  cbn [JS.skipWhitespace]. rewrite Hws.
  assert (Hminus : Ascii.eqb c "-" = false).
  { apply Ascii.eqb_neq. intros ->. discriminate. }
  assert (Hplus : Ascii.eqb c "+" = false).
  { apply Ascii.eqb_neq. intros ->. discriminate. }
  rewrite Hminus, Hplus, readDigits_None_digit by exact Hc.
  rewrite <- Hpad. unfold JS.padStart.
  rewrite readDigits_zeros. by apply readDigits_toString.
Qed.

Lemma digit_not_hyphen (c : ascii) : JS.isDigit c = true -> Ascii.eqb c "-" = false.
Proof. intros Hc. apply Ascii.eqb_neq. intros ->. discriminate. Qed.

(** A string without the separator is one part. *)
Lemma split_whole (sep : ascii) (s : string) :
  forallb (fun c => negb (Ascii.eqb c sep)) (list_ascii_of_string s) = true ->
  JS.split sep s = [s].
Proof.
  induction s as [|c s IH]; [reflexivity|]. simpl.
  intros Hall. apply andb_true_iff in Hall as [Hc Hs].
  apply negb_true_iff in Hc. rewrite Hc, (IH Hs). reflexivity.
Qed.

(** A string without the separator, followed by the separator, is the first
    part. *)
Lemma split_first (sep : ascii) (a rest : string) :
  forallb (fun c => negb (Ascii.eqb c sep)) (list_ascii_of_string a) = true ->
  JS.split sep (a +:+ String sep rest) = a :: JS.split sep rest.
Proof.
  induction a as [|c a IH]; simpl.
  - intros _. by rewrite Ascii.eqb_refl.
  - intros Hall. apply andb_true_iff in Hall as [Hc Ha].
    apply negb_true_iff in Hc. rewrite Hc, (IH Ha). reflexivity.
Qed.

Lemma digits_no_hyphen (s : string) :
  forallb JS.isDigit (list_ascii_of_string s) = true ->
  forallb (fun c => negb (Ascii.eqb c "-")) (list_ascii_of_string s) = true.
Proof.
  induction s as [|c s IH]; [reflexivity|]. simpl.
  intros Hall. apply andb_true_iff in Hall as [Hc Hs].
  by rewrite (digit_not_hyphen c Hc), (IH Hs).
Qed.

(** No part of a split contains the separator. *)
Lemma split_parts (sep : ascii) (s part : string) :
  part ∈ JS.split sep s ->
  forallb (fun c => negb (Ascii.eqb c sep)) (list_ascii_of_string part) = true.
Proof.
  revert part. induction s as [|c s IH]; intros part; simpl.
  - intros Hin. apply list_elem_of_singleton in Hin as ->. reflexivity.
  - destruct (Ascii.eqb c sep) eqn:Hc.
    + intros Hin. apply elem_of_cons in Hin as [->|Hin]; [reflexivity|by apply IH].
    + destruct (JS.split sep s) as [|p ps] eqn:Hs.
      * intros Hin. apply list_elem_of_singleton in Hin as ->.
        simpl. by rewrite Hc.
      * intros Hin. apply elem_of_cons in Hin as [->|Hin].
        -- simpl. rewrite Hc. simpl. apply IH. constructor.
        -- apply IH. by constructor.
Qed.

Lemma readDigits_nonneg (acc : option Z) (s : string) (n : Z) :
  (0 <= default 0 acc)%Z -> JS.readDigits acc s = Some n -> (0 <= n)%Z.
Proof.
  revert acc. induction s as [|c s IH]; intros acc Hacc; simpl.
  - intros ->. exact Hacc.
  - destruct (JS.isDigit c) eqn:Hc.
    + apply IH. simpl. unfold JS.digitValue.
      unfold JS.isDigit in Hc. apply andb_true_iff in Hc as [Hlo _].
      apply Nat.leb_le in Hlo. lia.
    + intros ->. exact Hacc.
Qed.

Lemma skipWhitespace_chars (p : ascii -> bool) (s : string) :
  forallb p (list_ascii_of_string s) = true ->
  forallb p (list_ascii_of_string (JS.skipWhitespace s)) = true.
Proof.
  induction s as [|c s IH]; [reflexivity|]. simpl.
  intros Hall. destruct (JS.isWhitespace c); [|exact Hall].
  apply andb_true_iff in Hall as [_ Hs]. by apply IH.
Qed.

(** A string without a hyphen is never read as a negative number. *)
Lemma parseInt_nonneg (s : string) (n : Z) :
  forallb (fun c => negb (Ascii.eqb c "-")) (list_ascii_of_string s) = true ->
  JS.parseInt s = Some n -> (0 <= n)%Z.
Proof.
  intros Hall. apply (skipWhitespace_chars _ s) in Hall.
  unfold JS.parseInt. destruct (JS.skipWhitespace s) as [|c rest]; [discriminate|].
  simpl in Hall. apply andb_true_iff in Hall as [Hc _].
  apply negb_true_iff in Hc. rewrite Hc.
  destruct (Ascii.eqb c "+"); apply readDigits_nonneg; simpl; lia.
Qed.

Lemma prefix_cons (c1 c2 : ascii) (s1 s2 : string) :
  String.prefix (String c1 s1) (String c2 s2)
  = Ascii.eqb c1 c2 && String.prefix s1 s2.
Proof.
  cbn [String.prefix]. destruct (ascii_dec c1 c2) as [->|Hne].
  - by rewrite Ascii.eqb_refl.
  - by rewrite (proj2 (Ascii.eqb_neq _ _) Hne).
Qed.

Lemma prefix_append (p t : string) : String.prefix p (p +:+ t) = true.
Proof.
  induction p as [|c p IH]; [by destruct t|].
  change (String c p +:+ t) with (String c (p +:+ t)).
  by rewrite prefix_cons, Ascii.eqb_refl.
Qed.

Lemma prefix_split (p s : string) :
  String.prefix p s = true -> exists t, s = p +:+ t.
Proof.
  revert s. induction p as [|c p IH]; intros s.
  - intros _. by exists s.
  - destruct s as [|c' s]; [discriminate|].
    rewrite prefix_cons. intros Hp. apply andb_true_iff in Hp as [Hc Hp].
    apply Ascii.eqb_eq in Hc as ->.
    destruct (IH s Hp) as [t ->]. by exists t.
Qed.

(** Two runs of digits, each closed by a hyphen: if one starts the other,
    they are the same run. *)
Lemma digits_prefix_eq (a b t : string) :
  forallb JS.isDigit (list_ascii_of_string a) = true ->
  forallb JS.isDigit (list_ascii_of_string b) = true ->
  String.prefix (a +:+ "-") (b +:+ String "-" t) = true ->
  a = b.
Proof.
  revert b. induction a as [|c a IH]; intros b Ha Hb.
  - destruct b as [|c' b]; [reflexivity|].
    change ("" +:+ "-") with "-".
    change (String c' b +:+ String "-" t) with (String c' (b +:+ String "-" t)).
    rewrite prefix_cons.
    simpl in Hb. apply andb_true_iff in Hb as [Hc' _].
    rewrite Ascii.eqb_sym, (digit_not_hyphen c' Hc'). discriminate.
  - simpl in Ha. apply andb_true_iff in Ha as [Hc Ha].
    change (String c a +:+ "-") with (String c (a +:+ "-")).
    destruct b as [|c' b].
    + change ("" +:+ String "-" t) with (String "-" t).
      rewrite prefix_cons, (digit_not_hyphen c Hc). discriminate.
    + change (String c' b +:+ String "-" t) with (String c' (b +:+ String "-" t)).
      rewrite prefix_cons.
      simpl in Hb. apply andb_true_iff in Hb as [_ Hb].
      intros Hp. apply andb_true_iff in Hp as [Hcc Hp].
      apply Ascii.eqb_eq in Hcc as ->. f_equal. by apply IH.
Qed.

Lemma toString_inj (x y : Z) :
  (0 <= x)%Z -> (0 <= y)%Z -> JS.toString x = JS.toString y -> x = y.
Proof.
  intros Hx Hy Heq.
  pose proof (readDigits_toString x Hx) as Rx.
  pose proof (readDigits_toString y Hy) as Ry.
  rewrite Heq in Rx. congruence.
Qed.

Lemma padStart_length (n : nat) (c : ascii) (s : string) :
  (n <= String.length (JS.padStart n c s))%nat.
Proof.
  unfold JS.padStart.
  assert (Hlen : forall a b, String.length (a +:+ b)
                             = (String.length a + String.length b)%nat).
  { induction a as [|x a IH]; intros b; simpl; [reflexivity|by rewrite IH]. }
  assert (Hrep : forall k, String.length (JS.repeatChar k c) = k).
  { induction k as [|k IH]; simpl; [reflexivity|by rewrite IH]. }
  rewrite Hlen, Hrep. lia.
Qed.

End JSProofs.

(** ** Doubles *)

Module DoubleProofs.

Lemma two_pos (z : Z) : (0 < 2 ^ z)%Q.
Proof. by apply Qpower_0_lt. Qed.

Lemma two_plus (n m : Z) : (2 ^ (n + m) == 2 ^ n * 2 ^ m)%Q.
Proof. by apply Qpower_plus. Qed.

Lemma two_le (n m : Z) : (n <= m)%Z -> (2 ^ n <= 2 ^ m)%Q.
Proof. intros Hnm. by apply Qpower_le_compat_l. Qed.

Lemma two_lt_inv (n m : Z) : (2 ^ n < 2 ^ m)%Q -> (n < m)%Z.
Proof. intros Hlt. by apply (Qpower_lt_compat_l_inv 2). Qed.

Lemma two_inject (n : Z) : (0 <= n)%Z -> (2 ^ n == inject_Z (2 ^ n))%Q.
Proof. intros Hn. by rewrite Zpower_Qpower. Qed.

(** [JS.binade] finds the power of two below a positive number. *)
Lemma binade_spec (a : Q) :
  (0 < a)%Q -> (2 ^ JS.binade a <= a)%Q /\ (a < 2 ^ (JS.binade a + 1))%Q.
Proof.
  intros Ha. unfold JS.binade.
  destruct a as [n d]. unfold Qlt in Ha. simpl in Ha.
  assert (Hn : (0 < n)%Z) by lia.
  cbn [Qnum Qden]. rewrite Z.abs_eq by lia.
  rewrite (Qabs_pos (n # d)) by (unfold Qle; simpl; lia).
  set (ln := Z.log2 n). set (ld := Z.log2 (Z.pos d)).
  destruct (Z.log2_spec n Hn) as [Hn1 Hn2]. fold ln in Hn1, Hn2.
  destruct (Z.log2_spec (Z.pos d) ltac:(lia)) as [Hd1 Hd2]. fold ld in Hd1, Hd2.
  assert (Hln : (0 <= ln)%Z) by apply Z.log2_nonneg.
  assert (Hld : (0 <= ld)%Z) by apply Z.log2_nonneg.
  assert (Hnd : (n # d == inject_Z n / inject_Z (Z.pos d))%Q)
    by (rewrite Qmake_Qdiv; reflexivity).
  assert (Hlow : (2 ^ (ln - ld - 1) <= n # d)%Q).
  { replace (ln - ld - 1)%Z with (ln - (ld + 1))%Z by lia.
    rewrite Qpower_minus by discriminate.
    rewrite !two_inject by lia.
    unfold Qdiv, Qle, Qinv. 
    destruct (inject_Z (2 ^ (ld + 1))) as [x y] eqn:Hx.
    unfold inject_Z in Hx. injection Hx as <- <-.
    destruct (2 ^ (ld + 1))%Z as [|pw|pw] eqn:Hpw; [lia| |lia].
    simpl. nia. }
  assert (Hhigh : (n # d < 2 ^ (ln - ld + 1))%Q).
  { replace (ln - ld + 1)%Z with (ln + 1 - ld)%Z by lia.
    rewrite Qpower_minus by discriminate.
    rewrite !two_inject by lia.
    unfold Qdiv, Qlt, Qinv.
    destruct (2 ^ ld)%Z as [|pw|pw] eqn:Hpw; [lia| |lia].
    simpl. nia. }
  destruct (Qle_bool (2 ^ (ln - ld)) (n # d)) eqn:Hcmp.
  - apply Qle_bool_iff in Hcmp. by split.
  - assert (Hlt : (n # d < 2 ^ (ln - ld))%Q).
    { apply Qnot_le_lt. intros Hle. apply Qle_bool_iff in Hle. congruence. }
    split; [exact Hlow|].
    by replace (ln - ld - 1 + 1)%Z with (ln - ld)%Z by lia.
Qed.

Lemma binade_unique (a : Q) (e : Z) :
  (2 ^ e <= a)%Q -> (a < 2 ^ (e + 1))%Q -> JS.binade a = e.
Proof.
  intros Hlo Hhi.
  assert (Ha : (0 < a)%Q) by (eapply Qlt_le_trans; [apply (two_pos e)|exact Hlo]).
  destruct (binade_spec a Ha) as [Hlo' Hhi'].
  assert (e < JS.binade a + 1)%Z
    by (apply two_lt_inv; eapply Qle_lt_trans; eauto).
  assert (JS.binade a < e + 1)%Z
    by (apply two_lt_inv; eapply Qle_lt_trans; eauto).
  lia.
Qed.

Lemma binade_mono (a b : Q) :
  (0 < a)%Q -> (a <= b)%Q -> (JS.binade a <= JS.binade b)%Z.
Proof.
  intros Ha Hab.
  assert (Hb : (0 < b)%Q) by (eapply Qlt_le_trans; eauto).
  destruct (binade_spec a Ha) as [Hlo _].
  destruct (binade_spec b Hb) as [_ Hhi].
  assert (JS.binade a < JS.binade b + 1)%Z; [|lia].
  apply two_lt_inv. eapply Qle_lt_trans; [exact Hlo|].
  eapply Qle_lt_trans; eauto.
Qed.

Lemma roundHalfEven_bounds (x : Q) :
  (Qfloor x <= JS.roundHalfEven x <= Qfloor x + 1)%Z.
Proof.
  unfold JS.roundHalfEven.
  destruct (_ ?= _)%Q; [destruct (Z.even _)|..]; lia.
Qed.

Lemma roundHalfEven_int (z : Z) : JS.roundHalfEven (inject_Z z) = z.
Proof.
  unfold JS.roundHalfEven. rewrite Qfloor_Z.
  assert (Hz : (inject_Z z - inject_Z z == 0)%Q) by ring.
  rewrite Hz. reflexivity.
Qed.

Lemma roundHalfEven_mono (x y : Q) :
  (x <= y)%Q -> (JS.roundHalfEven x <= JS.roundHalfEven y)%Z.
Proof.
  intros Hxy.
  pose proof (Qfloor_resp_le x y Hxy) as Hf.
  pose proof (roundHalfEven_bounds x). pose proof (roundHalfEven_bounds y).
  destruct (Z.eq_dec (Qfloor x) (Qfloor y)) as [Heq|Hne]; [|lia].
  unfold JS.roundHalfEven in *. rewrite <- Heq in *.
  assert (Hfrac : (x - inject_Z (Qfloor x) <= y - inject_Z (Qfloor x))%Q).
  { apply Qplus_le_l with (z := inject_Z (Qfloor x)). by ring_simplify. }
  destruct (x - inject_Z (Qfloor x) ?= 1 # 2)%Q eqn:Hx;
    destruct (y - inject_Z (Qfloor x) ?= 1 # 2)%Q eqn:Hy;
    try (destruct (Z.even (Qfloor x)); lia); try lia.
  - apply Qeq_alt in Hx. apply Qlt_alt in Hy. exfalso.
    rewrite Hx in Hfrac. by apply (Qlt_not_le _ _ Hy).
  - apply Qgt_alt in Hx. apply Qeq_alt in Hy. exfalso.
    rewrite Hy in Hfrac. by apply (Qlt_not_le _ _ Hx).
  - apply Qgt_alt in Hx. apply Qlt_alt in Hy. exfalso.
    apply (Qlt_not_le _ _ Hx). eapply Qle_trans; [exact Hfrac|].
    by apply Qlt_le_weak.
Qed.

Lemma roundHalfEven_ge (x : Q) (z : Z) :
  (inject_Z z <= x)%Q -> (z <= JS.roundHalfEven x)%Z.
Proof.
  intros Hx. rewrite <- (roundHalfEven_int z). by apply roundHalfEven_mono.
Qed.

Lemma roundHalfEven_le (x : Q) (z : Z) :
  (x <= inject_Z z)%Q -> (JS.roundHalfEven x <= z)%Z.
Proof.
  intros Hx. rewrite <- (roundHalfEven_int z). by apply roundHalfEven_mono.
Qed.

Lemma roundDouble_pos (a : Q) :
  (0 < a)%Q ->
  JS.roundDouble a
  = (inject_Z (JS.roundHalfEven (a / 2 ^ (Z.max (JS.binade a) (-1022) - 52)))
     * 2 ^ (Z.max (JS.binade a) (-1022) - 52))%Q.
Proof.
  intros Ha. unfold JS.roundDouble.
  destruct (Qeq_bool a 0) eqn:Hz; [|reflexivity].
  apply Qeq_bool_iff in Hz. rewrite Hz in Ha. by apply Qlt_irrefl in Ha.
Qed.

Lemma div_two_le (a b : Q) (p : Z) :
  (a <= b)%Q -> (a / 2 ^ p <= b / 2 ^ p)%Q.
Proof.
  intros Hab. unfold Qdiv. apply Qmult_le_compat_r; [exact Hab|].
  apply Qlt_le_weak, Qinv_lt_0_compat, two_pos.
Qed.

Lemma two_div (n m : Z) : (2 ^ n / 2 ^ m == 2 ^ (n - m))%Q.
Proof. by rewrite Qpower_minus. Qed.

(** Rounding keeps the order of positive numbers. *)
Lemma roundDouble_mono_pos (a b : Q) :
  (0 < a)%Q -> (a <= b)%Q -> (JS.roundDouble a <= JS.roundDouble b)%Q.
Proof.
  intros Ha Hab.
  assert (Hb : (0 < b)%Q) by (eapply Qlt_le_trans; eauto).
  rewrite (roundDouble_pos a Ha), (roundDouble_pos b Hb).
  pose proof (binade_mono a b Ha Hab) as He.
  destruct (binade_spec a Ha) as [_ Hahi].
  destruct (binade_spec b Hb) as [Hblo _].
  set (ea := Z.max (JS.binade a) (-1022)). set (eb := Z.max (JS.binade b) (-1022)).
  destruct (Z.eq_dec ea eb) as [Heq|Hne].
  - rewrite <- Heq. apply Qmult_le_compat_r; [|apply Qlt_le_weak, two_pos].
    rewrite <- Zle_Qle. apply roundHalfEven_mono. by apply div_two_le.
  - assert (Hlt : (ea < eb)%Z) by lia.
    assert (Hbn : eb = JS.binade b) by lia.
    apply Qle_trans with (y := (2 ^ eb)%Q).
    + apply Qle_trans with (y := (inject_Z (2 ^ 53) * 2 ^ (ea - 52))%Q).
      * apply Qmult_le_compat_r; [|apply Qlt_le_weak, two_pos].
        rewrite <- Zle_Qle. apply roundHalfEven_le.
        rewrite <- two_inject by lia.
        assert (H53 : (2 ^ 53 == 2 ^ (ea + 1) / 2 ^ (ea - 52))%Q).
        { rewrite two_div. by replace (ea + 1 - (ea - 52))%Z with 53%Z by lia. }
        rewrite H53. apply div_two_le.
        apply Qlt_le_weak. eapply Qlt_le_trans; [exact Hahi|].
        apply two_le. lia.
      * rewrite <- two_inject by lia. rewrite <- two_plus.
        apply two_le. lia.
    + apply Qle_trans with (y := (inject_Z (2 ^ 52) * 2 ^ (eb - 52))%Q).
      * rewrite <- two_inject by lia. rewrite <- two_plus.
        apply two_le. lia.
      * apply Qmult_le_compat_r; [|apply Qlt_le_weak, two_pos].
        rewrite <- Zle_Qle. apply roundHalfEven_ge.
        rewrite <- two_inject by lia.
        assert (H52 : (2 ^ 52 == 2 ^ eb / 2 ^ (eb - 52))%Q).
        { rewrite two_div. by replace (eb - (eb - 52))%Z with 52%Z by lia. }
        rewrite H52. apply div_two_le. by rewrite Hbn.
Qed.

Lemma roundDouble_zero (a : Q) : (a == 0)%Q -> JS.roundDouble a = 0%Q.
Proof.
  intros Ha. unfold JS.roundDouble.
  by rewrite (proj2 (Qeq_bool_iff a 0) Ha).
Qed.

Lemma roundDouble_nonneg (a : Q) : (0 <= a)%Q -> (0 <= JS.roundDouble a)%Q.
Proof.
  intros Ha. destruct (Qeq_dec a 0) as [Hz|Hnz].
  - by rewrite roundDouble_zero.
  - assert (Hpos : (0 < a)%Q).
    { apply Qnot_le_lt. intros Hle. apply Hnz. by apply Qle_antisym. }
    rewrite (roundDouble_pos a Hpos).
    apply Qmult_le_0_compat; [|apply Qlt_le_weak, two_pos].
    change 0%Q with (inject_Z 0). rewrite <- Zle_Qle.
    apply roundHalfEven_ge. simpl.
    apply Qle_shift_div_l; [apply two_pos|]. by rewrite Qmult_0_l.
Qed.

(** Rounding keeps the order of numbers that are not negative. *)
Lemma roundDouble_mono (a b : Q) :
  (0 <= a)%Q -> (a <= b)%Q -> (JS.roundDouble a <= JS.roundDouble b)%Q.
Proof.
  intros Ha Hab. destruct (Qeq_dec a 0) as [Hz|Hnz].
  - rewrite (roundDouble_zero a Hz). apply roundDouble_nonneg.
    by rewrite <- Hz.
  - apply roundDouble_mono_pos; [|exact Hab].
    apply Qnot_le_lt. intros Hle. apply Hnz. by apply Qle_antisym.
Qed.

(** A double below 1 is at most [1 - 2^-53]. *)
Lemma isDouble_below_one (r : Q) :
  JS.isDouble r -> (0 <= r)%Q -> (r < 1)%Q ->
  (r <= 1 - (1 # 9007199254740992))%Q.
Proof.
  intros Hd Hr0 Hr1.
  destruct (Qlt_le_dec r (1 # 2)) as [Hsmall|Hbig].
  { apply Qlt_le_weak. eapply Qlt_le_trans; [exact Hsmall|]. discriminate. }
  assert (Hpos : (0 < r)%Q) by (eapply Qlt_le_trans; [|exact Hbig]; reflexivity).
  assert (Hbin : JS.binade r = (-1)%Z) by (apply binade_unique; assumption).
  unfold JS.isDouble in Hd. rewrite (roundDouble_pos r Hpos), Hbin in Hd.
  change (Z.max (-1) (-1022) - 52)%Z with (-53)%Z in Hd.
  set (m := JS.roundHalfEven (r / 2 ^ (-53))) in *.
  assert (Hpow : (2 ^ (-53) == 1 # 9007199254740992)%Q) by reflexivity.
  rewrite Hpow in Hd.
  assert (Hm : (inject_Z m == r * inject_Z 9007199254740992)%Q).
  { rewrite <- Hd. unfold Qeq. simpl. lia. }
  assert (Hlt : (m < 9007199254740992)%Z).
  { rewrite Zlt_Qlt, Hm.
    assert (Hone : (inject_Z 9007199254740992
                    == 1 * inject_Z 9007199254740992)%Q) by ring.
    rewrite Hone at 2. by apply Qmult_lt_compat_r. }
  assert (Hle : (r * inject_Z 9007199254740992
                 <= inject_Z 9007199254740991)%Q).
  { rewrite <- Hm, <- Zle_Qle. lia. }
  apply Qle_shift_div_l in Hle; [|reflexivity].
  eapply Qle_trans; [exact Hle|]. discriminate.
Qed.

Lemma roundHalfEven_comp (x y : Q) :
  (x == y)%Q -> JS.roundHalfEven x = JS.roundHalfEven y.
Proof.
  intros Hxy. unfold JS.roundHalfEven.
  rewrite (Qfloor_comp _ _ Hxy).
  assert (Hd : (x - inject_Z (Qfloor y) == y - inject_Z (Qfloor y))%Q)
    by (rewrite Hxy; reflexivity).
  by rewrite (Qcompare_comp _ _ Hd _ _ (Qeq_refl _)).
Qed.

Lemma roundDouble_comp (a b : Q) :
  (0 <= a)%Q -> (a == b)%Q -> (JS.roundDouble a == JS.roundDouble b)%Q.
Proof.
  intros Ha Hab.
  assert (Hle : (a <= b)%Q) by (apply Qle_lteq; right; exact Hab).
  assert (Hge : (b <= a)%Q) by (apply Qle_lteq; right; symmetry; exact Hab).
  apply Qle_antisym; apply roundDouble_mono; try assumption.
  eapply Qle_trans; eassumption.
Qed.

(** A whole number below 2^53 is a double. *)
Lemma roundDouble_int (z : Z) :
  (0 <= z < 2 ^ 53)%Z -> (JS.roundDouble (inject_Z z) == inject_Z z)%Q.
Proof.
  intros [Hlo Hhi].
  destruct (Z.eq_dec z 0%Z) as [->|Hz]; [reflexivity|].
  assert (Hpos : (0 < inject_Z z)%Q).
  { change 0%Q with (inject_Z 0). rewrite <- Zlt_Qlt. lia. }
  rewrite (roundDouble_pos _ Hpos).
  destruct (binade_spec _ Hpos) as [Hb1 Hb2].
  set (e := JS.binade (inject_Z z)) in *.
  assert (He : (0 <= e <= 52)%Z).
  { split.
    - assert (H1 : (2 ^ 0 < 2 ^ (e + 1))%Q).
      { eapply Qle_lt_trans; [|exact Hb2].
        change (2 ^ 0)%Q with (inject_Z 1). rewrite <- Zle_Qle. lia. }
      apply two_lt_inv in H1. lia.
    - assert (H1 : (2 ^ e < 2 ^ 53)%Q).
      { eapply Qle_lt_trans; [exact Hb1|].
        rewrite (two_inject 53) by lia. rewrite <- Zlt_Qlt. exact Hhi. }
      apply two_lt_inv in H1. lia. }
  replace (Z.max e (-1022)) with e by lia.
  set (k := (52 - e)%Z).
  assert (Hk : (0 <= k)%Z) by (unfold k; lia).
  assert (Hp : (2 ^ (e - 52) == / inject_Z (2 ^ k))%Q).
  { replace (e - 52)%Z with (- k)%Z by (unfold k; lia).
    rewrite Qpower_opp. by rewrite (two_inject k Hk). }
  assert (Hnz : ~ (inject_Z (2 ^ k) == 0)%Q).
  { intros H0. pose proof (two_pos k) as Hk0.
    rewrite (two_inject k Hk), H0 in Hk0. by apply Qlt_irrefl in Hk0. }
  assert (Hq : (inject_Z z / 2 ^ (e - 52) == inject_Z (z * 2 ^ k))%Q).
  { rewrite Hp, inject_Z_mult. by field. }
  rewrite (roundHalfEven_comp _ _ Hq), roundHalfEven_int.
  rewrite Hp, inject_Z_mult. by field.
Qed.

(** Adding one to a whole number is exact as long as the sum stays below
    2^53. *)
Lemma fadd_one (n : Z) :
  (0 <= n)%Z -> (n + 1 < 2 ^ 53)%Z ->
  (JS.fadd (inject_Z n) 1 == inject_Z (n + 1))%Q.
Proof.
  intros Hn Hlt. unfold JS.fadd.
  assert (Hsum : (inject_Z n + 1 == inject_Z (n + 1))%Q)
    by (rewrite inject_Z_plus; reflexivity).
  assert (H0 : (0 <= inject_Z n + 1)%Q).
  { eapply Qle_trans; [|apply Qle_lteq; right; symmetry; exact Hsum].
    change 0%Q with (inject_Z 0). rewrite <- Zle_Qle. lia. }
  rewrite (roundDouble_comp _ _ H0 Hsum). apply roundDouble_int. lia.
Qed.

End DoubleProofs.

(** ** The mobile authentication controller *)

Module MobileAuthProofs.
Import MobileAuth.

(** Scanning the indices below [n] downwards is a search through the
    first [n] entries, last one first. *)
Lemma scan_take (l : list otpEntry) (code : string) (now : Z) (n : nat) :
  (n <= length l)%nat ->
  scan l code now n = List.find (accepts code now) (rev (take n l)).
Proof.
  induction n as [|i IH]; intros Hn.
  - reflexivity.
  - destruct (lookup_lt_is_Some_2 l i) as [x Hx]; [lia|].
    rewrite (take_S_r l i x Hx), rev_app_distr. simpl.
    rewrite Hx. destruct (accepts code now x); [reflexivity|].
    apply IH. lia.
Qed.

Lemma scan_newest_first (l : list otpEntry) (code : string) (now : Z) :
  scan l code now (length l) = List.find (accepts code now) (rev l).
Proof.
  rewrite scan_take by lia. rewrite firstn_all. reflexivity.
Qed.

Lemma find_none_iff {A} (p : A -> bool) (l : list A) :
  List.find p l = None <-> (forall x, x ∈ l -> p x = false).
Proof.
  split.
  - intros Hf x Hx. apply (find_none p l Hf). apply list_elem_of_In, Hx.
  - induction l as [|a l IH]; intros Hall; [reflexivity|].
    simpl. rewrite (Hall a) by constructor.
    apply IH. intros x Hx. apply Hall. by constructor.
Qed.

Lemma elem_of_rev {A} (x : A) (l : list A) : x ∈ rev l <-> x ∈ l.
Proof. rewrite !list_elem_of_In. symmetry. apply in_rev. Qed.

Lemma find_app_skip {A} (p : A -> bool) (l1 l2 : list A) :
  (forall x, x ∈ l1 -> p x = false) ->
  List.find p (l1 ++ l2) = List.find p l2.
Proof.
  induction l1 as [|a l1 IH]; intros Hskip; [reflexivity|].
  simpl. rewrite (Hskip a) by constructor.
  apply IH. intros x Hx. apply Hskip. by constructor.
Qed.

Lemma find_is_some {A} (p : A -> bool) (l : list A) (x : A) :
  x ∈ l -> p x = true -> exists y, List.find p l = Some y.
Proof.
  intros Hx Hp. destruct (List.find p l) as [y|] eqn:Hf; [by exists y|].
  rewrite find_none_iff in Hf. rewrite (Hf x Hx) in Hp. discriminate.
Qed.

(** Updating the row that a search by address returned: the same search
    then returns the updated row, as long as the update keeps the address. *)
Lemma find_update (rows : list account) (e : string) (u : account)
    (data : account -> account) :
  (forall a, email (data a) = email a) ->
  findUniqueByEmail rows e = Some u ->
  findUniqueByEmail (update rows (id u) data) e = Some (data u).
Proof.
  intros Hkeep. unfold findUniqueByEmail, update.
  induction rows as [|a rows IH]; simpl; [discriminate|].
  destruct (String.eqb (email a) e) eqn:Ha.
  - intros [= ->]. rewrite String.eqb_refl, Hkeep, Ha. reflexivity.
  - intros Hfind. destruct (String.eqb (id a) (id u)).
    + rewrite Hkeep, Ha. apply IH, Hfind.
    + rewrite Ha. apply IH, Hfind.
Qed.

Lemma findInBoth_update (d : database) (e : string) (u : account)
    (t : userType) (data : account -> account) :
  (forall a, email (data a) = email a) ->
  findInBothByEmail d e = Some (u, t) ->
  findInBothByEmail (updateAccount d t (id u) data) e = Some (data u, t).
Proof.
  intros Hkeep. unfold findInBothByEmail.
  destruct (findUniqueByEmail (users d) e) as [a|] eqn:Hu.
  - intros [= -> <-]. simpl. rewrite (find_update _ _ _ _ Hkeep Hu). reflexivity.
  - destruct (findUniqueByEmail (admins d) e) as [a|] eqn:Ha; [|discriminate].
    intros [= -> <-]. simpl. rewrite Hu, (find_update _ _ _ _ Hkeep Ha).
    reflexivity.
Qed.

Lemma findInBoth_setCustomers (d : database) (cs : list customer) (e : string) :
  findInBothByEmail (setCustomers d cs) e = findInBothByEmail d e.
Proof. reflexivity. Qed.


Section WithCollaborators.
Context `{Collaborators}.

(** What [verifyOTP] answers once the request has both fields and the
    address belongs to an unverified account holding [l]. *)
Lemma verifyOTP_unverified (now : Z) (b : verifyBody) (d : database)
    (u : account) (t : userType) (l : list otpEntry) :
  JS.truthy (ver_email b) = true ->
  JS.truthy (ver_otp b) = true ->
  findInBothByEmail d (ver_email b) = Some (u, t) ->
  isVerified u = false ->
  emailOTPs u = Some l ->
  l <> [] ->
  verifyOTP now b d =
    match List.find (accepts (ver_otp b) now) (rev l) with
    | Some _ =>
        {| res := verifiedResponse (markVerified u) t;
           db := match t with
                 | Admin => updateAccount d t (id u) markVerified
                 | User =>
                     setCustomers (updateAccount d t (id u) markVerified)
                       (verifyCustomers (id u) (customers d))
                 end;
           deferred := match t with
                       | User => [WelcomeNotification (id u) (name u)]
                       | Admin => []
                       end |}
    | None =>
        match List.find (fun entry => String.eqb (otp entry) (ver_otp b)) l with
        | Some _ => reply expiredOTP d
        | None => reply invalidOTP d
        end
    end.
Proof.
  intros He Ho Hfind Hv Hl Hne. unfold verifyOTP.
  rewrite He, Ho, Hfind, Hv, Hl. simpl.
  destruct l as [|x l']; [congruence|].
  change (length (x :: l') =? 0)%nat with false. cbv iota.
  rewrite scan_newest_first.
  destruct (List.find (accepts (ver_otp b) now) (rev (x :: l'))); [|reflexivity].
  destruct t; reflexivity.
Qed.


(** C2. A [verifyOTP] call that succeeds with a correct, unexpired code
    sets the account's verified flag and clears its OTP list; every later
    [verifyOTP] call for that account, with the same code or another one,
    gets the idempotent answer with [alreadyVerified: true]. *)
Theorem verifyOTP_success_verifies_clears_and_is_idempotent
    (now : Z) (b : verifyBody) (d : database)
    (u : account) (t : userType) (l : list otpEntry) (e : otpEntry) :
  JS.truthy (ver_email b) = true ->
  JS.truthy (ver_otp b) = true ->
  findInBothByEmail d (ver_email b) = Some (u, t) ->
  isVerified u = false ->
  emailOTPs u = Some l ->
  e ∈ l -> otp e = ver_otp b -> (now < expiresAt e)%Z ->
  res (verifyOTP now b d) = verifiedResponse (markVerified u) t
  /\ (exists u',
        findInBothByEmail (db (verifyOTP now b d)) (ver_email b) = Some (u', t)
        /\ id u' = id u
        /\ isVerified u' = true
        /\ emailOTPs u' = Some [])
  /\ (forall now' code,
        JS.truthy code = true ->
        verifyOTP now' {| ver_email := ver_email b; ver_otp := code |}
                  (db (verifyOTP now b d))
        = reply alreadyVerifiedResponse (db (verifyOTP now b d)))
  /\ field "alreadyVerified" (body alreadyVerifiedResponse) = Some (JBool true)
  /\ field "success" (body alreadyVerifiedResponse) = Some (JBool true).
Proof.
  intros He Ho Hfind Hv Hl Hin Hcode Hexp.
  assert (Hne : l <> []) by (intros ->; inversion Hin).
  pose proof (verifyOTP_unverified now b d u t l He Ho Hfind Hv Hl Hne) as Hrun.
  destruct (find_is_some (accepts (ver_otp b) now) (rev l) e) as [y Hy].
  { apply (proj2 (elem_of_rev _ _)), Hin. }
  { unfold accepts. rewrite Hcode, String.eqb_refl. simpl. lia. }
  rewrite Hy in Hrun.
  assert (Hafter : findInBothByEmail (db (verifyOTP now b d)) (ver_email b)
                   = Some (markVerified u, t)).
  { rewrite Hrun. simpl.
    pose proof (findInBoth_update d (ver_email b) u t markVerified
                  (fun _ => eq_refl) Hfind) as Hupd.
    destruct t; [rewrite findInBoth_setCustomers|]; exact Hupd. }
  split; [by rewrite Hrun|].
  split; [exists (markVerified u); by rewrite Hafter|].
  split; [|split; reflexivity].
  intros now' code Hc. unfold verifyOTP at 1. simpl.
  rewrite He, Hc, Hafter. reflexivity.
Qed.

(** *** resendOTP *)

Lemma sliceLast_length {A} (n : nat) (a : list A) :
  (length (JS.sliceLast n a) <= n)%nat.
Proof. unfold JS.sliceLast. rewrite length_drop. lia. Qed.

Lemma updatedOTPs_length (env : environment) (l : list otpEntry) :
  (length (updatedOTPs env l) <= 5)%nat.
Proof.
  unfold updatedOTPs. rewrite length_app. simpl.
  pose proof (sliceLast_length 4 l). lia.
Qed.

Lemma updatedOTPs_last (env : environment) (l : list otpEntry) :
  otp <$> list.last (updatedOTPs env l) = Some (generateOTP (random env)).
Proof. unfold updatedOTPs. rewrite last_snoc. reflexivity. Qed.

Lemma resendOTP_unverified (env : environment) (e : string) (d : database)
    (u : account) (t : userType) :
  JS.truthy e = true ->
  findInBothByEmail d e = Some (u, t) ->
  isVerified u = false ->
  db (resendOTP env e d)
    = updateAccount d t (id u)
        (setOTPs (updatedOTPs env (default [] (emailOTPs u))))
  /\ findInBothByEmail (db (resendOTP env e d)) e
     = Some (setOTPs (updatedOTPs env (default [] (emailOTPs u))) u, t).
Proof.
  intros He Hfind Hv. unfold resendOTP. rewrite He, Hfind, Hv. simpl.
  split; [reflexivity|].
  apply (findInBoth_update d e u t
           (setOTPs (updatedOTPs env (default [] (emailOTPs u))))
           (fun _ => eq_refl) Hfind).
Qed.

Lemma sliceLast_snoc {A} (n : nat) (a : list A) (x : A) :
  JS.sliceLast n a ++ [x] = JS.sliceLast (S n) (a ++ [x]).
Proof.
  unfold JS.sliceLast. rewrite length_app. simpl.
  replace (length a + 1 - S n)%nat with (length a - n)%nat by lia.
  rewrite drop_app_le by lia. reflexivity.
Qed.

Lemma sliceLast_app_sliceLast {A} (n : nat) (a r : list A) :
  JS.sliceLast n (JS.sliceLast n a ++ r) = JS.sliceLast n (a ++ r).
Proof.
  unfold JS.sliceLast. rewrite !length_app, length_drop.
  destruct (Nat.le_gt_cases (length a) n) as [Hle|Hgt].
  - replace (length a - n)%nat with 0%nat by lia. simpl.
    by rewrite Nat.sub_0_r.
  - replace (length a - (length a - n) + length r - n)%nat
      with (length r) by lia.
    replace (length a + length r - n)%nat
      with ((length a - n) + length r)%nat by lia.
    rewrite <- drop_drop. rewrite (drop_app_le a r) by lia.
    reflexivity.
Qed.

Lemma updatedOTPs_issued (env : environment) (l : list otpEntry) :
  updatedOTPs env l = JS.sliceLast 5 (l ++ [MobileAuthSpec.issued env]).
Proof. unfold updatedOTPs. by rewrite sliceLast_snoc. Qed.

Lemma resendMany_issued (envs : list environment) (e : string) (d : database)
    (u : account) (t : userType) :
  JS.truthy e = true ->
  findInBothByEmail d e = Some (u, t) ->
  isVerified u = false ->
  envs <> [] ->
  findInBothByEmail (resendMany envs e d) e
  = Some (setOTPs (JS.sliceLast 5 (default [] (emailOTPs u) ++ map MobileAuthSpec.issued envs)) u,
          t).
Proof.
  intros He. revert d u.
  induction envs as [|env envs IH]; intros d u Hfind Hver Hne; [done|].
  destruct (resendOTP_unverified env e d u t He Hfind Hver)
    as [_ Hone].
  change (resendMany (env :: envs) e d)
    with (resendMany envs e (db (resendOTP env e d))).
  destruct envs as [|env2 envs].
  - simpl. rewrite Hone. by rewrite updatedOTPs_issued.
  - rewrite (IH _ _ Hone); [|done..].
    cbn [emailOTPs setOTPs default from_option Datatypes.id].
    rewrite updatedOTPs_issued, sliceLast_app_sliceLast.
    rewrite <- (assoc_L (++)). reflexivity.
Qed.

Lemma sliceLast_suffix {A} (n : nat) (l older kept : list A) :
  l = older ++ kept ->
  length kept = n \/ (older = [] /\ (length kept <= n)%nat) ->
  JS.sliceLast n l = kept.
Proof.
  intros -> Hkept. unfold JS.sliceLast. rewrite length_app.
  destruct Hkept as [Hlen | [-> Hlen]].
  - rewrite Hlen. replace (length older + n - n)%nat with (length older) by lia.
    apply drop_app_length.
  - simpl. by replace (length kept - n)%nat with 0%nat by lia.
Qed.

(** C3. A [resendOTP] call for an unverified account keeps the last 4
    entries of the list it found, in their order, drops the older ones and
    appends the new entry.  After [n >= 1] calls the stored list is made of
    the last 5 of the entries held before followed by the entries issued,
    so it has at most 5 entries and its last entry carries the code
    generated by the last call.  On a verified account the call answers
    [alreadyVerified: true] and stores nothing, however often it is
    repeated. *)
Theorem resendOTP_keeps_at_most_five_newest_last
    (envs : list environment) (e : string) (d : database)
    (u : account) (t : userType) :
  JS.truthy e = true ->
  findInBothByEmail d e = Some (u, t) ->
  (isVerified u = false ->
     (forall env older kept,
        default [] (emailOTPs u) = older ++ kept ->
        length kept = 4%nat \/ (older = [] /\ (length kept <= 4)%nat) ->
        findInBothByEmail (db (resendOTP env e d)) e
        = Some (setOTPs (kept
                         ++ [ {| otp := generateOTP (random env);
                                 expiresAt := (dateNow env + tenMinutes)%Z;
                                 createdAt := newDate env |} ]) u, t))
     /\ exists u',
          findInBothByEmail (resendMany envs e d) e = Some (u', t)
          /\ isVerified u' = false
          /\ ((length (default [] (emailOTPs u)) <= 5)%nat ->
              (length (default [] (emailOTPs u')) <= 5)%nat)
          /\ (forall env, list.last envs = Some env ->
                (length (default [] (emailOTPs u')) <= 5)%nat
                /\ otp <$> list.last (default [] (emailOTPs u'))
                   = Some (generateOTP (random env)))
          /\ (forall older kept,
                envs <> [] ->
                default [] (emailOTPs u) ++ map MobileAuthSpec.issued envs
                = older ++ kept ->
                length kept = 5%nat \/ (older = [] /\ (length kept <= 5)%nat) ->
                emailOTPs u' = Some kept))
  /\ (isVerified u = true ->
        (forall env,
           res (resendOTP env e d) = alreadyVerifiedResponse
           /\ db (resendOTP env e d) = d)
        /\ resendMany envs e d = d
        /\ field "alreadyVerified" (body alreadyVerifiedResponse)
           = Some (JBool true)).
Proof.
  intros He Hfind. split.
  - intros Hv. split.
    { intros env older kept Hl Hkept.
      destruct (resendOTP_unverified env e d u t He Hfind Hv) as [_ ->].
      unfold updatedOTPs.
      by rewrite (sliceLast_suffix 4 _ older kept Hl Hkept). }
    assert (Hmany : exists u',
              findInBothByEmail (resendMany envs e d) e = Some (u', t)
              /\ isVerified u' = false
              /\ ((length (default [] (emailOTPs u)) <= 5)%nat ->
                  (length (default [] (emailOTPs u')) <= 5)%nat)
              /\ (forall env, list.last envs = Some env ->
                    (length (default [] (emailOTPs u')) <= 5)%nat
                    /\ otp <$> list.last (default [] (emailOTPs u'))
                       = Some (generateOTP (random env)))).
    { induction envs as [|env envs IH] using rev_ind.
      + exists u. simpl. repeat split; auto; discriminate.
      + destruct IH as (u1 & Hfind1 & Hv1 & _ & _).
        unfold resendMany in *. rewrite fold_left_app. simpl.
        destruct (resendOTP_unverified env e _ u1 t He Hfind1 Hv1) as [_ Hstep].
        eexists. split; [exact Hstep|]. split; [exact Hv1|].
        simpl. split.
        * intros _. apply updatedOTPs_length.
        * intros env'. rewrite last_snoc. intros [= <-].
          split; [apply updatedOTPs_length | apply updatedOTPs_last]. }
    destruct Hmany as (u' & Hfind' & Hv' & Hlen & Hlast).
    exists u'. split; [exact Hfind'|]. split; [exact Hv'|].
    split; [exact Hlen|]. split; [exact Hlast|].
    intros older kept Hne Hl Hkept.
    rewrite (resendMany_issued envs e d u t He Hfind Hv Hne) in Hfind'.
    injection Hfind' as <-. cbn [emailOTPs setOTPs].
    by rewrite (sliceLast_suffix 5 _ older kept Hl Hkept).
  - intros Hv.
    assert (Hone : forall env, resendOTP env e d = reply alreadyVerifiedResponse d).
    { intros env. unfold resendOTP. rewrite He, Hfind, Hv. reflexivity. }
    split; [|split; [|reflexivity]].
    + intros env. rewrite Hone. split; reflexivity.
    + unfold resendMany. induction envs as [|env envs IH]; [reflexivity|].
      simpl. rewrite Hone. simpl. exact IH.
Qed.

(** *** mobileRegister *)

Lemma find_some_dec {A} (p : A -> bool) (l : list A) (x : A) :
  x ∈ l -> p x = true -> bool_decide (is_Some (List.find p l)) = true.
Proof.
  intros Hx Hp. destruct (find_is_some p l x Hx Hp) as [y ->].
  apply bool_decide_eq_true. eauto.
Qed.

(** C9. [mobileRegister] rejects the request and creates no account
    whenever an account with the same email or the same phone number
    exists in the user or in the admin collection; for a request that
    passes the field and format validation the rejection is the
    duplicate-account error. *)
Theorem mobileRegister_rejects_duplicates
    (env : environment) (b : registerBody) (d : database) (a : account) :
  a ∈ users d \/ a ∈ admins d ->
  email a = reg_email b \/ phoneNumber a = reg_phoneNumber b ->
  db (mobileRegister env b d) = d
  /\ deferred (mobileRegister env b d) = []
  /\ status (res (mobileRegister env b d)) = 400%nat
  /\ field "success" (body (res (mobileRegister env b d))) = Some (JBool false)
  /\ (passesValidation b -> res (mobileRegister env b d) = duplicateAccount).
Proof.
  intros Hin Hsame.
  assert (Hdup :
    JS.truthy (reg_email b) = true -> JS.truthy (reg_password b) = true ->
    JS.truthy (reg_name b) = true -> JS.truthy (reg_phoneNumber b) = true ->
    Regex.matches emailRegex (reg_email b) = true ->
    Regex.matches phoneRegex (reg_phoneNumber b) = true ->
    mobileRegister env b d = reply duplicateAccount d).
  { intros H1 H2 H3 H4 H5 H6. unfold mobileRegister.
    rewrite H1, H2, H3, H4, H5, H6. simpl.
    assert (Hcases :
      bool_decide (is_Some (findUniqueByEmail (users d) (reg_email b))) = true
      \/ bool_decide (is_Some (findUniqueByEmail (admins d) (reg_email b))) = true
      \/ bool_decide (is_Some (findFirstByPhone (users d) (reg_phoneNumber b))) = true
      \/ bool_decide (is_Some (findFirstByPhone (admins d) (reg_phoneNumber b))) = true).
    { destruct Hsame as [Hs|Hs], Hin as [Hi|Hi].
      - left. apply (find_some_dec _ _ a Hi), String.eqb_eq, Hs.
      - right; left. apply (find_some_dec _ _ a Hi), String.eqb_eq, Hs.
      - right; right; left. apply (find_some_dec _ _ a Hi), String.eqb_eq, Hs.
      - right; right; right. apply (find_some_dec _ _ a Hi), String.eqb_eq, Hs. }
    destruct (isAdminEmail env (reg_email b));
      destruct (bool_decide (is_Some (findUniqueByEmail (users d) (reg_email b))));
      destruct (bool_decide (is_Some (findUniqueByEmail (admins d) (reg_email b))));
      simpl; try reflexivity;
      destruct (bool_decide (is_Some (findFirstByPhone (users d) (reg_phoneNumber b))));
      destruct (bool_decide (is_Some (findFirstByPhone (admins d) (reg_phoneNumber b))));
      simpl; try reflexivity;
      exfalso; intuition discriminate. }
  assert (Hrun :
    exists msg, mobileRegister env b d = reply (failure 400 msg) d).
  { destruct (JS.truthy (reg_email b)) eqn:H1;
      [destruct (JS.truthy (reg_password b)) eqn:H2;
       [destruct (JS.truthy (reg_name b)) eqn:H3;
        [destruct (JS.truthy (reg_phoneNumber b)) eqn:H4;
         [destruct (Regex.matches emailRegex (reg_email b)) eqn:H5;
          [destruct (Regex.matches phoneRegex (reg_phoneNumber b)) eqn:H6;
           [eexists; apply Hdup; reflexivity|]|]|]|]|]|];
      eexists; unfold mobileRegister; cbv zeta;
      rewrite ?H1, ?H2, ?H3, ?H4, ?H5, ?H6; simpl; reflexivity. }
  destruct Hrun as [msg Hrun]. rewrite Hrun. simpl.
  repeat split.
  intros (H1 & H2 & H3 & H4 & H5 & H6).
  rewrite Hdup in Hrun by assumption. injection Hrun as <-. reflexivity.
Qed.

(** *** mobileLogin *)

Lemma mobileLogin_not_found (env : loginEnvironment) (b : loginBody)
    (d : database) :
  JS.truthy (login_email b) = true ->
  JS.truthy (login_password b) = true ->
  (forall a, a ∈ users d \/ a ∈ admins d ->
     email a <> login_email b /\ phoneNumber a <> login_email b) ->
  mobileLogin env b d = reply (failure 401 notFoundMessage) d.
Proof.
  intros He Hp Hnone. unfold mobileLogin, mobileLoginAttempt. rewrite He, Hp. simpl.
  assert (Hu : forall rows,
    (forall a, a ∈ rows -> a ∈ users d \/ a ∈ admins d) ->
    (if Regex.search emailShape (login_email b)
     then findUniqueByEmail rows (login_email b)
     else findFirstByPhone rows (login_email b)) = None).
  { intros rows Hsub.
    destruct (Regex.search emailShape (login_email b));
      apply find_none_iff; intros a Ha;
      apply String.eqb_neq; apply (Hnone a (Hsub a Ha)). }
  rewrite (Hu (users d)) by auto. rewrite (Hu (admins d)) by auto.
  reflexivity.
Qed.

Lemma mobileLogin_wrong_password (env : loginEnvironment) (b : loginBody)
    (d : database) (u : account) (hash : string) :
  JS.truthy (login_email b) = true ->
  JS.truthy (login_password b) = true ->
  Regex.search emailShape (login_email b) = true ->
  findUniqueByEmail (users d) (login_email b) = Some u ->
  isActive u = true -> isVerified u = true ->
  password u = Some hash -> JS.truthy hash = true ->
  bcrypt_compare (login_password b) hash = false ->
  mobileLogin env b d = reply (failure 401 wrongPasswordMessage) d.
Proof.
  intros He Hp Hshape Hfind Hact Hver Hpw Hhash Hcmp.
  unfold mobileLogin, mobileLoginAttempt. rewrite He, Hp. simpl.
  rewrite Hshape, Hfind, Hact, Hver. simpl.
  unfold passwordMissing. rewrite Hpw, Hhash. simpl. rewrite Hcmp.
  reflexivity.
Qed.

End WithCollaborators.

(** *** The properties on the sample data *)

Import Fixtures.


Lemma verifyOTP_idempotent_witness :
  res (verifyOTP 7000 {| ver_email := "alice@example.com"; ver_otp := "111111" |}
         (db (verifyOTP 6000
                {| ver_email := "alice@example.com"; ver_otp := "111111" |}
                sampleDb)))
  = alreadyVerifiedResponse.
Proof.
  destruct (verifyOTP_success_verifies_clears_and_is_idempotent
              6000 {| ver_email := "alice@example.com"; ver_otp := "111111" |}
              sampleDb alice User
              [entry "111111" 1000; entry "222222" 5000; entry "111111" 9000]
              (entry "111111" 9000)
              eq_refl eq_refl eq_refl eq_refl eq_refl
              ltac:(do 2 apply list_elem_of_further; apply list_elem_of_here)
              eq_refl eq_refl)
    as (_ & _ & Hagain & _).
  exact (f_equal res (Hagain 7000%Z "111111" eq_refl)).
Defined.

Lemma resendOTP_witness :
  exists u',
    findInBothByEmail
      (resendMany [sampleEnv (1 # 4) 100; sampleEnv (1 # 2) 200;
                   sampleEnv (3 # 4) 300]
         "alice@example.com" sampleDb)
      "alice@example.com" = Some (u', User)
    /\ emailOTPs u'
       = Some [entry "222222" 5000; entry "111111" 9000;
               MobileAuthSpec.issued (sampleEnv (1 # 4) 100);
               MobileAuthSpec.issued (sampleEnv (1 # 2) 200);
               MobileAuthSpec.issued (sampleEnv (3 # 4) 300)]
    /\ otp <$> list.last (default [] (emailOTPs u')) = Some "775000".
Proof.
  destruct (resendOTP_keeps_at_most_five_newest_last
              [sampleEnv (1 # 4) 100; sampleEnv (1 # 2) 200;
               sampleEnv (3 # 4) 300]
              "alice@example.com" sampleDb alice User eq_refl eq_refl)
    as [Hunverified _].
  destruct (Hunverified eq_refl) as (_ & u' & Hfind & _ & _ & Hlast & Hkept).
  exists u'. split; [exact Hfind|]. split.
  - apply (Hkept [entry "111111" 1000]); [discriminate|reflexivity|].
    left. reflexivity.
  - exact (proj2 (Hlast (sampleEnv (3 # 4) 300) eq_refl)).
Defined.

Lemma mobileRegister_duplicate_witness :
  db (mobileRegister (sampleEnv (1 # 3) 100) duplicateRequest sampleDb) = sampleDb
  /\ res (mobileRegister (sampleEnv (1 # 3) 100) duplicateRequest sampleDb)
     = duplicateAccount.
Proof.
  destruct (mobileRegister_rejects_duplicates
              (sampleEnv (1 # 3) 100) duplicateRequest sampleDb alice
              (or_introl (list_elem_of_here _ _)) (or_introl eq_refl))
    as (Hdb & _ & _ & _ & Hres).
  split; [exact Hdb|].
  apply Hres. repeat split; vm_compute; reflexivity.
Defined.

(** C4. The message [mobileLogin] returns when no account matches the
    identifier and the message it returns when the account exists (active,
    verified, with a local password) and the password does not match are
    both generic, but they are not the same text: the first names
    "email/phone number", the second only "email". *)
Theorem mobileLogin_not_found_and_wrong_password_messages :
  field "error"
    (body (res (mobileLogin sampleLoginEnv
                  {| login_email := "nobody@example.com";
                     login_password := "hunter2"; login_fcmToken := "" |}
                  sampleDb)))
  = Some (JStr "Invalid email/phone number or password")
  /\ field "error"
       (body (res (mobileLogin sampleLoginEnv
                     {| login_email := "bob@example.com";
                        login_password := "wrong"; login_fcmToken := "" |}
                     sampleDb)))
     = Some (JStr "Invalid email or password")
  /\ notFoundMessage <> wrongPasswordMessage.
Proof.
  split; [|split].
  - rewrite mobileLogin_not_found; [reflexivity..|].
    intros a [Ha|Ha]; [|inversion Ha].
    apply elem_of_cons in Ha as [->|Ha]; [split; discriminate|].
    apply elem_of_cons in Ha as [->|Ha]; [split; discriminate|inversion Ha].
  - by rewrite (mobileLogin_wrong_password _ _ _ bob "s:hunter2").
  - discriminate.
Qed.

End MobileAuthProofs.

(** ** The abandoned-cart scheduler *)

Module CartAlertsProofs.
Import CartAlerts.

Lemma between_spec (t lo hi : Z) :
  between t lo hi = true <-> (lo <= t <= hi)%Z.
Proof. unfold between. rewrite andb_true_iff. lia. Qed.

(** The outcome of the three tests, by window. *)
Lemma chooseReminder_spec (now t : Z) :
  chooseReminder now t
  = if between t (now - 3 * 24 * 60 * 60 * 1000 - 2 * 60 * 60 * 1000)
                 (now - 3 * 24 * 60 * 60 * 1000 + 2 * 60 * 60 * 1000)
    then (Some threeDays, true)
    else if between t (now - 24 * 60 * 60 * 1000 - 60 * 60 * 1000)
                      (now - 24 * 60 * 60 * 1000 + 60 * 60 * 1000)
    then (Some twentyFourHours, true)
    else if between t (now - 60 * 60 * 1000 - 10 * 60 * 1000)
                      (now - 60 * 60 * 1000 + 10 * 60 * 1000)
    then (Some oneHour, true)
    else (None, false).
Proof.
  unfold chooseReminder. cbv zeta.
  repeat match goal with |- context [between ?a ?b ?c] =>
    destruct (between a b c) end; reflexivity.
Qed.


Lemma recentOrders_empty (d : database) (u : option string) (t : Z) :
  (forall o, o ∈ onlineOrders d -> orderUserId o = u -> (orderCreatedAt o < t)%Z) ->
  (0 <? length (recentOrders d u t))%nat = false.
Proof.
  intros Hnone. apply Nat.ltb_ge.
  destruct (recentOrders d u t) as [|o os] eqn:Hr; [simpl; lia|].
  assert (Ho : In o (recentOrders d u t)) by (rewrite Hr; by left).
  apply filter_In in Ho as [Hin Hcond].
  apply andb_true_iff in Hcond as [Hu Ht].
  apply bool_decide_eq_true in Hu.
  specialize (Hnone o (proj2 (list_elem_of_In _ _) Hin) Hu). lia.
Qed.

Section WithNotifier.
Context `{Notifier}.

Lemma visit_calls (now : Z) (d : database) (loaded : list customer) (r : tallies) :
  made (fold_left (visit now d) loaded r)
  = made r ++ omap (reminderFor now d) loaded.
Proof.
  revert r. induction loaded as [|c loaded IH]; intros r; simpl.
  - by rewrite app_nil_r.
  - rewrite IH. unfold visit.
    destruct (reminderFor now d c) as [m|]; [|reflexivity].
    destruct (sendAbandonedCartReminder m); simpl; by rewrite <- app_assoc.
Qed.

(** The calls of a sweep are the reminders of the loaded customers, in
    order. *)
Lemma checkAbandonedCarts_calls (now : Z) (d : database) :
  calls (checkAbandonedCarts now d)
  = omap (reminderFor now d) (customersWithCarts d).
Proof.
  unfold checkAbandonedCarts.
  destruct (customersWithCarts d) as [|c cs] eqn:Hl; [reflexivity|].
  change (length (c :: cs) =? 0)%nat with false. cbv iota. cbn [calls].
  rewrite visit_calls. reflexivity.
Qed.

End WithNotifier.



(** *** The property on the sample data *)

Import CartFixtures.


End CartAlertsProofs.

(** ** The wishlist schedulers *)

Module WishlistAlertsProofs.
Import WishlistAlerts.

Lemma NoDup_fmap_eq {A B} (f : A -> B) (l : list A) (x y : A) :
  NoDup (f <$> l) -> x ∈ l -> y ∈ l -> f x = f y -> x = y.
Proof.
  induction l as [|a l IH]; intros Hnd Hx Hy Hf; [inversion Hx|].
  rewrite fmap_cons in Hnd. apply list.NoDup_cons in Hnd as [Hnotin Hnd].
  apply elem_of_cons in Hx as [->|Hx]; apply elem_of_cons in Hy as [->|Hy].
  - reflexivity.
  - exfalso. apply Hnotin. rewrite Hf. apply list_elem_of_fmap. by exists y.
  - exfalso. apply Hnotin. rewrite <- Hf. apply list_elem_of_fmap. by exists x.
  - by apply IH.
Qed.

Lemma visited_false (items : list wishlistItem) (w : wishlistItem) :
  id w ∉ id <$> items -> visited items w = false.
Proof.
  intros Hnot. unfold visited. apply not_true_is_false. intros Hex.
  apply existsb_exists in Hex as (it & Hin & Heq).
  apply String.eqb_eq in Heq. apply Hnot. rewrite <- Heq.
  apply list_elem_of_fmap. exists it. split; [reflexivity|].
  by apply list_elem_of_In.
Qed.

Lemma visited_true (items : list wishlistItem) (w : wishlistItem) :
  w ∈ items -> visited items w = true.
Proof.
  intros Hin. apply existsb_exists. exists w.
  split; [by apply list_elem_of_In | apply String.eqb_refl].
Qed.

Section Loop.
Context {alert : Type}
        (choose : wishlistItem -> option (alert * productData))
        (send : alert -> bool).

Lemma rowAfter_id (w : wishlistItem) : id (rowAfter choose send w) = id w.
Proof.
  unfold rowAfter. destruct (choose w) as [[a pd]|]; [|reflexivity].
  destruct (send a); reflexivity.
Qed.

Lemma fold_visit_calls (items : list wishlistItem) (st : progress alert) :
  calls (fold_left (visit choose send) items st)
  = calls st ++ omap (callFor choose send) items.
Proof.
  revert st. induction items as [|x items IH]; intros st; simpl.
  - by rewrite app_nil_r.
  - rewrite IH. unfold visit, callFor.
    destruct (choose x) as [[a pd]|]; [|reflexivity].
    destruct (send a); simpl; by rewrite <- app_assoc.
Qed.

(** One visit rewrites the rows that carry the id of the item. *)
Lemma visit_table (st : progress alert) (x : wishlistItem) :
  (forall w, w ∈ table st -> id w = id x -> w = x) ->
  table (visit choose send st x)
  = map (fun w => if String.eqb (id w) (id x) then rowAfter choose send w else w)
        (table st).
Proof.
  intros Hown. unfold visit, rowAfter.
  destruct (choose x) as [[a pd]|] eqn:Hc.
  - destruct (send a) eqn:Hs; simpl.
    + unfold updateSnapshot. apply map_ext_in. intros w Hw.
      destruct (String.eqb (id w) (id x)) eqn:Hid; [|reflexivity].
      apply String.eqb_eq in Hid.
      rewrite (Hown w (proj2 (list_elem_of_In _ _) Hw) Hid), Hc, Hs.
      reflexivity.
    + rewrite <- (map_id (table st)) at 1. apply map_ext_in. intros w Hw.
      destruct (String.eqb (id w) (id x)) eqn:Hid; [|reflexivity].
      apply String.eqb_eq in Hid.
      rewrite (Hown w (proj2 (list_elem_of_In _ _) Hw) Hid), Hc, Hs.
      reflexivity.
  - rewrite <- (map_id (table st)) at 1. apply map_ext_in. intros w Hw.
    destruct (String.eqb (id w) (id x)) eqn:Hid; [|reflexivity].
    apply String.eqb_eq in Hid.
    rewrite (Hown w (proj2 (list_elem_of_In _ _) Hw) Hid), Hc.
    reflexivity.
Qed.

(** After the loop, the rows of the visited items are the rows
    [rowAfter] gives and the other rows are untouched, provided an id
    names one row. *)
Lemma fold_visit_table (items : list wishlistItem) (st : progress alert) :
  NoDup (id <$> items) ->
  (forall it w, it ∈ items -> w ∈ table st -> id w = id it -> w = it) ->
  table (fold_left (visit choose send) items st)
  = map (fun w => if visited items w then rowAfter choose send w else w)
        (table st).
Proof.
  revert st. induction items as [|x items IH]; intros st Hnd Hown; simpl.
  - symmetry. apply map_id.
  - rewrite fmap_cons in Hnd. apply list.NoDup_cons in Hnd as [Hx Hnd].
    rewrite IH; [|exact Hnd|].
    + rewrite visit_table.
      2:{ intros w Hw Hid. apply (Hown x w); [constructor|exact Hw|exact Hid]. }
      rewrite map_map. apply map_ext_in. intros w Hw.
      rewrite String.eqb_sym.
      destruct (String.eqb (id x) (id w)) eqn:Hid; simpl.
      * apply String.eqb_eq in Hid.
        rewrite visited_false; [reflexivity|].
        rewrite rowAfter_id, <- Hid. exact Hx.
      * reflexivity.
    + intros it w Hit Hw Hid.
      rewrite visit_table in Hw.
      2:{ intros w' Hw' Hid'. apply (Hown x w'); [constructor|exact Hw'|exact Hid']. }
      apply list_elem_of_fmap in Hw as (w0 & -> & Hw0).
      destruct (String.eqb (id w0) (id x)) eqn:Hx0.
      * exfalso. apply String.eqb_eq in Hx0. rewrite rowAfter_id in Hid.
        apply Hx. rewrite <- Hx0, Hid. apply list_elem_of_fmap. by exists it.
      * apply (Hown it w0); [by constructor|exact Hw0|exact Hid].
Qed.

Lemma firedFor_fold (items : list wishlistItem) (st : progress alert) (i : string) :
  calls st = [] ->
  firedFor i (fold_left (visit choose send) items st)
  <-> exists w, w ∈ items /\ id w = i /\ is_Some (choose w).
Proof.
  intros Hempty. unfold firedFor. rewrite fold_visit_calls, Hempty. simpl.
  split.
  - intros (a & ok & Hin). apply list_elem_of_omap in Hin as (w & Hw & Hcall).
    unfold callFor in Hcall. destruct (choose w) as [[a' pd]|] eqn:Hc; [|discriminate].
    injection Hcall as <- <- <-. exists w. rewrite Hc. eauto.
  - intros (w & Hw & Hid & [[a pd] Hc]). exists a, (send a).
    apply list_elem_of_omap. exists w. split; [exact Hw|].
    unfold callFor. rewrite Hc, Hid. reflexivity.
Qed.

Lemma deliveredFor_fold (items : list wishlistItem) (st : progress alert) (i : string) :
  calls st = [] ->
  deliveredFor i (fold_left (visit choose send) items st)
  <-> exists w a pd, w ∈ items /\ id w = i /\ choose w = Some (a, pd)
                     /\ send a = true.
Proof.
  intros Hempty. unfold deliveredFor. rewrite fold_visit_calls, Hempty. simpl.
  split.
  - intros (a & Hin). apply list_elem_of_omap in Hin as (w & Hw & Hcall).
    unfold callFor in Hcall. destruct (choose w) as [[a' pd]|] eqn:Hc; [|discriminate].
    injection Hcall as <- <- Hs. exists w, a', pd. eauto.
  - intros (w & a & pd & Hw & Hid & Hc & Hs). exists a.
    apply list_elem_of_omap. exists w. split; [exact Hw|].
    unfold callFor. rewrite Hc, Hid, Hs. reflexivity.
Qed.
(** A sweep over [items], rows of a table in which an id names one row:
    what it does for one of the items. *)
Lemma sweep_item (stored items : list wishlistItem) (item : wishlistItem) :
  NoDup (id <$> stored) ->
  NoDup (id <$> items) ->
  (forall w, w ∈ items -> w ∈ stored) ->
  item ∈ items ->
  let r := fold_left (visit choose send) items
             {| table := stored; alertsSent := 0; calls := [] |} in
  (firedFor (id item) r <-> is_Some (choose item))
  /\ (deliveredFor (id item) r
      <-> exists a pd, choose item = Some (a, pd) /\ send a = true)
  /\ rowAfter choose send item ∈ table r
  /\ (forall w, w ∈ table r -> id w = id item -> w = rowAfter choose send item).
Proof.
  intros Hnd Hndi Hsub Hitem r.
  assert (Hsame : forall w, w ∈ items -> id w = id item -> w = item).
  { intros w Hw Hid.
    apply (NoDup_fmap_eq id stored w item Hnd); auto. }
  assert (Htable : table r
            = map (fun w => if visited items w then rowAfter choose send w else w)
                  stored).
  { unfold r. rewrite fold_visit_table; [reflexivity|exact Hndi|].
    intros it w Hit Hw Hid. simpl in Hw.
    apply (NoDup_fmap_eq id stored w it Hnd); auto. }
  split; [|split; [|split]].
  - unfold r. rewrite firedFor_fold by reflexivity. split.
    + intros (w & Hw & Hid & Hc). by rewrite <- (Hsame w Hw Hid).
    + intros Hc. by exists item.
  - unfold r. rewrite deliveredFor_fold by reflexivity. split.
    + intros (w & a & pd & Hw & Hid & Hc & Hs).
      rewrite (Hsame w Hw Hid) in Hc. eauto.
    + intros (a & pd & Hc & Hs). exists item, a, pd. auto.
  - rewrite Htable. apply list_elem_of_fmap. exists item.
    rewrite (visited_true items item Hitem). auto.
  - intros w Hw Hid. rewrite Htable in Hw.
    apply list_elem_of_fmap in Hw as (w0 & -> & Hw0).
    assert (Hid0 : id w0 = id item).
    { destruct (visited items w0); [by rewrite rowAfter_id in Hid|exact Hid]. }
    rewrite (NoDup_fmap_eq id stored w0 item Hnd Hw0 (Hsub _ Hitem) Hid0).
    by rewrite (visited_true items item Hitem).
Qed.
End Loop.

Lemma NoDup_fmap_filter {A B} (f : A -> B) (p : A -> bool) (l : list A) :
  NoDup (f <$> l) -> NoDup (f <$> List.filter p l).
Proof.
  induction l as [|a l IH]; intros Hnd; [constructor|].
  rewrite fmap_cons in Hnd. apply list.NoDup_cons in Hnd as [Ha Hnd].
  simpl. destruct (p a); [|by apply IH].
  rewrite fmap_cons. apply list.NoDup_cons. split; [|by apply IH].
  intros Hin. apply Ha.
  apply list_elem_of_fmap in Hin as (x & -> & Hx).
  apply list_elem_of_fmap. exists x. split; [reflexivity|].
  apply list_elem_of_In. apply list_elem_of_In, filter_In in Hx. tauto.
Qed.

(** *** JavaScript comparisons *)

Lemma Qltb_lt (a b : Q) : JS.Qltb a b = true <-> (a < b)%Q.
Proof.
  unfold JS.Qltb. rewrite negb_true_iff. split.
  - intros Hle. apply Qnot_le_lt. intros Hba.
    apply Qle_bool_iff in Hba. congruence.
  - intros Hlt. apply not_true_is_false. intros Hba.
    apply Qle_bool_iff in Hba. apply (Qlt_not_le _ _ Hlt Hba).
Qed.

Lemma lt_irrefl (v : JS.value) : JS.lt v v = false.
Proof.
  unfold JS.lt. destruct (JS.toNumber v) as [x|]; [|reflexivity].
  apply not_true_is_false. rewrite Qltb_lt. apply Qlt_irrefl.
Qed.

Lemma or_same (v : JS.value) : JS.or v v = v.
Proof. unfold JS.or. destruct (JS.isTruthy v); reflexivity. Qed.

(** *** The price-drop sweep *)

Lemma priceDropFor_live (catalog : list onlineProduct) (item : wishlistItem)
    (pd : productData) (cust : customer) (product : onlineProduct) (v : variant) :
  snapshot item = Some pd ->
  owner item = Some cust ->
  findProduct catalog (productId item) = Some product ->
  currentVariant product (JS.orZero (variantIndex pd)) = Some v ->
  priceDropFor catalog item
  = if JS.lt (liveSellingPrice v) (JS.or (variantSellingPrice pd) (price pd))
    then Some ({| dropUser := userId cust;
                  dropProductName :=
                    JS.orString (productName pd) (onlineProductName product);
                  storedPrice := JS.or (variantSellingPrice pd) (price pd);
                  currentPrice := liveSellingPrice v;
                  dropProductId := productId item |},
               withPrice pd (liveSellingPrice v))
    else None.
Proof.
  intros Hs Ho Hp Hv. unfold priceDropFor. rewrite Hs, Ho, Hp. cbv zeta.
  rewrite Hv. reflexivity.
Qed.

(** Once the snapshot carries the live price, the item raises no alert. *)
Lemma priceDropFor_after (catalog : list onlineProduct) (item : wishlistItem)
    (pd : productData) (cust : customer) (product : onlineProduct) (v : variant) :
  owner item = Some cust ->
  findProduct catalog (productId item) = Some product ->
  currentVariant product (JS.orZero (variantIndex pd)) = Some v ->
  priceDropFor catalog (withSnapshot item (withPrice pd (liveSellingPrice v)))
  = None.
Proof.
  intros Ho Hp Hv.
  rewrite (priceDropFor_live catalog _ (withPrice pd (liveSellingPrice v))
             cust product v); try assumption; try reflexivity.
  simpl. by rewrite or_same, lt_irrefl.
Qed.

Lemma checkWishlistPriceDrops_fold `{Notifier}
    (catalog : list onlineProduct) (stored : list wishlistItem) :
  checkWishlistPriceDrops catalog stored
  = fold_left (visit (priceDropFor catalog) sendPriceDropAlert) stored
      {| table := stored; alertsSent := 0; calls := [] |}.
Proof.
  unfold checkWishlistPriceDrops. destruct stored; reflexivity.
Qed.

Lemma checkWishlistBackInStock_fold `{Notifier}
    (pid : string) (variantIndex newStockQuantity : Q)
    (stored : list wishlistItem) :
  checkWishlistBackInStock pid variantIndex newStockQuantity stored
  = fold_left (visit (backInStockFor variantIndex newStockQuantity)
                     sendBackInStockAlert)
      (List.filter (fun w => String.eqb (productId w) pid) stored)
      {| table := stored; alertsSent := 0; calls := [] |}.
Proof.
  unfold checkWishlistBackInStock.
  destruct (List.filter _ stored); reflexivity.
Qed.

(** C6. For a wishlist item of the price-drop sweep whose live product and
    variant exist, an alert is sent if and only if the live selling price
    is strictly lower than the price of the snapshot.  When the alert has
    been delivered, the price fields of the stored snapshot are the live
    price, and a second sweep over the same catalog sends no alert for the
    item. *)
Theorem price_drop_alert_iff_lower_then_silent
    (first second : Notifier)
    (catalog : list onlineProduct) (stored : list wishlistItem)
    (item : wishlistItem) (pd : productData) (cust : customer)
    (product : onlineProduct) (v : variant) :
  NoDup (id <$> stored) ->
  item ∈ stored ->
  snapshot item = Some pd ->
  owner item = Some cust ->
  findProduct catalog (productId item) = Some product ->
  currentVariant product (JS.orZero (variantIndex pd)) = Some v ->
  (firedFor (id item) (@checkWishlistPriceDrops first catalog stored)
   <-> JS.lt (liveSellingPrice v) (JS.or (variantSellingPrice pd) (price pd)) = true)
  /\ (forall live cached : Q,
        liveSellingPrice v = JS.Number live ->
        JS.or (variantSellingPrice pd) (price pd) = JS.Number cached ->
        (firedFor (id item) (@checkWishlistPriceDrops first catalog stored)
         <-> (live < cached)%Q))
  /\ (deliveredFor (id item) (@checkWishlistPriceDrops first catalog stored) ->
      (exists item',
         item' ∈ table (@checkWishlistPriceDrops first catalog stored)
         /\ id item' = id item
         /\ exists pd',
              snapshot item' = Some pd'
              /\ variantSellingPrice pd' = liveSellingPrice v
              /\ price pd' = liveSellingPrice v)
      /\ ~ firedFor (id item)
             (@checkWishlistPriceDrops second catalog
                (table (@checkWishlistPriceDrops first catalog stored)))).
Proof.
  intros Hnd Hitem Hs Ho Hp Hv.
  pose proof (priceDropFor_live catalog item pd cust product v Hs Ho Hp Hv) as Hrun.
  destruct (sweep_item (priceDropFor catalog) (@sendPriceDropAlert first)
              stored stored item Hnd Hnd (fun _ Hw => Hw) Hitem)
    as (Hfired & Hdelivered & Hstored & Hrows).
  rewrite <- (@checkWishlistPriceDrops_fold first) in Hfired, Hdelivered, Hstored, Hrows.
  assert (Hiff :
    firedFor (id item) (@checkWishlistPriceDrops first catalog stored)
    <-> JS.lt (liveSellingPrice v) (JS.or (variantSellingPrice pd) (price pd)) = true).
  { rewrite Hfired, Hrun.
    destruct (JS.lt (liveSellingPrice v) (JS.or (variantSellingPrice pd) (price pd))).
    - split; [reflexivity | eauto].
    - split; [intros [x Hx]; discriminate | discriminate]. }
  split; [exact Hiff|]. split.
  - intros live cached Hlive Hcached. rewrite Hiff, Hlive, Hcached.
    apply Qltb_lt.
  - intros Hdel. apply Hdelivered in Hdel as (a & pd' & Hc & Hsent).
    destruct (JS.lt (liveSellingPrice v) (JS.or (variantSellingPrice pd) (price pd)))
      eqn:Hlt; rewrite Hc in Hrun; [|discriminate].
    injection Hrun as -> ->.
    assert (Hrow : rowAfter (priceDropFor catalog) (@sendPriceDropAlert first) item
                   = withSnapshot item (withPrice pd (liveSellingPrice v))).
    { unfold rowAfter. by rewrite Hc, Hsent. }
    rewrite Hrow in Hstored, Hrows.
    split.
    + exists (withSnapshot item (withPrice pd (liveSellingPrice v))).
      split; [exact Hstored|]. split; [reflexivity|].
      exists (withPrice pd (liveSellingPrice v)). auto.
    + rewrite (@checkWishlistPriceDrops_fold second).
      rewrite firedFor_fold by reflexivity.
      intros (w & Hw & Hid & Hsome).
      rewrite (Hrows w Hw Hid) in Hsome.
      rewrite (priceDropFor_after catalog item pd cust product v Ho Hp Hv) in Hsome.
      by destruct Hsome.
Qed.

(** *** The back-in-stock check *)

Lemma backInStockFor_some (V newStock : Q) (item : wishlistItem)
    (a : backInStockAlert) (pd' : productData) :
  backInStockFor V newStock item = Some (a, pd') ->
  exists pd cust,
    snapshot item = Some pd /\ owner item = Some cust
    /\ (JS.orZero (variantIndex pd) == V)%Q
    /\ (JS.orZero (variantStockQuantity pd) == 0)%Q
    /\ (0 < newStock)%Q
    /\ stockQuantity a = newStock
    /\ pd' = withStock pd newStock.
Proof.
  unfold backInStockFor.
  destruct (snapshot item) as [pd|]; [|discriminate].
  destruct (owner item) as [cust|]; [|discriminate].
  destruct (Qeq_bool (JS.orZero (variantIndex pd)) V) eqn:Hidx; [|discriminate].
  simpl.
  destruct (Qeq_bool (JS.orZero (variantStockQuantity pd)) 0) eqn:Hzero; [|discriminate].
  destruct (JS.Qltb 0 newStock) eqn:Hpos; [|discriminate].
  simpl. intros [= <- <-]. exists pd, cust.
  repeat split; try reflexivity.
  - by apply Qeq_bool_iff.
  - by apply Qeq_bool_iff.
  - by apply Qltb_lt.
Qed.

Lemma backInStockFor_fires (V newStock : Q) (item : wishlistItem)
    (pd : productData) (cust : customer) :
  snapshot item = Some pd -> owner item = Some cust ->
  (JS.orZero (variantIndex pd) == V)%Q ->
  (JS.orZero (variantStockQuantity pd) == 0)%Q ->
  (0 < newStock)%Q ->
  backInStockFor V newStock item
  = Some ({| stockUser := userId cust;
             stockProductName :=
               JS.orString (JS.orString (productName pd) (variantName pd))
                           (Some "Product");
             stockQuantity := newStock;
             stockProductId := productId item |},
          withStock pd newStock).
Proof.
  intros Hs Ho Hidx Hzero Hpos. unfold backInStockFor. rewrite Hs, Ho.
  apply Qeq_bool_iff in Hidx, Hzero. apply Qltb_lt in Hpos.
  cbv zeta. rewrite Hidx, Hzero, Hpos. reflexivity.
Qed.

Lemma examined (pid : string) (stored : list wishlistItem) (item : wishlistItem) :
  item ∈ stored -> productId item = pid ->
  item ∈ List.filter (fun w => String.eqb (productId w) pid) stored.
Proof.
  intros Hin Hpid. apply list_elem_of_In, filter_In.
  split; [by apply list_elem_of_In | by apply String.eqb_eq].
Qed.

Lemma examined_stored (pid : string) (stored : list wishlistItem) (w : wishlistItem) :
  w ∈ List.filter (fun w => String.eqb (productId w) pid) stored -> w ∈ stored.
Proof.
  intros Hw. apply list_elem_of_In. apply list_elem_of_In, filter_In in Hw. tauto.
Qed.

(** C7. For a wishlist item examined by the back-in-stock check for
    product [pid], variant index [V] and new stock [newStock]: an alert is
    sent only when the cached variant index equals [V], the cached stock
    was exactly zero ([previousStock === 0]: a recorded stock is zero) and
    [newStock] is greater than zero; when the alert
    has been delivered the cached stock is [newStock]; a cached stock of 3
    with a new stock of 5 sends nothing, and neither does a different
    variant index, whatever the stocks. *)
Theorem back_in_stock_only_from_zero `{Notifier}
    (pid : string) (V newStock : Q)
    (stored : list wishlistItem) (item : wishlistItem) :
  NoDup (id <$> stored) ->
  item ∈ stored ->
  productId item = pid ->
  (firedFor (id item) (checkWishlistBackInStock pid V newStock stored) ->
   exists pd,
     snapshot item = Some pd
     /\ (JS.orZero (variantIndex pd) == V)%Q
     /\ (JS.orZero (variantStockQuantity pd) == 0)%Q
     /\ (forall stock, variantStockQuantity pd = JS.Number stock -> (stock == 0)%Q)
     /\ (0 < newStock)%Q)
  /\ (deliveredFor (id item) (checkWishlistBackInStock pid V newStock stored) ->
      exists item' pd',
        item' ∈ table (checkWishlistBackInStock pid V newStock stored)
        /\ id item' = id item
        /\ snapshot item' = Some pd'
        /\ variantStockQuantity pd' = JS.Number newStock)
  /\ (forall pd,
        snapshot item = Some pd ->
        variantStockQuantity pd = JS.Number 3 ->
        ~ firedFor (id item) (checkWishlistBackInStock pid V 5 stored))
  /\ (forall pd,
        snapshot item = Some pd ->
        ~ (JS.orZero (variantIndex pd) == V)%Q ->
        ~ firedFor (id item) (checkWishlistBackInStock pid V newStock stored)).
Proof.
  intros Hnd Hitem Hpid.
  assert (Hsweep : forall q,
    let r := checkWishlistBackInStock pid V q stored in
    (firedFor (id item) r <-> is_Some (backInStockFor V q item))
    /\ (deliveredFor (id item) r
        <-> exists a pd, backInStockFor V q item = Some (a, pd)
                         /\ sendBackInStockAlert a = true)
    /\ rowAfter (backInStockFor V q) sendBackInStockAlert item ∈ table r
    /\ (forall w, w ∈ table r -> id w = id item ->
          w = rowAfter (backInStockFor V q) sendBackInStockAlert item)).
  { intros q r. unfold r. rewrite checkWishlistBackInStock_fold.
    apply sweep_item.
    - exact Hnd.
    - by apply NoDup_fmap_filter.
    - apply examined_stored.
    - by apply examined. }
  split; [|split; [|split]].
  - intros Hf. apply (Hsweep newStock) in Hf as [[a pd'] Hc].
    apply backInStockFor_some in Hc as (pd & cust & Hs & _ & Hidx & Hzero & Hpos & _).
    exists pd. repeat split; try assumption.
    intros stock Hstock. rewrite Hstock in Hzero. simpl in Hzero.
    destruct (Qeq_bool stock 0) eqn:Hq; [by apply Qeq_bool_iff|exact Hzero].
  - intros Hd. destruct (Hsweep newStock) as (_ & Hdel & Hrow & _).
    apply Hdel in Hd as (a & pd' & Hc & Hsent).
    unfold rowAfter in Hrow. rewrite Hc, Hsent in Hrow.
    apply backInStockFor_some in Hc as (pd & cust & _ & _ & _ & _ & _ & _ & ->).
    exists (withSnapshot item (withStock pd newStock)), (withStock pd newStock).
    auto.
  - intros pd Hs Hstock Hf. apply (Hsweep 5%Q) in Hf as [[a pd'] Hc].
    apply backInStockFor_some in Hc as (pd0 & cust & Hs0 & _ & _ & Hzero & _).
    rewrite Hs in Hs0. injection Hs0 as <-. rewrite Hstock in Hzero.
    vm_compute in Hzero. discriminate.
  - intros pd Hs Hidx Hf. apply (Hsweep newStock) in Hf as [[a pd'] Hc].
    apply backInStockFor_some in Hc as (pd0 & cust & Hs0 & _ & Hidx0 & _).
    rewrite Hs in Hs0. injection Hs0 as <-. by apply Hidx.
Qed.

(** C10. An item whose snapshot has no stock quantity (absent or [null])
    is treated as having had stock zero: with the matching variant index
    and a new stock greater than zero, the alert is sent, and once it has
    been delivered the snapshot holds the new stock. *)
Theorem back_in_stock_missing_stock_counts_as_zero `{Notifier}
    (pid : string) (V newStock : Q)
    (stored : list wishlistItem) (item : wishlistItem)
    (pd : productData) (cust : customer) :
  NoDup (id <$> stored) ->
  item ∈ stored ->
  productId item = pid ->
  snapshot item = Some pd ->
  owner item = Some cust ->
  variantStockQuantity pd = JS.Undefined \/ variantStockQuantity pd = JS.Null ->
  (JS.orZero (variantIndex pd) == V)%Q ->
  (0 < newStock)%Q ->
  (JS.orZero (variantStockQuantity pd) == 0)%Q
  /\ firedFor (id item) (checkWishlistBackInStock pid V newStock stored)
  /\ (deliveredFor (id item) (checkWishlistBackInStock pid V newStock stored)
      <-> sendBackInStockAlert
            {| stockUser := userId cust;
               stockProductName :=
                 JS.orString (JS.orString (productName pd) (variantName pd))
                             (Some "Product");
               stockQuantity := newStock;
               stockProductId := productId item |} = true)
  /\ (deliveredFor (id item) (checkWishlistBackInStock pid V newStock stored) ->
      withSnapshot item (withStock pd newStock)
        ∈ table (checkWishlistBackInStock pid V newStock stored)
      /\ variantStockQuantity (withStock pd newStock) = JS.Number newStock).
Proof.
  intros Hnd Hitem Hpid Hs Ho Hmissing Hidx Hpos.
  assert (Hzero : (JS.orZero (variantStockQuantity pd) == 0)%Q).
  { destruct Hmissing as [-> | ->]; reflexivity. }
  pose proof (backInStockFor_fires V newStock item pd cust Hs Ho Hidx Hzero Hpos)
    as Hc.
  destruct (sweep_item (backInStockFor V newStock) sendBackInStockAlert
              stored (List.filter (fun w => String.eqb (productId w) pid) stored)
              item Hnd (NoDup_fmap_filter _ _ _ Hnd) (examined_stored pid stored)
              (examined pid stored item Hitem Hpid))
    as (Hfired & Hdelivered & Hrow & _).
  rewrite <- checkWishlistBackInStock_fold in Hfired, Hdelivered, Hrow.
  split; [exact Hzero|]. split; [|split].
  - apply Hfired. rewrite Hc. eauto.
  - rewrite Hdelivered, Hc. split.
    + by intros (a & pd' & [= <- <-] & Hsent).
    + intros Hsent. eauto.
  - intros Hd. apply Hdelivered in Hd as (a & pd' & Hc' & Hsent).
    unfold rowAfter in Hrow. rewrite Hc', Hsent in Hrow.
    rewrite Hc in Hc'. injection Hc' as <- <-. auto.
Qed.

(** *** The properties on the sample data *)

Import WishlistFixtures.

Lemma price_drop_witness :
  firedFor "w1" (checkWishlistPriceDrops catalog [outOfStock])
  /\ ~ firedFor "w1"
         (checkWishlistPriceDrops catalog
            (table (checkWishlistPriceDrops catalog [outOfStock]))).
Proof.
  destruct (price_drop_alert_iff_lower_then_silent
              alwaysDelivers alwaysDelivers catalog [outOfStock] outOfStock
              (cached (JS.Number 100) (JS.Number 0)) dave
              {| onlineProductId := "p1"; onlineProductName := Some "Kettle";
                 variants := Some [Some {| liveSellingPrice := JS.Number 80 |}] |}
              {| liveSellingPrice := JS.Number 80 |}
              (NoDup_singleton _) (list_elem_of_here _ _)
              eq_refl eq_refl eq_refl eq_refl)
    as (Hfired & _ & Hafter).
  split.
  - apply Hfired. reflexivity.
  - apply Hafter. eexists. apply list_elem_of_here.
Defined.

Lemma back_in_stock_witness :
  ~ firedFor "w2" (checkWishlistBackInStock "p1" 0 5 [inStock]).
Proof.
  destruct (back_in_stock_only_from_zero "p1" 0 5 [inStock] inStock
              (NoDup_singleton _) (list_elem_of_here _ _) eq_refl)
    as (_ & _ & Hthree & _).
  apply (Hthree (cached (JS.Number 100) (JS.Number 3))); reflexivity.
Defined.

Lemma back_in_stock_missing_stock_witness :
  firedFor "w3" (checkWishlistBackInStock "p1" 0 5 [neverCounted])
  /\ withSnapshot neverCounted
       (withStock (cached (JS.Number 100) JS.Undefined) 5)
     ∈ table (checkWishlistBackInStock "p1" 0 5 [neverCounted]).
Proof.
  destruct (back_in_stock_missing_stock_counts_as_zero "p1" 0 5
              [neverCounted] neverCounted
              (cached (JS.Number 100) JS.Undefined) dave
              (NoDup_singleton _) (list_elem_of_here _ _) eq_refl
              eq_refl eq_refl (or_introl eq_refl) eq_refl eq_refl)
    as (_ & Hfired & Hdelivered & Hstored).
  split; [exact Hfired|].
  apply Hstored. apply Hdelivered. reflexivity.
Defined.

End WishlistAlertsProofs.

(** ** Expense numbers *)

Module ExpensesProofs.
Import Expenses.

Lemma filter_nil_iff {A} (p : A -> bool) (l : list A) :
  List.filter p l = [] <-> forall x, x ∈ l -> p x = false.
Proof.
  induction l as [|a l IH]; simpl.
  - split; [intros _ x Hx; inversion Hx | reflexivity].
  - destruct (p a) eqn:Ha.
    + split; [discriminate|]. intros Hall.
      rewrite (Hall a) in Ha by constructor. discriminate.
    + rewrite IH. split.
      * intros Hall x Hx. apply elem_of_cons in Hx as [->|Hx]; auto.
      * intros Hall x Hx. apply Hall. by constructor.
Qed.

(** No expense of the year: [findFirst] returns nothing. *)
Lemma latestExpense_none (Y : Z) (store : list expense) :
  latestExpense Y store = None
  <-> forall e, e ∈ store -> JS.startsWith (expenseNumber e) (yearPrefix Y) = false.
Proof.
  unfold latestExpense. rewrite <- filter_nil_iff. split.
  - intros Hhead. apply (PrismaProofs.orderByDesc_nil createdAt).
    by destruct (Prisma.orderByDesc createdAt _).
  - by intros ->.
Qed.

(** Otherwise it returns an expense of the year that no other one of the
    year was created after. *)
Lemma latestExpense_some (Y : Z) (store : list expense) (latest : expense) :
  latestExpense Y store = Some latest ->
  latest ∈ store
  /\ JS.startsWith (expenseNumber latest) (yearPrefix Y) = true
  /\ forall e, e ∈ store ->
       JS.startsWith (expenseNumber e) (yearPrefix Y) = true ->
       (createdAt e <= createdAt latest)%Z.
Proof.
  unfold latestExpense. intros Hhead.
  set (p := fun e => JS.startsWith (expenseNumber e) (yearPrefix Y)) in *.
  destruct (PrismaProofs.orderByDesc_head createdAt (List.filter p store))
    as (x & Hx & Hin & Hmax).
  { intros Hnil. rewrite Hnil in Hhead. discriminate. }
  rewrite Hx in Hhead. injection Hhead as ->.
  apply list_elem_of_In, filter_In in Hin as [Hin Hp].
  split; [by apply list_elem_of_In|]. split; [exact Hp|].
  intros e He Hpe. apply Hmax. apply list_elem_of_In, filter_In.
  split; [by apply list_elem_of_In|exact Hpe].
Qed.

Lemma generate_first (Y : Z) (store : list expense) :
  latestExpense Y store = None ->
  generateExpenseNumber Y store = yearPrefix Y +:+ "001".
Proof. intros Hnone. unfold generateExpenseNumber. by rewrite Hnone. Qed.

Lemma generate_next (Y : Z) (store : list expense) (latest : expense) (n : Z) :
  latestExpense Y store = Some latest ->
  lastNumber (expenseNumber latest) = Some n ->
  generateExpenseNumber Y store
  = yearPrefix Y +:+ JS.padStart 3 "0" (JS.toString (n + 1)).
Proof.
  intros Hlatest Hn. unfold generateExpenseNumber. by rewrite Hlatest, Hn.
Qed.

Lemma append_assoc (a b c : string) : (a +:+ b) +:+ c = a +:+ (b +:+ c).
Proof.
  induction a as [|x a IH]; [reflexivity|].
  change (String x ((a +:+ b) +:+ c) = String x (a +:+ (b +:+ c))).
  by rewrite IH.
Qed.

Lemma padStart_digits (n : nat) (s : string) :
  forallb JS.isDigit (list_ascii_of_string s) = true ->
  forallb JS.isDigit (list_ascii_of_string (JS.padStart n "0" s)) = true.
Proof.
  intros Hs. unfold JS.padStart.
  induction (n - String.length s)%nat as [|k IH]; [exact Hs|].
  change (JS.repeatChar (S k) "0" +:+ s) with (String "0" (JS.repeatChar k "0" +:+ s)).
  simpl. exact IH.
Qed.

(** The shape of a number of year [Y]: three parts, the year in the middle. *)
Lemma split_year (Y : Z) (t : string) :
  (0 <= Y)%Z ->
  JS.split "-" (yearPrefix Y +:+ t) = "EXP" :: JS.toString Y :: JS.split "-" t.
Proof.
  intros HY. unfold yearPrefix.
  change ("EXP-" +:+ JS.toString Y +:+ "-")
    with ("EXP" +:+ String "-" (JS.toString Y +:+ "-")).
  rewrite append_assoc.
  change (String "-" (JS.toString Y +:+ "-") +:+ t)
    with (String "-" ((JS.toString Y +:+ "-") +:+ t)).
  rewrite JSProofs.split_first by reflexivity.
  rewrite append_assoc.
  change ("-" +:+ t) with (String "-" t).
  rewrite JSProofs.split_first; [reflexivity|].
  by apply JSProofs.digits_no_hyphen, JSProofs.toString_digits.
Qed.

(** The number read from a generated expense number is the one written. *)
Lemma lastNumber_generated (Y m : Z) :
  (0 <= Y)%Z -> (0 <= m)%Z ->
  lastNumber (yearPrefix Y +:+ JS.padStart 3 "0" (JS.toString m)) = Some m.
Proof.
  intros HY Hm. unfold lastNumber. rewrite (split_year Y _ HY).
  rewrite JSProofs.split_whole.
  - simpl. by apply JSProofs.parseInt_padStart_toString.
  - by apply JSProofs.digits_no_hyphen, padStart_digits, JSProofs.toString_digits.
Qed.

Lemma lastNumber_nonneg (s : string) (n : Z) :
  lastNumber s = Some n -> (0 <= n)%Z.
Proof.
  unfold lastNumber.
  destruct (JS.split "-" s !! 2%nat) as [part|] eqn:Hpart; [|discriminate].
  apply JSProofs.parseInt_nonneg, (JSProofs.split_parts "-" s).
  by apply list_elem_of_lookup_2 in Hpart.
Qed.

(** A number of another year does not start with the prefix of this one. *)
Lemma other_year (Y Y' : Z) (t : string) :
  (0 <= Y)%Z -> (0 <= Y')%Z -> Y' <> Y ->
  JS.startsWith (yearPrefix Y' +:+ t) (yearPrefix Y) = false.
Proof.
  intros HY HY' Hne. apply not_true_is_false. intros Hp. apply Hne.
  unfold JS.startsWith, yearPrefix in Hp.
  rewrite !append_assoc in Hp.
  change ("EXP-" +:+ JS.toString Y +:+ "-")
    with (String "E" (String "X" (String "P" (String "-" (JS.toString Y +:+ "-")))))
    in Hp.
  change ("EXP-" +:+ JS.toString Y' +:+ "-" +:+ t)
    with (String "E" (String "X" (String "P" (String "-"
            (JS.toString Y' +:+ String "-" t))))) in Hp.
  rewrite !JSProofs.prefix_cons in Hp. simpl in Hp.
  symmetry. apply JSProofs.toString_inj; [exact HY|exact HY'|].
  apply (JSProofs.digits_prefix_eq _ _ t);
    [by apply JSProofs.toString_digits..|exact Hp].
Qed.

Lemma year_prefix_matches (Y : Z) (t : string) :
  JS.startsWith (yearPrefix Y +:+ t) (yearPrefix Y) = true.
Proof. apply JSProofs.prefix_append. Qed.

(** *** A year of expenses *)

Lemma numbered_snoc (Y : Z) (times : list Z) (t : Z) :
  numbered Y (times ++ [t])
  = numbered Y times
    ++ [ {| expenseNumber :=
              yearPrefix Y
              +:+ JS.padStart 3 "0" (JS.toString (Z.of_nat (S (length times))));
            createdAt := t |} ].
Proof.
  unfold numbered. rewrite imap_app. simpl.
  by rewrite Nat.add_0_r.
Qed.

Lemma numbered_elem (Y : Z) (times : list Z) (e : expense) :
  e ∈ numbered Y times ->
  JS.startsWith (expenseNumber e) (yearPrefix Y) = true
  /\ createdAt e ∈ times.
Proof.
  unfold numbered. intros He.
  apply list_elem_of_lookup in He as [i Hi].
  rewrite list_lookup_imap in Hi.
  destruct (times !! i) as [t|] eqn:Ht; [|discriminate].
  injection Hi as <-. simpl. split; [apply year_prefix_matches|].
  by apply list_elem_of_lookup_2 in Ht.
Qed.

Lemma numbered_lookup (Y : Z) (times : list Z) (i : nat) (e : expense) :
  (0 <= Y)%Z ->
  numbered Y times !! i = Some e ->
  lastNumber (expenseNumber e) = Some (Z.of_nat i + 1)%Z
  /\ times !! i = Some (createdAt e).
Proof.
  intros HY. unfold numbered. rewrite list_lookup_imap.
  destruct (times !! i) as [t|]; [|discriminate].
  intros [= <-]. simpl. split; [|reflexivity].
  rewrite lastNumber_generated by lia. f_equal. lia.
Qed.

Lemma increasing_snoc (times : list Z) (t : Z) :
  increasing (times ++ [t]) ->
  increasing times /\ forall x, x ∈ times -> (x < t)%Z.
Proof.
  intros Hinc. split.
  - intros i j x y Hij Hi Hj.
    apply (Hinc i j x y Hij); by apply lookup_app_l_Some.
  - intros x Hx. apply list_elem_of_lookup in Hx as [i Hi].
    apply (Hinc i (length times) x t).
    + by apply lookup_lt_Some in Hi.
    + by apply lookup_app_l_Some.
    + by rewrite list_lookup_middle.
Qed.

(** Expenses created one after the other in a year that had none are
    numbered 1, 2, 3, ... *)
Lemma createMany_numbered (Y : Z) (times : list Z) (store : list expense) :
  (0 <= Y)%Z ->
  (forall e, e ∈ store -> JS.startsWith (expenseNumber e) (yearPrefix Y) = false) ->
  increasing times ->
  createMany Y times store = store ++ numbered Y times.
Proof.
  intros HY Hnone.
  induction times as [|t times IH] using rev_ind; intros Hinc.
  - simpl. by rewrite app_nil_r.
  - apply increasing_snoc in Hinc as [Hinc Hbelow].
    unfold createMany in *. rewrite fold_left_app. simpl.
    rewrite (IH Hinc). unfold createExpense.
    rewrite numbered_snoc, app_assoc. do 3 f_equal.
    destruct times as [|t0 times0 _] using rev_ind.
    + rewrite app_nil_r. rewrite generate_first; [reflexivity|].
      by apply latestExpense_none.
    + set (rows := store ++ numbered Y (times0 ++ [t0])).
      set (newest := {| expenseNumber :=
                          yearPrefix Y
                          +:+ JS.padStart 3 "0"
                                (JS.toString (Z.of_nat (S (length times0))));
                        createdAt := t0 |}).
      assert (Hnewest : newest ∈ rows).
      { unfold rows. rewrite numbered_snoc.
        apply elem_of_app; right. apply elem_of_app; right. constructor. }
      destruct (latestExpense Y rows) as [latest|] eqn:Hlatest.
      2:{ rewrite latestExpense_none in Hlatest.
          specialize (Hlatest newest Hnewest).
          change (expenseNumber newest)
            with (yearPrefix Y
                  +:+ JS.padStart 3 "0" (JS.toString (Z.of_nat (S (length times0)))))
            in Hlatest.
          rewrite year_prefix_matches in Hlatest. discriminate. }
      destruct (latestExpense_some Y rows latest Hlatest) as (Hin & Hp & Hmax).
      assert (Hsame : latest = newest).
      { specialize (Hmax newest Hnewest (year_prefix_matches Y _)). simpl in Hmax.
        unfold rows in Hin. rewrite numbered_snoc in Hin.
        apply elem_of_app in Hin as [Hin|Hin].
        - rewrite (Hnone latest Hin) in Hp. discriminate.
        - apply elem_of_app in Hin as [Hin|Hin].
          + apply numbered_elem in Hin as [_ Hin].
            apply increasing_snoc in Hinc as [_ Hbelow0].
            specialize (Hbelow0 _ Hin). lia.
          + by apply list_elem_of_singleton in Hin. }
      rewrite (generate_next Y rows latest (Z.of_nat (S (length times0))) Hlatest).
      * rewrite length_app. simpl. do 3 f_equal. lia.
      * rewrite Hsame. simpl. apply lastNumber_generated; lia.
Qed.

(** A row of the year that is later than the others of the year is the
    latest. *)
Lemma latestExpense_appended (Y : Z) (rows : list expense) (e : expense) :
  JS.startsWith (expenseNumber e) (yearPrefix Y) = true ->
  (forall r, r ∈ rows ->
     JS.startsWith (expenseNumber r) (yearPrefix Y) = true ->
     (createdAt r < createdAt e)%Z) ->
  latestExpense Y (rows ++ [e]) = Some e.
Proof.
  intros He Hbelow.
  assert (Hin : e ∈ rows ++ [e]) by (apply elem_of_app; right; constructor).
  destruct (latestExpense Y (rows ++ [e])) as [latest|] eqn:Hlatest.
  - destruct (latestExpense_some Y _ latest Hlatest) as (Hl & Hp & Hmax).
    apply elem_of_app in Hl as [Hl|Hl].
    + specialize (Hmax e Hin He). specialize (Hbelow latest Hl Hp). lia.
    + by apply list_elem_of_singleton in Hl as ->.
  - rewrite latestExpense_none in Hlatest.
    rewrite (Hlatest e Hin) in He. discriminate.
Qed.

(** C8. The number generated for year [Y] is [EXP-Y-001] when the store
    holds no expense numbered for [Y].  Otherwise the year-[Y] expense
    created last decides: when the counter [n] read from it leaves
    [n + 1] below 2^53, where the sum of the doubles is the exact one, the
    number is [EXP-Y-] followed by [n + 1], padded with zeros to three
    digits, and [n + 1] is read back from it.  When moreover the expense
    created last holds the greatest counter of the year, the new counter
    exceeds every counter of the year, and the expense created under it at
    a later time is the latest of the year and holds the greatest counter
    in turn.  Fewer than 2^53 expenses created one after the other in a
    year that had none are numbered 1, 2, 3, ..., and a new year starts
    again at [001], since the numbers of other years do not carry its
    prefix. *)
Theorem expense_numbers_count_up_within_a_year (Y : Z) (store : list expense) :
  (0 <= Y)%Z ->
  ((forall e, e ∈ store ->
      JS.startsWith (expenseNumber e) (yearPrefix Y) = false) ->
   generateExpenseNumber Y store = "EXP-" +:+ JS.toString Y +:+ "-001")
  /\ (forall e, e ∈ store ->
        JS.startsWith (expenseNumber e) (yearPrefix Y) = true ->
        exists latest,
          latestExpense Y store = Some latest
          /\ latest ∈ store
          /\ JS.startsWith (expenseNumber latest) (yearPrefix Y) = true
          /\ (forall e', e' ∈ store ->
                JS.startsWith (expenseNumber e') (yearPrefix Y) = true ->
                (createdAt e' <= createdAt latest)%Z)
          /\ forall n,
               lastNumber (expenseNumber latest) = Some n ->
               (n + 1 < 2 ^ 53)%Z ->
               JS.isDouble (inject_Z n)
               /\ (JS.fadd (inject_Z n) 1 == inject_Z (n + 1))%Q
               /\ generateExpenseNumber Y store
                  = "EXP-" +:+ JS.toString Y +:+ "-"
                    +:+ JS.padStart 3 "0" (JS.toString (n + 1))
               /\ (3 <= String.length
                          (JS.padStart 3 "0" (JS.toString (n + 1))))%nat
               /\ lastNumber (generateExpenseNumber Y store) = Some (n + 1)%Z
               /\ ((forall e' m, e' ∈ store ->
                      JS.startsWith (expenseNumber e') (yearPrefix Y) = true ->
                      lastNumber (expenseNumber e') = Some m -> (m <= n)%Z) ->
                   (forall e' m, e' ∈ store ->
                      JS.startsWith (expenseNumber e') (yearPrefix Y) = true ->
                      lastNumber (expenseNumber e') = Some m ->
                      (m < n + 1)%Z)
                   /\ forall now, (createdAt latest < now)%Z ->
                        let created :=
                          {| expenseNumber := generateExpenseNumber Y store;
                             createdAt := now |} in
                        latestExpense Y (createExpense Y now store)
                        = Some created
                        /\ forall e' m, e' ∈ createExpense Y now store ->
                             JS.startsWith (expenseNumber e') (yearPrefix Y)
                             = true ->
                             lastNumber (expenseNumber e') = Some m ->
                             (m <= n + 1)%Z))
  /\ (forall times,
        (forall e, e ∈ store ->
           JS.startsWith (expenseNumber e) (yearPrefix Y) = false) ->
        increasing times ->
        (Z.of_nat (length times) < 2 ^ 53)%Z ->
        createMany Y times store = store ++ numbered Y times
        /\ forall i e,
             numbered Y times !! i = Some e ->
             lastNumber (expenseNumber e) = Some (Z.of_nat i + 1)%Z)
  /\ (forall Y' t,
        (0 <= Y')%Z -> Y' <> Y ->
        JS.startsWith (yearPrefix Y' +:+ t) (yearPrefix Y) = false).
Proof.
  intros HY. split; [|split; [|split]].
  - intros Hnone. rewrite generate_first by by apply latestExpense_none.
    unfold yearPrefix. by rewrite !append_assoc.
  - intros e He Hp.
    destruct (latestExpense Y store) as [latest|] eqn:Hlatest.
    2:{ rewrite latestExpense_none in Hlatest.
        rewrite (Hlatest e He) in Hp. discriminate. }
    exists latest. split; [reflexivity|].
    destruct (latestExpense_some Y store latest Hlatest) as (Hin & Hpl & Hmax).
    split; [exact Hin|]. split; [exact Hpl|]. split; [exact Hmax|].
    intros n Hn Hbound.
    pose proof (lastNumber_nonneg _ _ Hn) as Hpos.
    assert (Hgen : generateExpenseNumber Y store
                   = yearPrefix Y +:+ JS.padStart 3 "0" (JS.toString (n + 1)))
      by by apply (generate_next Y store latest n).
    assert (Hread : lastNumber (generateExpenseNumber Y store) = Some (n + 1)%Z).
    { rewrite Hgen. apply lastNumber_generated; lia. }
    split; [apply DoubleProofs.roundDouble_int; lia|].
    split; [by apply DoubleProofs.fadd_one|].
    split; [rewrite Hgen; unfold yearPrefix; by rewrite !append_assoc|].
    split; [apply JSProofs.padStart_length|].
    split; [exact Hread|].
    intros Hgreatest. split.
    + intros e' m He' Hp' Hm. specialize (Hgreatest e' m He' Hp' Hm). lia.
    + intros now Hnow created. split.
      * unfold createExpense. fold created. apply latestExpense_appended.
        -- subst created. cbn [expenseNumber]. rewrite Hgen.
           apply year_prefix_matches.
        -- intros r Hr Hpr. subst created. cbn [createdAt].
           specialize (Hmax r Hr Hpr). lia.
      * intros e' m He' Hp' Hm. unfold createExpense in He'.
        apply elem_of_app in He' as [He'|He'].
        -- specialize (Hgreatest e' m He' Hp' Hm). lia.
        -- apply list_elem_of_singleton in He' as ->.
           cbn [expenseNumber] in Hm.
           rewrite Hread in Hm. injection Hm as <-. lia.
  - intros times Hnone Hinc _. split.
    + by apply createMany_numbered.
    + intros i e Hi. by destruct (numbered_lookup Y times i e HY Hi).
  - intros Y' t HY' Hne. by apply other_year.
Qed.

(** *** The property on the sample data *)

Import ExpenseFixtures.

(** The number does not grow in every store.  When the expense created
    last is not the one with the greatest counter, the number generated is
    one that the year already has; when its counter does not start with a
    digit, the number ends in [NaN] and no counter is read back from it;
    and from 2^53 on the sum of the doubles is not the next whole
    number. *)
Lemma expense_number_repeats_or_is_not_a_number :
  (generateExpenseNumber 2024 skewedLedger = "EXP-2024-002"
   /\ latestExpense 2024 skewedLedger
      = Some {| expenseNumber := "EXP-2024-001"; createdAt := 500 |}
   /\ {| expenseNumber := "EXP-2024-002"; createdAt := 100 |} ∈ skewedLedger)
  /\ ~ (forall (Y : Z) (store : list expense) (e : expense) (n m : Z),
          e ∈ store ->
          JS.startsWith (expenseNumber e) (yearPrefix Y) = true ->
          lastNumber (expenseNumber e) = Some n ->
          lastNumber (generateExpenseNumber Y store) = Some m ->
          (n < m)%Z)
  /\ (generateExpenseNumber 2024 brokenLedger = "EXP-2024-NaN"
      /\ lastNumber (generateExpenseNumber 2024 brokenLedger) = None)
  /\ (JS.fadd (inject_Z (2 ^ 53)) 1 == inject_Z (2 ^ 53))%Q.
Proof.
  split; [|split; [|split]].
  - split; [reflexivity|]. split; [reflexivity|]. apply list_elem_of_here.
  - intros Hall.
    specialize (Hall 2024%Z skewedLedger
                  {| expenseNumber := "EXP-2024-002"; createdAt := 100 |}
                  2%Z 2%Z (list_elem_of_here _ _) eq_refl eq_refl eq_refl).
    lia.
  - split; reflexivity.
  - vm_compute. reflexivity.
Qed.

Lemma expense_number_witness :
  generateExpenseNumber 2024 ledger = "EXP-2024-003"
  /\ generateExpenseNumber 2025 ledger = "EXP-2025-001".
Proof.
  split.
  - destruct (expense_numbers_count_up_within_a_year 2024 ledger ltac:(lia))
      as (_ & Hnext & _).
    destruct (Hnext {| expenseNumber := "EXP-2024-001"; createdAt := 500 |}
                ltac:(apply list_elem_of_further, list_elem_of_here) eq_refl)
      as (latest & Hlatest & _ & _ & _ & Hgen).
    vm_compute in Hlatest. injection Hlatest as <-.
    exact (proj1 (proj2 (proj2 (Hgen 2%Z eq_refl eq_refl)))).
  - destruct (expense_numbers_count_up_within_a_year 2025 ledger ltac:(lia))
      as (Hfirst & _).
    apply Hfirst. intros e He.
    repeat (apply elem_of_cons in He as [->|He]; [reflexivity|]).
    inversion He.
Defined.

End ExpensesProofs.

(** * Further properties of the modelled code *)

(** ** One-time codes *)

Module OtpProofs.
Import MobileAuth DoubleProofs Fixtures.

(** The numeral of a positive number has no leading zero. *)
Lemma to_uint_normal (p : positive) :
  Decimal.unorm (Pos.to_uint p) = Pos.to_uint p.
Proof.
  rewrite <- (DecimalPos.Unsigned.to_of (Pos.to_uint p)).
  by rewrite DecimalPos.Unsigned.of_to.
Qed.

Lemma string_of_uint_length (d : Decimal.uint) :
  String.length (NilEmpty.string_of_uint d) = Decimal.nb_digits d.
Proof. induction d; simpl; congruence. Qed.

(** Reading [d] after [acc] gives a number with [acc] in front of
    [nb_digits d] further digits. *)
Lemma of_uint_acc_bounds (d : Decimal.uint) (acc : positive) :
  (Z.pos acc * 10 ^ Z.of_nat (Decimal.nb_digits d)
   <= Z.pos (Pos.of_uint_acc d acc)
   < (Z.pos acc + 1) * 10 ^ Z.of_nat (Decimal.nb_digits d))%Z.
Proof.
  revert acc.
  induction d as [|d IH|d IH|d IH|d IH|d IH|d IH|d IH|d IH|d IH|d IH];
    intros acc; [simpl; lia|..];
    cbn [Pos.of_uint_acc Decimal.nb_digits];
    rewrite Nat2Z.inj_succ, Z.pow_succ_r by lia;
    match goal with
    | |- context [Pos.of_uint_acc _ ?a] => specialize (IH a)
    end;
    assert (0 < 10 ^ Z.of_nat (Decimal.nb_digits d))%Z
      by (apply Z.pow_pos_nonneg; lia);
    nia.
Qed.

(** A number with six digits is written with six characters. *)
Lemma toString_six (z : Z) :
  (100000 <= z <= 999999)%Z ->
  String.length (JS.toString z) = 6%nat
  /\ forallb JS.isDigit (list_ascii_of_string (JS.toString z)) = true.
Proof.
  intros Hz. split; [|apply JSProofs.toString_digits; lia].
  destruct z as [|p|p]; [lia| |lia].
  unfold JS.toString. simpl.
  pose proof (to_uint_normal p) as Hnorm.
  pose proof (DecimalPos.Unsigned.of_to p) as Hval.
  pose proof (DecimalPos.Unsigned.to_uint_nonnil p) as Hnil.
  destruct (Pos.to_uint p) as [|d|d|d|d|d|d|d|d|d|d] eqn:Hd; [congruence|..].
  1:{ (* a leading zero is not normal *)
    exfalso. rewrite DecimalFacts.unorm_D0 in Hnorm.
    destruct d as [|d|d|d|d|d|d|d|d|d|d];
      [simpl in Hval; lia | ..];
      match goal with
      | H : Decimal.unorm ?u = Decimal.D0 ?u |- _ =>
          pose proof (DecimalFacts.nb_digits_unorm u ltac:(discriminate)) as Hlen;
          rewrite H in Hlen; simpl in Hlen; lia
      end. }
  all: cbn [NilZero.string_of_uint NilEmpty.string_of_uint String.length];
       rewrite string_of_uint_length;
       cbn [Pos.of_uint] in Hval; injection Hval as Hval;
       match goal with
       | H : Pos.of_uint_acc ?d0 ?k = _ |- _ =>
           pose proof (of_uint_acc_bounds d0 k) as Hb; rewrite H in Hb
       end;
       assert (Hn : (Decimal.nb_digits d = 5)%nat);
       [|by rewrite Hn];
       destruct (Nat.lt_trichotomy (Decimal.nb_digits d) 5) as [Hlt|[Heq|Hgt]];
       [exfalso|exact Heq|exfalso].
  all: try (assert (10 ^ Z.of_nat (Decimal.nb_digits d) <= 10 ^ 4)%Z
              by (apply Z.pow_le_mono_r; lia); lia).
  all: try (assert (10 ^ 6 <= 10 ^ Z.of_nat (Decimal.nb_digits d))%Z
              by (apply Z.pow_le_mono_r; lia); lia).
Qed.

Lemma generateOTP_range (r : Q) :
  JS.isDouble r -> (0 <= r)%Q -> (r < 1)%Q ->
  (100000 <= Qfloor (JS.fadd 100000 (JS.fmul r 900000)) <= 999999)%Z.
Proof.
  intros Hd Hlo Hhi.
  pose proof (isDouble_below_one r Hd Hlo Hhi) as Hmax.
  assert (Hprod : (0 <= r * 900000)%Q)
    by (apply Qmult_le_0_compat; [exact Hlo|discriminate]).
  assert (Hmul0 : (0 <= JS.fmul r 900000)%Q) by (by apply roundDouble_nonneg).
  assert (Hmul1 : (JS.fmul r 900000
                   <= JS.roundDouble ((1 - (1 # 9007199254740992)) * 900000))%Q).
  { apply roundDouble_mono; [exact Hprod|].
    apply Qmult_le_compat_r; [exact Hmax|discriminate]. }
  assert (Hsum0 : (0 <= 100000 + JS.fmul r 900000)%Q).
  { apply Qle_trans with (y := (100000 + 0)%Q); [discriminate|].
    by apply Qplus_le_r. }
  split.
  - change 100000%Z with (Qfloor (JS.roundDouble (100000 + 0))) at 1.
    apply Qfloor_resp_le. apply roundDouble_mono; [discriminate|].
    by apply Qplus_le_r.
  - assert (Hlt : (inject_Z (Qfloor (JS.fadd 100000 (JS.fmul r 900000)))
                   < inject_Z 1000000)%Q).
    { eapply Qle_lt_trans; [apply Qfloor_le|].
      eapply Qle_lt_trans.
      - apply roundDouble_mono; [exact Hsum0|].
        apply Qplus_le_r. exact Hmul1.
      - reflexivity. }
    rewrite <- Zlt_Qlt in Hlt. lia.
Qed.

(** X1. Whatever double [Math.random()] returns (from 0 up to, not
    including, 1), [generateOTP] returns a string of exactly six decimal
    digits, the numeral of a number between 100000 and 999999: the
    greatest double below 1 gives 999999, and rounding the product and the
    sum to doubles keeps their order. *)
Theorem generateOTP_six_digits (r : Q) :
  JS.isDouble r -> (0 <= r)%Q -> (r < 1)%Q ->
  String.length (generateOTP r) = 6%nat
  /\ forallb JS.isDigit (list_ascii_of_string (generateOTP r)) = true
  /\ exists n, (100000 <= n <= 999999)%Z
               /\ generateOTP r = JS.toString n
               /\ JS.parseInt (generateOTP r) = Some n.
Proof.
  intros Hd Hlo Hhi. pose proof (generateOTP_range r Hd Hlo Hhi) as Hrange.
  destruct (toString_six _ Hrange) as [Hlen Hdigits].
  split; [exact Hlen|]. split; [exact Hdigits|].
  exists (Qfloor (JS.fadd 100000 (JS.fmul r 900000))). split; [exact Hrange|].
  split; [reflexivity|].
  apply (JSProofs.parseInt_padStart_toString 0). lia.
Qed.

Lemma generateOTP_six_digits_witness :
  String.length (generateOTP nearestToSevenTenths) = 6%nat
  /\ generateOTP nearestToSevenTenths = "730000".
Proof.
  split; [|reflexivity].
  apply (generateOTP_six_digits nearestToSevenTenths);
    [reflexivity|discriminate|reflexivity].
Defined.

End OtpProofs.

(** ** Regular expressions *)

Module RegexProofs.
Import Regex RegexSpec.

Lemma append_nil_r (s : string) : s +:+ "" = s.
Proof.
  induction s as [|c s IH]; [reflexivity|].
  change (String c s +:+ "") with (String c (s +:+ "")). by rewrite IH.
Qed.

Lemma append_eq_nil (s1 s2 : string) : s1 +:+ s2 = "" -> s1 = "" /\ s2 = "".
Proof.
  destruct s1 as [|c s1].
  - change ("" +:+ s2) with s2. by intros ->.
  - change (String c s1 +:+ s2) with (String c (s1 +:+ s2)). discriminate.
Qed.

Lemma append_eq_cons (s1 s2 s : string) (c : ascii) :
  s1 +:+ s2 = String c s ->
  (s1 = "" /\ s2 = String c s) \/ exists s1', s1 = String c s1' /\ s = s1' +:+ s2.
Proof.
  destruct s1 as [|c1 s1]; [change ("" +:+ s2) with s2; by left|].
  change (String c1 s1 +:+ s2) with (String c1 (s1 +:+ s2)).
  intros [= -> <-]. right. by exists s1.
Qed.

Lemma append_one (c : ascii) (s : string) : String c "" +:+ s = String c s.
Proof. reflexivity. Qed.

Lemma length_append (s1 s2 : string) :
  String.length (s1 +:+ s2) = (String.length s1 + String.length s2)%nat.
Proof.
  induction s1 as [|c s1 IH]; [reflexivity|].
  change (String c s1 +:+ s2) with (String c (s1 +:+ s2)). simpl. by rewrite IH.
Qed.

Lemma allChars_append (p : ascii -> bool) (s1 s2 : string) :
  allChars p (s1 +:+ s2) <-> allChars p s1 /\ allChars p s2.
Proof.
  unfold allChars. induction s1 as [|c s1 IH]; [simpl; tauto|].
  change (String c s1 +:+ s2) with (String c (s1 +:+ s2)). simpl.
  rewrite !andb_true_iff, IH. tauto.
Qed.

Lemma Matches_nullable (r : regex) : Matches r "" <-> nullable r = true.
Proof.
  split.
  - intros Hm. remember "" as s eqn:Hs.
    induction Hm as [ | | r1 r2 s1 s2 _ IH1 _ IH2 | r1 r2 s _ IH | r1 r2 s _ IH | | ];
      simpl; try reflexivity; try discriminate.
    + apply append_eq_nil in Hs as [-> ->]. by rewrite IH1, IH2.
    + by rewrite IH.
    + rewrite IH by done. apply orb_true_r.
  - induction r as [ | | p | r1 IH1 r2 IH2 | r1 IH1 r2 IH2 | r IH ]; simpl;
      try discriminate; intros Hn.
    + constructor.
    + apply andb_true_iff in Hn as [H1 H2].
      change "" with ("" +:+ ""). constructor; auto.
    + apply orb_true_iff in Hn as [H1|H2]; [apply MAltL|apply MAltR]; auto.
    + constructor.
Qed.

Lemma deriv_sound (c : ascii) (r : regex) (s : string) :
  Matches (deriv c r) s -> Matches r (String c s).
Proof.
  revert s. induction r as [ | | p | r1 IH1 r2 IH2 | r1 IH1 r2 IH2 | r IH ];
    intros s; simpl.
  - inversion 1.
  - inversion 1.
  - destruct (p c) eqn:Hp; inversion 1; subst. by constructor.
  - destruct (nullable r1) eqn:Hn.
    + inversion 1 as [ | | | ? ? ? Hl | ? ? ? Hr | | ]; subst.
      * inversion Hl as [ | | ? ? s1 s2 H1 H2 | | | | ]; subst.
        change (String c (s1 +:+ s2)) with (String c s1 +:+ s2).
        constructor; auto.
      * change (String c s) with ("" +:+ String c s).
        constructor; [by apply Matches_nullable | auto].
    + inversion 1 as [ | | ? ? s1 s2 H1 H2 | | | | ]; subst.
      change (String c (s1 +:+ s2)) with (String c s1 +:+ s2).
      constructor; auto.
  - inversion 1; subst; [apply MAltL | apply MAltR]; auto.
  - inversion 1 as [ | | ? ? s1 s2 H1 H2 | | | | ]; subst.
    change (String c (s1 +:+ s2)) with (String c s1 +:+ s2).
    constructor; auto.
Qed.

Lemma deriv_complete (c : ascii) (r : regex) (s : string) :
  Matches r (String c s) -> Matches (deriv c r) s.
Proof.
  intros Hm. remember (String c s) as s' eqn:Hs. revert s Hs.
  induction Hm as [ | p c' Hp | r1 r2 s1 s2 H1 IH1 H2 IH2 | r1 r2 s0 H IH
                  | r1 r2 s0 H IH | | r s1 s2 H1 IH1 H2 IH2 ];
    intros s Hs; simpl; try discriminate.
  - injection Hs as -> <-. rewrite Hp. constructor.
  - apply append_eq_cons in Hs as [[-> ->] | (s1' & -> & ->)].
    + rewrite (proj1 (Matches_nullable r1) H1). apply MAltR. by apply IH2.
    + destruct (nullable r1); [apply MAltL|]; constructor; auto.
  - apply MAltL. by apply IH.
  - apply MAltR. by apply IH.
  - apply append_eq_cons in Hs as [[-> ->] | (s1' & -> & ->)].
    + by apply IH2.
    + constructor; auto.
Qed.

(** The matcher by derivatives decides [Matches]. *)
Lemma matches_spec (r : regex) (s : string) :
  matches r s = true <-> Matches r s.
Proof.
  revert r. induction s as [|c s IH]; intros r; simpl.
  - symmetry. apply Matches_nullable.
  - rewrite IH. split; [apply deriv_sound | apply deriv_complete].
Qed.

Lemma Matches_cat (r1 r2 : regex) (s : string) :
  Matches (Cat r1 r2) s
  <-> exists s1 s2, s = s1 +:+ s2 /\ Matches r1 s1 /\ Matches r2 s2.
Proof.
  split.
  - inversion 1; subst. eauto.
  - intros (s1 & s2 & -> & H1 & H2). by constructor.
Qed.

Lemma Matches_char (c : ascii) (s : string) :
  Matches (Char c) s <-> s = String c "".
Proof.
  unfold Char. split.
  - inversion 1 as [ | ? c' Hp | | | | | ]; subst.
    by apply Ascii.eqb_eq in Hp as ->.
  - intros ->. constructor. apply Ascii.eqb_refl.
Qed.

Lemma Matches_star_class (p : ascii -> bool) (s : string) :
  Matches (Star (Class p)) s <-> allChars p s.
Proof.
  split.
  - intros Hm. remember (Star (Class p)) as r eqn:Hr.
    induction Hm as [ | | | | | | r s1 s2 H1 _ H2 IH2 ]; try discriminate.
    + reflexivity.
    + injection Hr as ->. apply allChars_append. split; [|by apply IH2].
      inversion H1; subst. unfold allChars. simpl. by rewrite andb_true_r.
  - unfold allChars. induction s as [|c s IH]; simpl; [constructor|].
    intros Hall. apply andb_true_iff in Hall as [Hc Hs].
    change (String c s) with (String c "" +:+ s).
    constructor; [by constructor | by apply IH].
Qed.

Lemma Matches_plus_class (p : ascii -> bool) (s : string) :
  Matches (Plus (Class p)) s <-> s <> "" /\ allChars p s.
Proof.
  unfold Plus. rewrite Matches_cat. split.
  - intros (s1 & s2 & -> & H1 & H2). inversion H1; subst.
    rewrite append_one.
    split; [discriminate|]. apply Matches_star_class in H2.
    unfold allChars in *. simpl. by rewrite H2, andb_true_r.
  - intros [Hne Hall]. destruct s as [|c s]; [congruence|].
    unfold allChars in Hall. simpl in Hall.
    apply andb_true_iff in Hall as [Hc Hs].
    exists (String c ""), s. split; [reflexivity|].
    split; [by constructor | by apply Matches_star_class].
Qed.

Lemma Matches_times_class (n : nat) (p : ascii -> bool) (s : string) :
  Matches (Times n (Class p)) s <-> String.length s = n /\ allChars p s.
Proof.
  revert s. induction n as [|n IH]; intros s; simpl.
  - split.
    + inversion 1. by split.
    + intros [Hlen _]. destruct s; [constructor|discriminate].
  - rewrite Matches_cat. split.
    + intros (s1 & s2 & -> & H1 & H2). inversion H1; subst.
      rewrite append_one.
      apply IH in H2 as [Hlen Hall]. simpl. split; [by rewrite Hlen|].
      unfold allChars in *. simpl. by rewrite Hall, andb_true_r.
    + intros [Hlen Hall]. destruct s as [|c s]; [discriminate|].
      unfold allChars in Hall. simpl in Hall.
      apply andb_true_iff in Hall as [Hc Hs]. injection Hlen as Hlen.
      exists (String c ""), s. split; [reflexivity|].
      split; [by constructor | by apply IH].
Qed.

Lemma Matches_upto_class (n : nat) (p : ascii -> bool) (s : string) :
  Matches (UpTo n (Class p)) s <-> (String.length s <= n)%nat /\ allChars p s.
Proof.
  revert s. induction n as [|n IH]; intros s; simpl.
  - split.
    + inversion 1. by split.
    + intros [Hlen _]. destruct s; [constructor|simpl in Hlen; lia].
  - unfold Opt. split.
    + inversion 1 as [ | | | ? ? ? Hl | ? ? ? Hr | | ]; subst.
      * inversion Hl. split; [simpl; lia|reflexivity].
      * apply Matches_cat in Hr as (s1 & s2 & -> & H1 & H2).
        inversion H1; subst. rewrite append_one.
        apply IH in H2 as [Hlen Hall].
        split; [simpl; lia|].
        unfold allChars in *. simpl. by rewrite Hall, andb_true_r.
    + intros [Hlen Hall]. destruct s as [|c s]; [apply MAltL; constructor|].
      apply MAltR. unfold allChars in Hall. simpl in Hall.
      apply andb_true_iff in Hall as [Hc Hs]. simpl in Hlen.
      apply Matches_cat. exists (String c ""), s. split; [reflexivity|].
      split; [by constructor | apply IH; split; [lia|exact Hs]].
Qed.

Lemma Matches_range_class (lo hi : nat) (p : ascii -> bool) (s : string) :
  (lo <= hi)%nat ->
  Matches (Range lo hi (Class p)) s
  <-> (lo <= String.length s <= hi)%nat /\ allChars p s.
Proof.
  intros Hle. unfold Range. rewrite Matches_cat. split.
  - intros (s1 & s2 & -> & H1 & H2).
    apply Matches_times_class in H1 as [Hl1 Ha1].
    apply Matches_upto_class in H2 as [Hl2 Ha2].
    rewrite length_append, allChars_append. split; [lia|tauto].
  - intros [Hlen Hall].
    exists (substring 0 lo s), (substring lo (String.length s - lo) s).
    assert (Hsplit : forall (n : nat) (t : string),
              (n <= String.length t)%nat ->
              t = substring 0 n t +:+ substring n (String.length t - n) t
              /\ String.length (substring 0 n t) = n
              /\ String.length (substring n (String.length t - n) t)
                 = (String.length t - n)%nat).
    { induction n as [|n IHn]; intros t Ht.
      - rewrite Nat.sub_0_r. destruct t as [|c t]; [by repeat split|].
        simpl. assert (Hall' : forall u, substring 0 (String.length u) u = u).
        { induction u as [|x u IHu]; [reflexivity|]. simpl. by rewrite IHu. }
        rewrite Hall'. repeat split.
      - destruct t as [|c t]; [simpl in Ht; lia|]. simpl in Ht.
        destruct (IHn t ltac:(lia)) as (Ht1 & Ht2 & Ht3).
        simpl. repeat split.
        + change (String c (substring 0 n t) +:+ substring n (String.length t - n) t)
            with (String c (substring 0 n t +:+ substring n (String.length t - n) t)).
          by rewrite <- Ht1.
        + by rewrite Ht2.
        + exact Ht3. }
    destruct (Hsplit lo s ltac:(lia)) as (Hs & Hl1 & Hl2).
    split; [exact Hs|].
    rewrite Hs in Hall. apply allChars_append in Hall as [Ha1 Ha2].
    split.
    + apply Matches_times_class. by split.
    + apply Matches_upto_class. split; [lia|exact Ha2].
Qed.

End RegexProofs.

(** ** The formats [mobileRegister] accepts *)

Module ValidationProofs.
Import Regex RegexSpec MobileAuth MobileAuthSpec RegexProofs.

Lemma allChars_true (s : string) : allChars (fun _ => true) s.
Proof. unfold allChars. induction s; simpl; auto. Qed.

Lemma allChars_impl (p q : ascii -> bool) (s : string) :
  (forall c, p c = true -> q c = true) -> allChars p s -> allChars q s.
Proof.
  intros Hpq. unfold allChars. induction s as [|c s IH]; simpl; [done|].
  rewrite !andb_true_iff. intros [Hc Hs]. split; auto.
Qed.

Lemma allChars_cons (p : ascii -> bool) (c : ascii) (s : string) :
  allChars p (String c s) <-> p c = true /\ allChars p s.
Proof. unfold allChars. simpl. apply andb_true_iff. Qed.

(** [/r/.test(s)]: some substring of [s] matches [r]. *)
Lemma search_spec (r : regex) (s : string) :
  search r s = true
  <-> exists pre mid post, s = pre +:+ mid +:+ post /\ Matches r mid.
Proof.
  unfold search. rewrite matches_spec, Matches_cat. split.
  - intros (pre & rest & -> & _ & Hrest).
    apply Matches_cat in Hrest as (mid & post & -> & Hmid & _). eauto.
  - intros (pre & mid & post & -> & Hmid).
    exists pre, (mid +:+ post). split; [reflexivity|].
    split; [apply Matches_star_class, allChars_true|].
    apply Matches_cat. exists mid, post. split; [reflexivity|].
    split; [exact Hmid | apply Matches_star_class, allChars_true].
Qed.

(** The strings of [x+@x+\.x+] for a class [x]. *)
Lemma Matches_address (p : ascii -> bool) (s : string) :
  Matches (Cat (Plus (Class p))
             (Cat (Char "@")
                (Cat (Plus (Class p)) (Cat (Char ".") (Plus (Class p)))))) s
  <-> exists l m t,
        s = l +:+ "@" +:+ m +:+ "." +:+ t
        /\ (l <> "" /\ allChars p l)
        /\ (m <> "" /\ allChars p m)
        /\ (t <> "" /\ allChars p t).
Proof.
  split.
  - intros Hm.
    apply Matches_cat in Hm as (l & s1 & -> & Hl & Hm).
    apply Matches_cat in Hm as (a & s2 & -> & Ha & Hm).
    apply Matches_cat in Hm as (m & s3 & -> & Hmid & Hm).
    apply Matches_cat in Hm as (o & t & -> & Ho & Ht).
    apply Matches_char in Ha as ->. apply Matches_char in Ho as ->.
    apply Matches_plus_class in Hl, Hmid, Ht.
    exists l, m, t. by repeat split; try tauto.
  - intros (l & m & t & -> & Hl & Hmid & Ht).
    apply Matches_cat. exists l, ("@" +:+ m +:+ "." +:+ t).
    split; [reflexivity|]. split; [by apply Matches_plus_class|].
    apply Matches_cat. exists "@", (m +:+ "." +:+ t).
    split; [reflexivity|]. split; [by apply Matches_char|].
    apply Matches_cat. exists m, ("." +:+ t).
    split; [reflexivity|]. split; [by apply Matches_plus_class|].
    apply Matches_cat. exists ".", t.
    split; [reflexivity|]. split; [by apply Matches_char|].
    by apply Matches_plus_class.
Qed.

Lemma emailRegex_spec (s : string) :
  matches emailRegex s = true <-> wellFormedEmail s.
Proof.
  rewrite matches_spec. unfold emailRegex, wellFormedEmail.
  rewrite Matches_address. split.
  - intros (l & m & t & -> & [? ?] & [? ?] & [? ?]). exists l, m, t. tauto.
  - intros (l & m & t & -> & ? & ? & ? & ? & ? & ?). exists l, m, t. tauto.
Qed.

Lemma phoneRegex_spec (s : string) :
  matches phoneRegex s = true <-> wellFormedPhone s.
Proof.
  rewrite matches_spec. unfold phoneRegex, wellFormedPhone, Opt.
  rewrite Matches_cat. split.
  - intros (s1 & digits & -> & H1 & H2).
    apply Matches_range_class in H2 as [Hlen Hall]; [|lia].
    exists digits. split; [|by split].
    inversion H1 as [ | | | ? ? ? Hl | ? ? ? Hr | | ]; subst.
    + inversion Hl. by left.
    + apply Matches_char in Hr as ->. by right.
  - intros (digits & Hs & Hlen & Hall).
    destruct Hs as [-> | ->].
    + exists "", digits. split; [reflexivity|].
      split; [apply MAltL; constructor|].
      apply Matches_range_class; [lia|by split].
    + exists "+", digits. split; [reflexivity|].
      split; [apply MAltR; by apply Matches_char|].
      apply Matches_range_class; [lia|by split].
Qed.

(** An address that [mobileRegister] accepts has the shape by which
    [mobileLogin] recognises an address. *)
Lemma emailRegex_emailShape (s : string) :
  matches emailRegex s = true -> search emailShape s = true.
Proof.
  intros Hm. apply search_spec. exists "", s, "".
  split; [by rewrite append_nil_r|].
  apply matches_spec in Hm. unfold emailRegex in Hm.
  apply Matches_address in Hm as (l & m & t & -> & [? Hl] & [? Hmid] & [? Ht]).
  assert (Himpl : forall c, notSpaceOrAt c = true -> notSpace c = true).
  { intros c. unfold notSpaceOrAt, notSpace.
    rewrite !negb_true_iff, orb_false_iff. tauto. }
  apply Matches_address. exists l, m, t. split; [reflexivity|].
  repeat split; eauto using allChars_impl.
Qed.

(** A phone number that [mobileRegister] accepts does not. *)
Lemma phoneRegex_emailShape (s : string) :
  matches phoneRegex s = true -> search emailShape s = false.
Proof.
  intros Hm. apply not_true_iff_false. intros Hs.
  apply phoneRegex_spec in Hm as (digits & Hd & _ & Hall).
  assert (Hfree : allChars (fun c => negb (Ascii.eqb c "@")) s).
  { assert (Hd' : allChars (fun c => negb (Ascii.eqb c "@")) digits).
    { revert Hall. apply allChars_impl. intros c.
      unfold digitSpaceOrHyphen, JS.isDigit, JS.isWhitespace.
      destruct (Ascii.eqb_spec c "@") as [->|]; [|done].
      vm_compute. discriminate. }
    destruct Hd as [-> | ->]; [exact Hd'|].
    apply allChars_append. split; [reflexivity|exact Hd']. }
  apply search_spec in Hs as (pre & mid & post & -> & Hmid).
  apply Matches_address in Hmid as (l & m & t & -> & _).
  apply allChars_append in Hfree as [_ Hfree].
  apply allChars_append in Hfree as [Hfree _].
  apply allChars_append in Hfree as [_ Hfree].
  apply allChars_append in Hfree as [Hfree _].
  discriminate Hfree.
Qed.

Section WithCollaborators.
Context `{Collaborators}.

(** X2. A request with its four fields is answered "Invalid email format"
    exactly when the address is not of the form [local@domain.tld], with
    three non-empty parts free of white space and of "@"; the parts may hold
    further dots.  Nothing is stored on that answer. *)
Theorem mobileRegister_email_format (env : environment) (b : registerBody)
    (d : database) :
  JS.truthy (reg_email b) = true ->
  JS.truthy (reg_password b) = true ->
  JS.truthy (reg_name b) = true ->
  JS.truthy (reg_phoneNumber b) = true ->
  (res (mobileRegister env b d) = failure 400 "Invalid email format"
   <-> ~ wellFormedEmail (reg_email b))
  /\ (~ wellFormedEmail (reg_email b) -> db (mobileRegister env b d) = d).
Proof.
  intros He Hp Hn Hph. unfold mobileRegister.
  rewrite He, Hp, Hn, Hph. cbn [negb orb].
  destruct (matches emailRegex (reg_email b)) eqn:Hm; cbn [negb].
  - apply emailRegex_spec in Hm. split; [|tauto].
    split; [|tauto]. intros Hres. exfalso.
    repeat match type of Hres with
           | context [if ?c then _ else _] => destruct c
           | context [let '(_, _) := ?c in _] => destruct c
           end; discriminate Hres.
  - assert (Hno : ~ wellFormedEmail (reg_email b)).
    { rewrite <- emailRegex_spec. congruence. }
    repeat split; auto.
Qed.

(** X3. With a well-formed address, the request is answered "Invalid phone
    number format" exactly when the phone number is not an optional "+"
    followed by ten to fifteen characters, each a digit, white space or a
    hyphen; no digit is required among them. *)
Theorem mobileRegister_phone_format (env : environment) (b : registerBody)
    (d : database) :
  JS.truthy (reg_email b) = true ->
  JS.truthy (reg_password b) = true ->
  JS.truthy (reg_name b) = true ->
  JS.truthy (reg_phoneNumber b) = true ->
  wellFormedEmail (reg_email b) ->
  (res (mobileRegister env b d) = failure 400 "Invalid phone number format"
   <-> ~ wellFormedPhone (reg_phoneNumber b))
  /\ (~ wellFormedPhone (reg_phoneNumber b) -> db (mobileRegister env b d) = d).
Proof.
  intros He Hp Hn Hph Hwf. unfold mobileRegister.
  rewrite He, Hp, Hn, Hph. cbn [negb orb].
  apply emailRegex_spec in Hwf. rewrite Hwf. cbn [negb].
  destruct (matches phoneRegex (reg_phoneNumber b)) eqn:Hm; cbn [negb].
  - apply phoneRegex_spec in Hm. split; [|tauto].
    split; [|tauto]. intros Hres. exfalso.
    repeat match type of Hres with
           | context [if ?c then _ else _] => destruct c
           | context [let '(_, _) := ?c in _] => destruct c
           end; discriminate Hres.
  - assert (Hno : ~ wellFormedPhone (reg_phoneNumber b)).
    { rewrite <- phoneRegex_spec. congruence. }
    repeat split; auto.
Qed.

End WithCollaborators.

(** *** The properties on the sample data *)

Import Fixtures.

Lemma mobileRegister_email_format_witness :
  res (mobileRegister (sampleEnv (1 # 3) 100)
         {| reg_email := "carol@example"; reg_password := "pw";
            reg_name := "Carol"; reg_phoneNumber := "9555555555" |} sampleDb)
  = failure 400 "Invalid email format".
Proof.
  apply (mobileRegister_email_format (sampleEnv (1 # 3) 100)
           {| reg_email := "carol@example"; reg_password := "pw";
              reg_name := "Carol"; reg_phoneNumber := "9555555555" |} sampleDb
           eq_refl eq_refl eq_refl eq_refl).
  intros Hwf. apply emailRegex_spec in Hwf. discriminate Hwf.
Defined.

Lemma mobileRegister_phone_format_witness :
  res (mobileRegister (sampleEnv (1 # 3) 100)
         {| reg_email := "carol@example.com"; reg_password := "pw";
            reg_name := "Carol"; reg_phoneNumber := "955-5555" |} sampleDb)
  = failure 400 "Invalid phone number format".
Proof.
  apply (mobileRegister_phone_format (sampleEnv (1 # 3) 100)
           {| reg_email := "carol@example.com"; reg_password := "pw";
              reg_name := "Carol"; reg_phoneNumber := "955-5555" |} sampleDb
           eq_refl eq_refl eq_refl eq_refl).
  - apply emailRegex_spec. reflexivity.
  - intros Hwf. apply phoneRegex_spec in Hwf. discriminate Hwf.
Defined.

End ValidationProofs.

(** ** Registration *)

Module RegistrationProofs.
Import Regex RegexSpec MobileAuth MobileAuthSpec.
Import RegexProofs ValidationProofs.

Lemma toString_truthy (z : Z) : JS.truthy (JS.toString z) = true.
Proof.
  unfold JS.toString. destruct (Z.to_int z) as [u|u]; [|reflexivity].
  by destruct u.
Qed.

Lemma generateOTP_truthy (r : Q) : JS.truthy (generateOTP r) = true.
Proof. apply toString_truthy. Qed.

Lemma find_key_none (key : account -> string) (rows : list account) (k : string) :
  List.find (fun a => String.eqb (key a) k) rows = None
  <-> forall a, a ∈ rows -> key a <> k.
Proof.
  rewrite MobileAuthProofs.find_none_iff. split; intros Hall a Ha.
  - apply String.eqb_neq. by apply Hall.
  - apply String.eqb_neq. by apply Hall.
Qed.

Lemma unused_lookups (d : database) (e p : string) :
  unused d e p
  <-> findUniqueByEmail (users d) e = None
      /\ findUniqueByEmail (admins d) e = None
      /\ findFirstByPhone (users d) p = None
      /\ findFirstByPhone (admins d) p = None.
Proof.
  unfold unused, findUniqueByEmail, findFirstByPhone.
  rewrite !find_key_none. split.
  - intros Hun. repeat split; intros a Ha; apply Hun; auto.
  - intros (He1 & He2 & Hp1 & Hp2) a [Ha|Ha]; split; auto.
Qed.

Lemma find_key_snoc (key : account -> string) (rows : list account)
    (u : account) :
  (forall a, a ∈ rows -> key a <> key u) ->
  List.find (fun a => String.eqb (key a) (key u)) (rows ++ [u]) = Some u.
Proof.
  intros Hnone. rewrite MobileAuthProofs.find_app_skip.
  - simpl. by rewrite String.eqb_refl.
  - intros a Ha. apply String.eqb_neq. by apply Hnone.
Qed.

Section WithCollaborators.
Context `{Collaborators}.

(** What [mobileRegister] does with a request it accepts. *)
Lemma mobileRegister_fresh (env : environment) (b : registerBody) (d : database) :
  passesValidation b ->
  unused d (reg_email b) (reg_phoneNumber b) ->
  status (res (mobileRegister env b d)) = 201%nat
  /\ db (mobileRegister env b d)
     = (if isAdminEmail env (reg_email b)
        then setAdmins d (admins d ++ [registered env b])
        else setCustomers (setUsers d (users d ++ [registered env b]))
               (linkCustomer env (registered env b) (customers d)).1)
  /\ deferred (mobileRegister env b d)
     = SendEmail (reg_email b) "Verify Your Email - OTP Code"
         (generateOTP (random env))
       :: (if isAdminEmail env (reg_email b) then []
           else [NewUserRegistrationAlert (reg_name b) (reg_email b)
                   (linkCustomer env (registered env b) (customers d)).2]).
Proof.
  intros (He & Hp & Hn & Hph & Hme & Hmp) Hun.
  apply unused_lookups in Hun as (He1 & He2 & Hp1 & Hp2).
  unfold mobileRegister. rewrite He, Hp, Hn, Hph, Hme, Hmp. cbn [negb orb].
  destruct (isAdminEmail env (reg_email b)); rewrite He1, He2, Hp1, Hp2.
  - by cbn.
  - cbn [bool_decide decide_rel orb]. cbn -[linkCustomer].
    fold (issued env). fold (registered env b).
    by destruct (linkCustomer env (registered env b) (customers d)).
Qed.

(** Either the request is refused and nothing happens, or it passed the
    validation and met no account. *)
Lemma mobileRegister_cases (env : environment) (b : registerBody) (d : database) :
  (status (res (mobileRegister env b d)) = 400%nat
   /\ db (mobileRegister env b d) = d
   /\ deferred (mobileRegister env b d) = [])
  \/ (passesValidation b /\ unused d (reg_email b) (reg_phoneNumber b)).
Proof.
  unfold mobileRegister, passesValidation.
  destruct (JS.truthy (reg_email b)); [|by left].
  destruct (JS.truthy (reg_password b)); [|by left].
  destruct (JS.truthy (reg_name b)); [|by left].
  destruct (JS.truthy (reg_phoneNumber b)); [|by left].
  destruct (matches emailRegex (reg_email b)); [|by left].
  destruct (matches phoneRegex (reg_phoneNumber b)); [|by left].
  cbn [negb orb].
  rewrite unused_lookups.
  destruct (isAdminEmail env (reg_email b)).
  - destruct (findUniqueByEmail (admins d) (reg_email b)); [by left|].
    destruct (findUniqueByEmail (users d) (reg_email b)); [by left|].
    destruct (findFirstByPhone (admins d) (reg_phoneNumber b)); [by left|].
    destruct (findFirstByPhone (users d) (reg_phoneNumber b)); [by left|].
    right. by repeat split.
  - destruct (findUniqueByEmail (users d) (reg_email b)); [by left|].
    destruct (findUniqueByEmail (admins d) (reg_email b)); [by left|].
    destruct (findFirstByPhone (users d) (reg_phoneNumber b)); [by left|].
    destruct (findFirstByPhone (admins d) (reg_phoneNumber b)); [by left|].
    right. by repeat split.
Qed.

Lemma registered_found (env : environment) (b : registerBody) (d : database) :
  passesValidation b ->
  unused d (reg_email b) (reg_phoneNumber b) ->
  findInBothByEmail (db (mobileRegister env b d)) (reg_email b)
  = Some (registered env b,
          if isAdminEmail env (reg_email b) then Admin else User).
Proof.
  intros Hv Hun.
  destruct (mobileRegister_fresh env b d Hv Hun) as (_ & -> & _).
  pose proof (proj1 (unused_lookups _ _ _) Hun) as (He1 & He2 & _).
  unfold findInBothByEmail, findUniqueByEmail in *.
  destruct (isAdminEmail env (reg_email b)); cbn [users admins setAdmins setUsers setCustomers].
  - rewrite He1.
    rewrite (find_key_snoc email (admins d) (registered env b)); [done|].
    intros a Ha. by apply Hun; right.
  - rewrite (find_key_snoc email (users d) (registered env b)); [done|].
    intros a Ha. by apply Hun; left.
Qed.


(** X5. If no two accounts share an address or a phone number, across
    users and admins together, then the same holds after [mobileRegister],
    whatever the request. *)
Theorem mobileRegister_keeps_accounts_distinct
    (env : environment) (b : registerBody) (d : database) :
  distinctAccounts d ->
  distinctAccounts (db (mobileRegister env b d)).
Proof.
  intros [Hemail Hphone].
  destruct (mobileRegister_cases env b d) as [(_ & -> & _) | [Hv Hun]];
    [by split|].
  destruct (mobileRegister_fresh env b d Hv Hun) as (_ & -> & _).
  assert (Hnew : forall (key : account -> string),
            (forall a, a ∈ users d \/ a ∈ admins d ->
                       key a <> key (registered env b)) ->
            NoDup (map key (users d ++ admins d)) ->
            NoDup (map key ((users d ++ [registered env b]) ++ admins d))
            /\ NoDup (map key (users d ++ admins d ++ [registered env b]))).
  { intros key Hkey Hnd.
    assert (Hfresh : key (registered env b) ∉ map key (users d ++ admins d)).
    { intros Hin. apply list_elem_of_fmap in Hin as (a & Heq & Ha).
      apply elem_of_app in Ha. symmetry in Heq. by apply (Hkey a). }
    split.
    - eapply (NoDup_Permutation_proper (key (registered env b) :: map key (users d ++ admins d))).
      + rewrite !map_app. simpl.
        rewrite <- (assoc_L (++)). simpl.
        by rewrite <- Permutation_middle.
      + by apply list.NoDup_cons.
    - eapply (NoDup_Permutation_proper (key (registered env b) :: map key (users d ++ admins d))).
      + rewrite (assoc_L (++)). rewrite (map_app _ (users d ++ admins d)). simpl.
        by rewrite <- Permutation_cons_append.
      + by apply list.NoDup_cons. }
  destruct (Hnew email) as [He1 He2]; [intros a Ha; by apply Hun| exact Hemail |].
  destruct (Hnew phoneNumber) as [Hp1 Hp2]; [intros a Ha; by apply Hun| exact Hphone |].
  unfold distinctAccounts.
  by destruct (isAdminEmail env (reg_email b)); cbn.
Qed.

End WithCollaborators.

(** *** The properties on the sample data *)

Import Fixtures.


Lemma mobileRegister_keeps_accounts_distinct_witness :
  distinctAccounts
    (db (mobileRegister (sampleEnv (1 # 3) 100) freshRequest sampleDb)).
Proof.
  apply (mobileRegister_keeps_accounts_distinct
           (sampleEnv (1 # 3) 100) freshRequest sampleDb).
  split; apply (bool_decide_unpack _); vm_compute; exact I.
Defined.

End RegistrationProofs.

(** ** From registration to the first session *)

Module LifecycleProofs.
Import Regex RegexSpec MobileAuth MobileAuthSpec.
Import RegexProofs ValidationProofs RegistrationProofs.

Lemma find_update_key (key : account -> string) (rows : list account)
    (k : string) (u : account) (data : account -> account) :
  (forall a, key (data a) = key a) ->
  List.find (fun a => String.eqb (key a) k) rows = Some u ->
  List.find (fun a => String.eqb (key a) k) (update rows (id u) data)
  = Some (data u).
Proof.
  intros Hkey. unfold update.
  induction rows as [|a rows IH]; simpl; [discriminate|].
  destruct (String.eqb (key a) k) eqn:Ha.
  - intros [= ->]. rewrite String.eqb_refl. simpl. by rewrite Hkey, Ha.
  - intros Hfind. specialize (IH Hfind).
    destruct (String.eqb (id a) (id u)); simpl.
    + by rewrite Hkey, Ha.
    + by rewrite Ha.
Qed.

Lemma find_update_none (key : account -> string) (rows : list account)
    (k i : string) (data : account -> account) :
  (forall a, key (data a) = key a) ->
  List.find (fun a => String.eqb (key a) k) rows = None ->
  List.find (fun a => String.eqb (key a) k) (update rows i data) = None.
Proof.
  intros Hkey. unfold update.
  induction rows as [|a rows IH]; simpl; [done|].
  destruct (String.eqb (key a) k) eqn:Ha; [discriminate|].
  intros Hfind. specialize (IH Hfind).
  destruct (String.eqb (id a) i); simpl.
  - by rewrite Hkey, Ha.
  - by rewrite Ha.
Qed.

Lemma findForLogin_update (d : database) (ident : string) (u : account)
    (t : userType) (data : account -> account) :
  (forall a, email (data a) = email a) ->
  (forall a, phoneNumber (data a) = phoneNumber a) ->
  findForLogin d ident = Some (u, t) ->
  findForLogin (updateAccount d t (id u) data) ident = Some (data u, t).
Proof.
  intros He Hp. unfold findForLogin, findUniqueByEmail, findFirstByPhone.
  destruct (search emailShape ident).
  - destruct (List.find _ (users d)) as [u1|] eqn:H1.
    + intros [= -> <-]. simpl. by rewrite (find_update_key email _ _ _ _ He H1).
    + destruct (List.find _ (admins d)) as [u2|] eqn:H2; [|discriminate].
      intros [= -> <-]. simpl.
      by rewrite H1, (find_update_key email _ _ _ _ He H2).
  - destruct (List.find _ (users d)) as [u1|] eqn:H1.
    + intros [= -> <-]. simpl. by rewrite (find_update_key phoneNumber _ _ _ _ Hp H1).
    + destruct (List.find _ (admins d)) as [u2|] eqn:H2; [|discriminate].
      intros [= -> <-]. simpl.
      by rewrite H1, (find_update_key phoneNumber _ _ _ _ Hp H2).
Qed.

Lemma findForLogin_setCustomers (d : database) (cs : list customer)
    (ident : string) :
  findForLogin (setCustomers d cs) ident = findForLogin d ident.
Proof. reflexivity. Qed.

(** By address, [mobileLogin] looks where [verifyOTP] looks. *)
Lemma findForLogin_email (d : database) (e : string) :
  search emailShape e = true ->
  findForLogin d e = findInBothByEmail d e.
Proof. intros He. unfold findForLogin. by rewrite He. Qed.

Lemma findForLogin_phone (d : database) (p : string) :
  search emailShape p = false ->
  findForLogin d p = PasswordReset.findInBothByPhone d p.
Proof. intros Hp. unfold findForLogin. by rewrite Hp. Qed.

Section WithCollaborators.
Context `{Collaborators}.

Lemma mobileLogin_inactive (env : loginEnvironment) (b : loginBody)
    (d : database) (u : account) (t : userType) :
  JS.truthy (login_email b) = true ->
  JS.truthy (login_password b) = true ->
  findForLogin d (login_email b) = Some (u, t) ->
  isActive u = false ->
  mobileLogin env b d = reply deactivated d.
Proof.
  intros He Hp Hfind Hact. unfold mobileLogin, mobileLoginAttempt, findForLogin in *.
  rewrite He, Hp. cbn [negb orb]. cbv zeta in *.
  destruct (search emailShape (login_email b));
    repeat match type of Hfind with
           | context [match ?x with _ => _ end] => destruct x
           end; simplify_eq; by rewrite Hact.
Qed.

Lemma mobileLogin_unverified (env : loginEnvironment) (b : loginBody)
    (d : database) (u : account) (t : userType) :
  JS.truthy (login_email b) = true ->
  JS.truthy (login_password b) = true ->
  findForLogin d (login_email b) = Some (u, t) ->
  isActive u = true ->
  isVerified u = false ->
  mobileLogin env b d = reply needsVerification d.
Proof.
  intros He Hp Hfind Hact Hver. unfold mobileLogin, mobileLoginAttempt, findForLogin in *.
  rewrite He, Hp. cbn [negb orb]. cbv zeta in *.
  destruct (search emailShape (login_email b));
    repeat match type of Hfind with
           | context [match ?x with _ => _ end] => destruct x
           end; simplify_eq; by rewrite Hact, Hver.
Qed.

Lemma mobileLogin_success (env : loginEnvironment) (b : loginBody)
    (d : database) (u : account) (t : userType) (hash : string) :
  JS.truthy (login_email b) = true ->
  JS.truthy (login_password b) = true ->
  findForLogin d (login_email b) = Some (u, t) ->
  isActive u = true ->
  isVerified u = true ->
  password u = Some hash ->
  JS.truthy hash = true \/ provider u <> "google" ->
  bcrypt_compare (login_password b) hash = true ->
  status (res (mobileLogin env b d)) = 200%nat
  /\ db (mobileLogin env b d)
     = updateAccount d t (id u) (recordLogin env (login_fcmToken b))
  /\ deferred (mobileLogin env b d)
     = [AddSession (id u) (jwt_sign (id u) (signDate env))].
Proof.
  intros He Hp Hfind Hact Hver Hpw Hlocal Hcmp.
  assert (Hmiss : passwordMissing u && String.eqb (provider u) "google" = false).
  { unfold passwordMissing. rewrite Hpw.
    destruct Hlocal as [-> | Hne]; [done|].
    apply String.eqb_neq in Hne. rewrite Hne. apply andb_false_r. }
  unfold mobileLogin, mobileLoginAttempt, findForLogin in *.
  rewrite He, Hp. cbn [negb orb]. cbv zeta in *.
  destruct (search emailShape (login_email b));
    repeat match type of Hfind with
           | context [match ?x with _ => _ end] => destruct x
           end; simplify_eq; by rewrite Hact, Hver, Hmiss, Hpw, Hcmp.
Qed.

Lemma mobileLogin_wrong (env : loginEnvironment) (b : loginBody)
    (d : database) (u : account) (t : userType) (hash : string) :
  JS.truthy (login_email b) = true ->
  JS.truthy (login_password b) = true ->
  findForLogin d (login_email b) = Some (u, t) ->
  isActive u = true ->
  isVerified u = true ->
  password u = Some hash ->
  JS.truthy hash = true \/ provider u <> "google" ->
  bcrypt_compare (login_password b) hash = false ->
  mobileLogin env b d = reply (failure 401 wrongPasswordMessage) d.
Proof.
  intros He Hp Hfind Hact Hver Hpw Hlocal Hcmp.
  assert (Hmiss : passwordMissing u && String.eqb (provider u) "google" = false).
  { unfold passwordMissing. rewrite Hpw.
    destruct Hlocal as [-> | Hne]; [done|].
    apply String.eqb_neq in Hne. rewrite Hne. apply andb_false_r. }
  unfold mobileLogin, mobileLoginAttempt, findForLogin in *.
  rewrite He, Hp. cbn [negb orb]. cbv zeta in *.
  destruct (search emailShape (login_email b));
    repeat match type of Hfind with
           | context [match ?x with _ => _ end] => destruct x
           end; simplify_eq; by rewrite Hact, Hver, Hmiss, Hpw, Hcmp.
Qed.

(** The account a fresh registration created, by either identifier. *)
Lemma registered_findForLogin (env : environment) (b : registerBody)
    (d : database) (ident : string) :
  passesValidation b ->
  unused d (reg_email b) (reg_phoneNumber b) ->
  ident = reg_email b \/ ident = reg_phoneNumber b ->
  findForLogin (db (mobileRegister env b d)) ident
  = Some (registered env b,
          if isAdminEmail env (reg_email b) then Admin else User).
Proof.
  intros Hv Hun [-> | ->].
  - rewrite findForLogin_email; [by apply registered_found|].
    apply emailRegex_emailShape, Hv.
  - rewrite findForLogin_phone; [|apply phoneRegex_emailShape, Hv].
    destruct (mobileRegister_fresh env b d Hv Hun) as (_ & -> & _).
    pose proof (proj1 (unused_lookups _ _ _) Hun) as (_ & _ & Hp1 & Hp2).
    unfold PasswordReset.findInBothByPhone, findFirstByPhone in *.
    destruct (isAdminEmail env (reg_email b));
      cbn [users admins setAdmins setUsers setCustomers].
    + rewrite Hp1.
      rewrite (find_key_snoc phoneNumber (admins d) (registered env b)); [done|].
      intros a Ha. by apply Hun; right.
    + rewrite (find_key_snoc phoneNumber (users d) (registered env b)); [done|].
      intros a Ha. by apply Hun; left.
Qed.


(** X7. From registration to the first session.  After a registration
    that was accepted, signing in by the address or by the phone number is
    refused with [needsVerification], whatever the password.  Once the
    mailed code has been verified in time, signing in by either identifier
    with the registered password is answered 200 and opens a session for
    the new account, provided bcrypt accepts that password against the hash
    it made of it. *)
Theorem registered_account_signs_in_after_verification
    (env : environment) (lenv : loginEnvironment) (b : registerBody)
    (d : database) (now : Z) (ident fcm : string) :
  passesValidation b ->
  unused d (reg_email b) (reg_phoneNumber b) ->
  ident = reg_email b \/ ident = reg_phoneNumber b ->
  (now < dateNow env + 600000)%Z ->
  bcrypt_compare (reg_password b)
    (bcrypt_hash (reg_password b) 12 (salt env)) = true ->
  let d1 := db (mobileRegister env b d) in
  let d2 := db (verifyOTP now {| ver_email := reg_email b;
                                 ver_otp := generateOTP (random env) |} d1) in
  let attempt pw := {| login_email := ident; login_password := pw;
                       login_fcmToken := fcm |} in
  (forall pw, JS.truthy pw = true ->
     mobileLogin lenv (attempt pw) d1 = reply needsVerification d1)
  /\ status (res (mobileLogin lenv (attempt (reg_password b)) d2)) = 200%nat
  /\ deferred (mobileLogin lenv (attempt (reg_password b)) d2)
     = [AddSession (newUserId env) (jwt_sign (newUserId env) (signDate lenv))].
Proof.
  intros Hv Hun Hident Hnow Hcmp d1 d2 attempt.
  pose proof (registered_findForLogin env b d ident Hv Hun Hident) as Hfind.
  assert (Hident_truthy : JS.truthy ident = true).
  { destruct Hident as [-> | ->]; apply Hv. }
  split.
  - intros pw Hpw.
    by apply (mobileLogin_unverified lenv (attempt pw) d1 (registered env b)
                (if isAdminEmail env (reg_email b) then Admin else User)).
  - pose proof (registered_found env b d Hv Hun) as Hfound.
    set (t := if isAdminEmail env (reg_email b) then Admin else User) in *.
    assert (Hd2 : findForLogin d2 ident = Some (markVerified (registered env b), t)).
    { subst d2.
      rewrite (MobileAuthProofs.verifyOTP_unverified now _ d1
                 (registered env b) t [issued env]); try done;
        [|apply Hv|apply generateOTP_truthy].
      simpl. unfold accepts. simpl. rewrite String.eqb_refl.
      unfold tenMinutes. rewrite (proj2 (Z.ltb_lt _ _)) by lia. simpl.
      destruct t; [rewrite findForLogin_setCustomers|];
        by apply (findForLogin_update d1 ident (registered env b)). }
    destruct (mobileLogin_success lenv (attempt (reg_password b)) d2
                (markVerified (registered env b)) t
                (bcrypt_hash (reg_password b) 12 (salt env)))
      as (Hst & _ & Hdef); try done.
    + apply Hv.
    + by right.
Qed.

End WithCollaborators.

(** *** The properties on the sample data *)

Import Fixtures.


Lemma registered_account_signs_in_after_verification_witness :
  status
    (res (mobileLogin sampleLoginEnv
            {| login_email := "+91 95555-55555"; login_password := "pw";
               login_fcmToken := "" |}
            (db (verifyOTP 5000
                   {| ver_email := "carol@example.com"; ver_otp := "400000" |}
                   (db (mobileRegister (sampleEnv (1 # 3) 100) freshRequest
                          sampleDb))))))
  = 200%nat.
Proof.
  apply (registered_account_signs_in_after_verification
           (sampleEnv (1 # 3) 100) sampleLoginEnv freshRequest sampleDb 5000
           "+91 95555-55555" "").
  - repeat split; reflexivity.
  - apply unused_lookups. repeat split; reflexivity.
  - right. reflexivity.
  - reflexivity.
  - reflexivity.
Defined.

End LifecycleProofs.

(** ** Verification and resends *)

Module SessionProofs.
Import Regex RegexSpec MobileAuth MobileAuthSpec.
Import RegexProofs ValidationProofs RegistrationProofs LifecycleProofs.

(** *** Updates, row by row *)

Lemma Forall2_same {A} (R : A -> A -> Prop) (l : list A) :
  (forall a, R a a) -> Forall2 R l l.
Proof. intros Hrefl. induction l; constructor; auto. Qed.

Lemma update_rows (R : account -> account -> Prop) (rows : list account)
    (i : string) (data : account -> account) :
  (forall a, R a a) -> (forall a, R a (data a)) ->
  Forall2 R rows (update rows i data).
Proof.
  intros Hrefl Hdata. unfold update.
  induction rows as [|a rows IH]; simpl; constructor; [|exact IH].
  destruct (String.eqb (id a) i); auto.
Qed.

Lemma updateAccount_rows (R : account -> account -> Prop) (d : database)
    (t : userType) (i : string) (data : account -> account) :
  (forall a, R a a) -> (forall a, R a (data a)) ->
  Forall2 R (users d) (users (updateAccount d t i data))
  /\ Forall2 R (admins d) (admins (updateAccount d t i data))
  /\ customers (updateAccount d t i data) = customers d.
Proof.
  intros Hrefl Hdata.
  destruct t; simpl; repeat split;
    auto using Forall2_same, update_rows.
Qed.




(** *** The codes that successive resends leave *)

Lemma sliceLast_app_ge {A} (n : nat) (a r : list A) :
  (n <= length r)%nat -> JS.sliceLast n (a ++ r) = JS.sliceLast n r.
Proof.
  intros Hn. unfold JS.sliceLast. rewrite length_app.
  rewrite drop_app_ge by lia. f_equal. lia.
Qed.

Lemma sliceLast_map {A B} (f : A -> B) (n : nat) (a : list A) :
  JS.sliceLast n (map f a) = map f (JS.sliceLast n a).
Proof. unfold JS.sliceLast. by rewrite length_map, skipn_map. Qed.

(** X9. After one or more [resendOTP] calls for an unverified account, the
    account holds the last five of: the codes it held, then the codes the
    calls issued, in that order.  From five calls on these are the codes of
    the last five calls, and nothing older. *)
Theorem resendMany_keeps_the_last_five_issued
    (envs : list environment) (e : string) (d : database)
    (u : account) (t : userType) :
  JS.truthy e = true ->
  findInBothByEmail d e = Some (u, t) ->
  isVerified u = false ->
  envs <> [] ->
  exists u',
    findInBothByEmail (resendMany envs e d) e = Some (u', t)
    /\ sameButOTPs u u'
    /\ emailOTPs u'
       = Some (JS.sliceLast 5 (default [] (emailOTPs u) ++ map issued envs))
    /\ ((5 <= length envs)%nat ->
        emailOTPs u' = Some (map issued (JS.sliceLast 5 envs))).
Proof.
  intros He Hfind Hver Hne.
  eexists. split; [by apply MobileAuthProofs.resendMany_issued|].
  split; [by repeat split|]. split; [reflexivity|].
  intros Hlen. cbn [emailOTPs setOTPs].
  rewrite sliceLast_app_ge by (by rewrite length_map).
  by rewrite sliceLast_map.
Qed.


(** *** The properties on the sample data *)

Import Fixtures.

Lemma resendMany_keeps_the_last_five_issued_witness :
  exists u',
    findInBothByEmail (resendMany fiveResends "alice@example.com" sampleDb)
      "alice@example.com" = Some (u', User)
    /\ sameButOTPs alice u'
    /\ emailOTPs u' = Some (map issued fiveResends).
Proof.
  destruct (resendMany_keeps_the_last_five_issued fiveResends
              "alice@example.com" sampleDb alice User
              eq_refl eq_refl eq_refl ltac:(discriminate))
    as (u' & Hfind & Hsame & _ & Hfive).
  exists u'. split; [exact Hfind|]. split; [exact Hsame|].
  apply Hfive. simpl. lia.
Defined.


End SessionProofs.

(** ** Signing in and resetting the password *)

Module LoginProofs.
Import Regex RegexSpec MobileAuth MobileAuthSpec.
Import RegexProofs ValidationProofs RegistrationProofs LifecycleProofs.
Import SessionProofs.

Lemma sameButSession_refl (a : account) : sameButSession a a.
Proof. by repeat split. Qed.

Lemma sameButSession_recordLogin (env : loginEnvironment) (fcm : string)
    (a : account) :
  sameButSession a (recordLogin env fcm a).
Proof. by repeat split. Qed.

(** An answer given before the row is written. *)
Ltac early :=
  simpl;
  (split; [apply Forall2_same, sameButSession_refl|]);
  (split; [apply Forall2_same, sameButSession_refl|]);
  (split; [reflexivity|]);
  (split; [done|]); (split; [done|]);
  (split; [intros; discriminate|]); intros; discriminate.

Section WithCollaborators.
Context `{Collaborators}.

(** X11. Whatever the request, and whether or not signing the token or
    recording the session throws, [mobileLogin] changes nothing of an
    account but [lastLogin] and [fcmTokens], adds or removes no account and
    leaves the customers alone.  When it answers 400 or 401 it has changed
    nothing at all and has opened no session; so has it whenever it does
    not answer 200, if the two steps return.  It answers 200 only if they
    do, and when one of them throws after the password was accepted the
    answer is 500 with the row already updated. *)
Theorem mobileLogin_only_touches_the_session
    (step : sessionStep) (env : loginEnvironment) (b : loginBody)
    (d : database) :
  let out := mobileLoginAttempt step env b d in
  Forall2 sameButSession (users d) (users (db out))
  /\ Forall2 sameButSession (admins d) (admins (db out))
  /\ customers (db out) = customers d
  /\ (status (res out) = 400%nat \/ status (res out) = 401%nat ->
      db out = d /\ deferred out = [])
  /\ (step = SessionOpened -> status (res out) <> 200%nat ->
      db out = d /\ deferred out = [])
  /\ (status (res out) = 200%nat ->
      step = SessionOpened /\ out = mobileLogin env b d)
  /\ (step <> SessionOpened ->
      status (res (mobileLogin env b d)) = 200%nat ->
      res out = failure 500 "Login failed"
      /\ db out = db (mobileLogin env b d)).
Proof.
  unfold mobileLogin, mobileLoginAttempt. cbv zeta.
  destruct (negb _ || negb _); [early|].
  match goal with
  | |- context [match ?x with Some _ => _ | None => _ end] =>
      match type of x with
      | option (account * userType) => generalize x
      end
  end.
  intros [[u t]|]; [|early].
  destruct (negb (isActive u)); [early|].
  destruct (negb (isVerified u)); [early|].
  destruct (passwordMissing u && _); [early|].
  destruct (password u) as [hash|]; [|early].
  destruct (negb (bcrypt_compare _ hash)); [early|].
  destruct (updateAccount_rows sameButSession d t (id u)
              (recordLogin env (login_fcmToken b)))
    as (Hu & Ha & Hc);
    [apply sameButSession_refl | apply sameButSession_recordLogin |].
  destruct step; cbn [db res status failure deferred];
    (split; [exact Hu|]); (split; [exact Ha|]); (split; [exact Hc|]);
    (split; [intros [?|?]; discriminate|]);
    (split; [intros; first [done | congruence]|]);
    (split; [intros; first [done | congruence]|]);
    intros; first [done | congruence].
Qed.

(** X12. An account that is deactivated is told so, and an active account
    that is not verified is told so, before the password is looked at: the
    answer is the same for every password, and it is not the answer given
    when no account matches. *)
Theorem mobileLogin_account_state_before_password
    (env : loginEnvironment) (d : database) (ident : string)
    (u : account) (t : userType) :
  JS.truthy ident = true ->
  findForLogin d ident = Some (u, t) ->
  isActive u = false \/ isVerified u = false ->
  forall pw fcm, JS.truthy pw = true ->
    mobileLogin env {| login_email := ident; login_password := pw;
                       login_fcmToken := fcm |} d
    = reply (if isActive u then needsVerification else deactivated) d
    /\ (if isActive u then needsVerification else deactivated)
       <> failure 401 notFoundMessage.
Proof.
  intros Hident Hfind Hstate pw fcm Hpw.
  destruct (isActive u) eqn:Hact.
  - destruct Hstate as [|Hver]; [done|]. split; [|done].
    by apply (mobileLogin_unverified env _ d u t).
  - split; [|done]. by apply (mobileLogin_inactive env _ d u t).
Qed.

(** X13. A sign-in that succeeds with a device token stores that token
    first in the account's list, once, with the user agent (or "Mobile
    App") and the time; the entries after it are entries the account had,
    under other tokens, in their order; the list never holds more than ten
    entries, and tokens that were distinct stay distinct. *)
Theorem mobileLogin_registers_the_device
    (env : loginEnvironment) (b : loginBody) (d : database)
    (u : account) (t : userType) (hash : string) :
  JS.truthy (login_email b) = true ->
  JS.truthy (login_password b) = true ->
  findForLogin d (login_email b) = Some (u, t) ->
  isActive u = true ->
  isVerified u = true ->
  password u = Some hash ->
  JS.truthy hash = true \/ provider u <> "google" ->
  bcrypt_compare (login_password b) hash = true ->
  JS.truthy (login_fcmToken b) = true ->
  exists u' rest,
    findForLogin (db (mobileLogin env b d)) (login_email b) = Some (u', t)
    /\ sameButSession u u'
    /\ lastLogin u' = Some (loginDate env)
    /\ fcmTokens u'
       = Some ({| token := login_fcmToken b;
                  device := if JS.truthy (userAgent env) then userAgent env
                            else "Mobile App";
                  lastUsed := deviceDate env |} :: rest)
    /\ (length rest < 10)%nat
    /\ rest `sublist_of` default [] (fcmTokens u)
    /\ (forall x, x ∈ rest -> token x <> login_fcmToken b)
    /\ (NoDup (map token (default [] (fcmTokens u))) ->
        NoDup (login_fcmToken b :: map token rest)).
Proof.
  intros He Hp Hfind Hact Hver Hpw Hlocal Hcmp Hfcm.
  destruct (mobileLogin_success env b d u t hash) as (_ & Hdb & _); try done.
  set (kept := filter (fun x => negb (String.eqb (token x) (login_fcmToken b)))
                      (default [] (fcmTokens u))).
  exists (recordLogin env (login_fcmToken b) u), (take 9 kept).
  assert (Hsub : take 9 kept `sublist_of` default [] (fcmTokens u)).
  { etrans; [apply sublist_take|]. apply sublist_filter. }
  assert (Hother : forall x, x ∈ take 9 kept -> token x <> login_fcmToken b).
  { intros x Hx. eapply elem_of_sublist in Hx; [|apply sublist_take].
    apply list_elem_of_filter in Hx as [Hx _].
    apply Is_true_true, negb_true_iff in Hx. by apply String.eqb_neq. }
  split; [|split; [|split; [|split; [|split; [|split; [|split]]]]]].
  - rewrite Hdb. by apply findForLogin_update.
  - apply sameButSession_recordLogin.
  - reflexivity.
  - unfold recordLogin. cbn [fcmTokens]. by rewrite Hfcm.
  - rewrite length_take. lia.
  - exact Hsub.
  - exact Hother.
  - intros Hnd. apply list.NoDup_cons. split.
    + intros Hin. apply list_elem_of_In, in_map_iff in Hin as (x & Hx & Hin).
      apply list_elem_of_In in Hin. by apply (Hother x).
    + eapply sublist_NoDup; [exact Hnd|]. by apply fmap_sublist.
Qed.

End WithCollaborators.

(** *** The properties on the sample data *)

Import Fixtures.

Lemma mobileLogin_account_state_before_password_witness :
  mobileLogin sampleLoginEnv
    {| login_email := "alice@example.com"; login_password := "guess";
       login_fcmToken := "" |} sampleDb
  = reply needsVerification sampleDb.
Proof.
  apply (@mobileLogin_account_state_before_password plainCollaborators sampleLoginEnv sampleDb
           "alice@example.com" alice User eq_refl eq_refl
           (or_intror eq_refl) "guess" "" eq_refl).
Defined.

Lemma mobileLogin_registers_the_device_witness :
  exists u' rest,
    findForLogin
      (db (mobileLogin sampleLoginEnv
             {| login_email := "bob@example.com"; login_password := "hunter2";
                login_fcmToken := "device-1" |} sampleDb))
      "bob@example.com" = Some (u', User)
    /\ fcmTokens u'
       = Some ({| token := "device-1"; device := "okhttp"; lastUsed := 20000 |}
               :: rest)
    /\ (length rest < 10)%nat.
Proof.
  destruct (@mobileLogin_registers_the_device plainCollaborators sampleLoginEnv
              {| login_email := "bob@example.com"; login_password := "hunter2";
                 login_fcmToken := "device-1" |} sampleDb bob User "s:hunter2"
              eq_refl eq_refl eq_refl eq_refl eq_refl eq_refl
              (or_introl eq_refl) eq_refl eq_refl)
    as (u' & rest & Hfind & _ & _ & Htokens & Hlen & _).
  exists u', rest. split; [exact Hfind|]. split; [exact Htokens|exact Hlen].
Defined.

End LoginProofs.

Module PasswordResetProofs.
Import Regex RegexSpec MobileAuth MobileAuthSpec PasswordReset.
Import LifecycleProofs SessionProofs.

Lemma sameButPassword_refl (a : account) : sameButPassword a a.
Proof. by repeat split. Qed.

Lemma findInBothByPhone_update (d : database) (p : string) (u : account)
    (t : userType) (data : account -> account) :
  (forall a, phoneNumber (data a) = phoneNumber a) ->
  findInBothByPhone d p = Some (u, t) ->
  findInBothByPhone (updateAccount d t (id u) data) p = Some (data u, t).
Proof.
  intros Hp. unfold findInBothByPhone, findFirstByPhone.
  destruct (List.find _ (users d)) as [u1|] eqn:H1.
  - intros [= -> <-]. simpl. by rewrite (find_update_key phoneNumber _ _ _ _ Hp H1).
  - destruct (List.find _ (admins d)) as [u2|] eqn:H2; [|discriminate].
    intros [= -> <-]. simpl.
    by rewrite H1, (find_update_key phoneNumber _ _ _ _ Hp H2).
Qed.

Section WithCollaborators.
Context `{Collaborators} `{Firebase}.

(** X14. [resetPasswordWithPhone] changes nothing of an account but the
    password, [resetToken] and [resetTokenExpiry], and changes these only
    when Firebase accepts the token, the phone number of the token is the
    phone number of the request, the new password has six characters or
    more and the first account with that phone number (users first) is
    active: that account then holds the hash of the new password and no
    reset token.  In every other case the answer is not 200 and nothing
    changes. *)
Theorem resetPasswordWithPhone_needs_the_verified_phone
    (salt : string) (b : resetBody) (d : database) :
  let out := resetPasswordWithPhone salt b d in
  Forall2 sameButPassword (users d) (users (db out))
  /\ Forall2 sameButPassword (admins d) (admins (db out))
  /\ customers (db out) = customers d
  /\ ((status (res out) <> 200%nat /\ db out = d)
      \/ (status (res out) = 200%nat
          /\ verifyIdToken (reset_firebaseToken b)
             = Some (Some (reset_phoneNumber b))
          /\ (6 <= String.length (reset_newPassword b))%nat
          /\ exists u t u',
               findInBothByPhone d (reset_phoneNumber b) = Some (u, t)
               /\ isActive u = true
               /\ db out = updateAccount d t (id u)
                             (setPassword
                                (bcrypt_hash (reset_newPassword b) 12 salt))
               /\ findInBothByPhone (db out) (reset_phoneNumber b)
                  = Some (u', t)
               /\ sameButPassword u u'
               /\ password u'
                  = Some (bcrypt_hash (reset_newPassword b) 12 salt)
               /\ resetToken u' = None
               /\ resetTokenExpiry u' = None)).
Proof.
  assert (Hsame : forall r, status r <> 200%nat ->
            Forall2 sameButPassword (users d) (users (db (reply r d)))
            /\ Forall2 sameButPassword (admins d) (admins (db (reply r d)))
            /\ customers (db (reply r d)) = customers d
            /\ ((status (res (reply r d)) <> 200%nat /\ db (reply r d) = d)
                \/ (status (res (reply r d)) = 200%nat
                    /\ verifyIdToken (reset_firebaseToken b)
                       = Some (Some (reset_phoneNumber b))
                    /\ (6 <= String.length (reset_newPassword b))%nat
                    /\ exists u t u',
                         findInBothByPhone d (reset_phoneNumber b) = Some (u, t)
                         /\ isActive u = true
                         /\ db (reply r d)
                            = updateAccount d t (id u)
                                (setPassword
                                   (bcrypt_hash (reset_newPassword b) 12 salt))
                         /\ findInBothByPhone (db (reply r d))
                              (reset_phoneNumber b)
                            = Some (u', t)
                         /\ sameButPassword u u'
                         /\ password u'
                            = Some (bcrypt_hash (reset_newPassword b) 12 salt)
                         /\ resetToken u' = None
                         /\ resetTokenExpiry u' = None))).
  { intros r Hr. simpl. repeat split; auto using Forall2_same, sameButPassword_refl. }
  unfold resetPasswordWithPhone. cbv zeta.
  destruct (negb _ || negb _ || negb _); [by apply Hsame|].
  destruct (String.length (reset_newPassword b) <? 6)%nat eqn:Hlen;
    [by apply Hsame|].
  destruct (verifyIdToken (reset_firebaseToken b)) as [claim|] eqn:Htok;
    [|by apply Hsame].
  destruct (bool_decide (claim = Some (reset_phoneNumber b))) eqn:Hclaim;
    [|by apply Hsame].
  apply bool_decide_eq_true in Hclaim as ->. cbn [negb].
  destruct (findInBothByPhone d (reset_phoneNumber b)) as [[u t]|] eqn:Hfind;
    [|by apply Hsame].
  destruct (isActive u) eqn:Hact; [|by apply Hsame]. cbn [negb db res].
  destruct (updateAccount_rows sameButPassword d t (id u)
              (setPassword (bcrypt_hash (reset_newPassword b) 12 salt)))
    as (Hu & Ha & Hc); [apply sameButPassword_refl | by repeat split |].
  repeat split; try done.
  right. split; [done|]. split; [done|].
  split; [by apply Nat.ltb_ge in Hlen|].
  exists u, t, (setPassword (bcrypt_hash (reset_newPassword b) 12 salt) u).
  split; [done|]. split; [done|]. split; [done|].
  split; [by apply findInBothByPhone_update|].
  by repeat split.
Qed.

(** X15. After a password reset that succeeded for a verified account,
    signing in by any identifier that finds the account succeeds with the
    new password, and a password that bcrypt does not accept against the
    new hash, the old one if so, is answered "Invalid email or password". *)
Theorem reset_password_then_sign_in
    (salt : string) (env : loginEnvironment) (b : resetBody) (d : database)
    (u : account) (t : userType) (ident fcm : string) :
  JS.truthy (reset_phoneNumber b) = true ->
  JS.truthy (reset_newPassword b) = true ->
  JS.truthy (reset_firebaseToken b) = true ->
  (6 <= String.length (reset_newPassword b))%nat ->
  verifyIdToken (reset_firebaseToken b) = Some (Some (reset_phoneNumber b)) ->
  findInBothByPhone d (reset_phoneNumber b) = Some (u, t) ->
  isActive u = true ->
  isVerified u = true ->
  JS.truthy ident = true ->
  findForLogin d ident = Some (u, t) ->
  JS.truthy (bcrypt_hash (reset_newPassword b) 12 salt) = true ->
  bcrypt_compare (reset_newPassword b)
    (bcrypt_hash (reset_newPassword b) 12 salt) = true ->
  let d' := db (resetPasswordWithPhone salt b d) in
  let attempt pw := {| login_email := ident; login_password := pw;
                       login_fcmToken := fcm |} in
  res (resetPasswordWithPhone salt b d) = resetDone
  /\ status (res (mobileLogin env (attempt (reset_newPassword b)) d')) = 200%nat
  /\ (forall pw, JS.truthy pw = true ->
        bcrypt_compare pw (bcrypt_hash (reset_newPassword b) 12 salt) = false ->
        mobileLogin env (attempt pw) d'
        = reply (failure 401 wrongPasswordMessage) d').
Proof.
  intros Hph Hpw Htok Hlen Hfire Hfind Hact Hver Hident Hlogin Hhash Hcmp
    d' attempt.
  assert (Hout : resetPasswordWithPhone salt b d
                 = {| res := resetDone;
                      db := updateAccount d t (id u)
                              (setPassword
                                 (bcrypt_hash (reset_newPassword b) 12 salt));
                      deferred := [] |}).
  { unfold resetPasswordWithPhone. rewrite Hph, Hpw, Htok. cbn [negb orb].
    rewrite (proj2 (Nat.ltb_ge _ _)) by lia.
    rewrite Hfire, bool_decide_eq_true_2 by done. cbn [negb].
    by rewrite Hfind, Hact. }
  subst d'. rewrite Hout. cbn [res db].
  split; [reflexivity|].
  assert (Hfound : findForLogin
                     (updateAccount d t (id u)
                        (setPassword (bcrypt_hash (reset_newPassword b) 12 salt)))
                     ident
                   = Some (setPassword
                             (bcrypt_hash (reset_newPassword b) 12 salt) u, t)).
  { by apply findForLogin_update. }
  split.
  - by destruct (mobileLogin_success env (attempt (reset_newPassword b)) _ _ _
                   (bcrypt_hash (reset_newPassword b) 12 salt)
                   Hident Hpw Hfound Hact Hver eq_refl (or_introl Hhash) Hcmp)
      as (Hst & _).
  - intros pw Hpw' Hno.
    by apply (mobileLogin_wrong env (attempt pw) _ _ _
                (bcrypt_hash (reset_newPassword b) 12 salt)
                Hident Hpw' Hfound Hact Hver eq_refl (or_introl Hhash) Hno).
Qed.

End WithCollaborators.

(** *** The properties on the sample data *)

Import Fixtures.

Lemma reset_password_then_sign_in_witness :
  res (resetPasswordWithPhone "s" resetRequest sampleDb) = resetDone
  /\ status
       (res (mobileLogin sampleLoginEnv
               {| login_email := "bob@example.com";
                  login_password := "correct horse"; login_fcmToken := "" |}
               (db (resetPasswordWithPhone "s" resetRequest sampleDb))))
     = 200%nat.
Proof.
  destruct (@reset_password_then_sign_in plainCollaborators plainFirebase "s" sampleLoginEnv resetRequest sampleDb
              bob User "bob@example.com" ""
              eq_refl eq_refl eq_refl ltac:(simpl; lia) eq_refl eq_refl
              eq_refl eq_refl eq_refl eq_refl eq_refl eq_refl)
    as (Hdone & Hlogin & _).
  split; [exact Hdone|exact Hlogin].
Defined.

End PasswordResetProofs.

(** ** The cadence of the abandoned-cart scheduler *)

Module CartScheduleProofs.
Import CartAlerts CartAlertsSpec CartAlertsProofs.

(** What the sweeps below use of the three tests. *)
Lemma chooseReminder_age (now t : Z) :
  (chooseReminder now t = (Some oneHour, true) ->
   (3000000 <= now - t <= 4200000)%Z)
  /\ ((82800000 <= now - t <= 90000000)%Z ->
      chooseReminder now t = (Some twentyFourHours, true))
  /\ ((252000000 <= now - t <= 266400000)%Z ->
      chooseReminder now t = (Some threeDays, true)).
Proof.
  rewrite chooseReminder_spec.
  repeat match goal with
         | |- context [between ?a ?b ?c] =>
             let Hb := fresh "Hb" in
             destruct (between a b c) eqn:Hb;
             [apply between_spec in Hb
             |apply not_true_iff_false in Hb; rewrite between_spec in Hb]
         end;
    repeat split; intros; try discriminate; try lia.
Qed.

(** X16. The reminder chosen depends on the age of the last cart
    activity alone: 50 to 70 minutes gives the 1-hour reminder, 23 to 25
    hours the 24-hour one, 70 to 74 hours the 3-day one, bounds included,
    and any other age gives none.  The three ranges do not meet, so the
    later tests never overwrite an earlier choice. *)
Theorem chooseReminder_by_age (now t : Z) :
  let age := (now - t)%Z in
  (chooseReminder now t = (Some oneHour, true)
   <-> (3000000 <= age <= 4200000)%Z)
  /\ (chooseReminder now t = (Some twentyFourHours, true)
      <-> (82800000 <= age <= 90000000)%Z)
  /\ (chooseReminder now t = (Some threeDays, true)
      <-> (252000000 <= age <= 266400000)%Z)
  /\ (chooseReminder now t = (None, false)
      <-> ~ (3000000 <= age <= 4200000)%Z
          /\ ~ (82800000 <= age <= 90000000)%Z
          /\ ~ (252000000 <= age <= 266400000)%Z).
Proof.
  intros age. subst age. rewrite chooseReminder_spec.
  repeat match goal with
         | |- context [between ?a ?b ?c] =>
             let Hb := fresh "Hb" in
             destruct (between a b c) eqn:Hb;
             [apply between_spec in Hb
             |apply not_true_iff_false in Hb; rewrite between_spec in Hb]
         end;
    repeat split; intros; try discriminate; try lia.
Qed.

(** The reminder of a loaded customer without a later order. *)
Lemma reminderFor_kind (now : Z) (d : database) (c : customer)
    (x : cartItem) (rest : list cartItem) :
  cartItems c = x :: rest ->
  (forall o, o ∈ onlineOrders d -> orderUserId o = userId c ->
             (orderCreatedAt o < createdAt x)%Z) ->
  kind <$> reminderFor now d c = (chooseReminder now (createdAt x)).1.
Proof.
  intros Hcart Hnone. unfold reminderFor. rewrite Hcart.
  rewrite (recentOrders_empty d (userId c) (createdAt x) Hnone).
  rewrite chooseReminder_spec.
  repeat match goal with |- context [between ?a ?b ?c] =>
    destruct (between a b c) end; reflexivity.
Qed.

(** X17. With sweeps one hour apart, a cart that is not touched again and
    is not followed by an order never gets the 1-hour reminder when, at
    one of the sweeps, the time since its last activity is more than 10
    and less than 50 minutes past a whole number of hours. *)
Theorem hourly_sweeps_skip_the_hour_reminder
    (now0 : Z) (d : database) (c : customer)
    (x : cartItem) (rest : list cartItem) :
  cartItems c = x :: rest ->
  (forall o, o ∈ onlineOrders d -> orderUserId o = userId c ->
             (orderCreatedAt o < createdAt x)%Z) ->
  (600000 < (now0 - createdAt x) mod 3600000 < 3000000)%Z ->
  forall k : Z,
    kind <$> reminderFor (now0 + k * 3600000) d c <> Some oneHour.
Proof.
  intros Hcart Hnone Hoff k Hkind.
  rewrite (reminderFor_kind _ d c x rest Hcart Hnone) in Hkind.
  destruct (chooseReminder_age (now0 + k * 3600000) (createdAt x))
    as (Hone & _).
  assert (Hsel : chooseReminder (now0 + k * 3600000) (createdAt x)
                 = (Some oneHour, true)).
  { pose proof (chooseReminder_spec (now0 + k * 3600000) (createdAt x)) as Hs.
    revert Hkind. rewrite Hs.
    repeat match goal with |- context [between ?a ?b ?c] =>
      destruct (between a b c) end; simpl; intros; congruence. }
  apply Hone in Hsel.
  pose proof (Z.div_mod (now0 - createdAt x) 3600000 ltac:(lia)) as Hdm.
  set (q := ((now0 - createdAt x) / 3600000)%Z) in *.
  set (m := ((now0 - createdAt x) mod 3600000)%Z) in *.
  assert (Hcases : (q + k <= 0 \/ 1 <= q + k)%Z) by lia.
  destruct Hcases; nia.
Qed.

(** X18. With sweeps one hour apart, a cart that is not touched again and
    is not followed by an order is chosen for the 24-hour reminder at two
    sweeps in a row, and for the 3-day reminder at four sweeps in a row:
    nothing records that a reminder has been sent. *)
Theorem hourly_sweeps_repeat_the_later_reminders
    (now0 : Z) (d : database) (c : customer)
    (x : cartItem) (rest : list cartItem) :
  cartItems c = x :: rest ->
  (forall o, o ∈ onlineOrders d -> orderUserId o = userId c ->
             (orderCreatedAt o < createdAt x)%Z) ->
  (now0 <= createdAt x)%Z ->
  (exists k, (0 <= k)%Z
     /\ forall j, (0 <= j < 2)%Z ->
          kind <$> reminderFor (now0 + (k + j) * 3600000) d c
          = Some twentyFourHours)
  /\ (exists k, (0 <= k)%Z
        /\ forall j, (0 <= j < 4)%Z ->
             kind <$> reminderFor (now0 + (k + j) * 3600000) d c
             = Some threeDays).
Proof.
  intros Hcart Hnone Hstart.
  assert (Hkind : forall now r,
            chooseReminder now (createdAt x) = (Some r, true) ->
            kind <$> reminderFor now d c = Some r).
  { intros now r Hr. by rewrite (reminderFor_kind _ d c x rest Hcart Hnone), Hr. }
  pose proof (Z.div_mod (createdAt x - now0) 3600000 ltac:(lia)) as Hdm.
  pose proof (Z.mod_pos_bound (createdAt x - now0) 3600000 ltac:(lia)) as Hm.
  assert (Hq : (0 <= (createdAt x - now0) / 3600000)%Z)
    by (apply Z.div_pos; lia).
  set (q := ((createdAt x - now0) / 3600000)%Z) in *.
  set (m := ((createdAt x - now0) mod 3600000)%Z) in *.
  split.
  - exists (q + 24)%Z. split; [lia|]. intros j Hj. apply Hkind.
    apply chooseReminder_age. lia.
  - exists (q + 71)%Z. split; [lia|]. intros j Hj. apply Hkind.
    apply chooseReminder_age. lia.
Qed.

Section WithNotifier.
Context `{Notifier}.

Lemma filter_snoc {A} (p : A -> bool) (l : list A) (x : A) :
  List.filter p (l ++ [x]) = List.filter p l ++ (if p x then [x] else []).
Proof. rewrite List.filter_app. reflexivity. Qed.

Lemma omap_sublist {A B} (f : A -> option B) (l : list A) :
  exists sub, sub `sublist_of` l
              /\ Forall2 (fun a b => f a = Some b) sub (omap f l).
Proof.
  induction l as [|a l (sub & Hsub & Hall)]; csimpl.
  - exists []. by split.
  - destruct (f a) as [b|] eqn:Hf; csimpl.
    + exists (a :: sub). split; [by constructor|by constructor].
    + exists sub. split; [by constructor|exact Hall].
Qed.

Lemma visit_counts (now : Z) (d : database) (r : tallies) (c : customer) :
  sent r = length (List.filter sendAbandonedCartReminder (made r)) ->
  oneHourCount (counts r) = sentOfKind oneHour (made r) ->
  twentyFourHoursCount (counts r) = sentOfKind twentyFourHours (made r) ->
  threeDaysCount (counts r) = sentOfKind threeDays (made r) ->
  let r' := visit now d r c in
  sent r' = length (List.filter sendAbandonedCartReminder (made r'))
  /\ oneHourCount (counts r') = sentOfKind oneHour (made r')
  /\ twentyFourHoursCount (counts r') = sentOfKind twentyFourHours (made r')
  /\ threeDaysCount (counts r') = sentOfKind threeDays (made r').
Proof.
  intros Ha H1 H2 H3. unfold visit, sentOfKind in *.
  destruct (reminderFor now d c) as [m|]; [|by repeat split].
  destruct (sendAbandonedCartReminder m) eqn:Hsend; cbn [made sent counts];
    rewrite !filter_snoc, Hsend; cbn [andb];
    rewrite ?app_nil_r; [|by repeat split].
  unfold ofKind, tally in *.
  destruct (kind m); cbn [oneHourCount twentyFourHoursCount threeDaysCount];
    rewrite ?app_nil_r, ?length_app; cbn [length];
    repeat split; lia.
Qed.

Lemma fold_visit_counts (now : Z) (d : database) (loaded : list customer)
    (r : tallies) :
  sent r = length (List.filter sendAbandonedCartReminder (made r)) ->
  oneHourCount (counts r) = sentOfKind oneHour (made r) ->
  twentyFourHoursCount (counts r) = sentOfKind twentyFourHours (made r) ->
  threeDaysCount (counts r) = sentOfKind threeDays (made r) ->
  let r' := fold_left (visit now d) loaded r in
  sent r' = length (List.filter sendAbandonedCartReminder (made r'))
  /\ oneHourCount (counts r') = sentOfKind oneHour (made r')
  /\ twentyFourHoursCount (counts r') = sentOfKind twentyFourHours (made r')
  /\ threeDaysCount (counts r') = sentOfKind threeDays (made r').
Proof.
  revert r. induction loaded as [|c loaded IH]; intros r Ha H1 H2 H3;
    [by repeat split|].
  destruct (visit_counts now d r c Ha H1 H2 H3) as (Ha' & H1' & H2' & H3').
  simpl. by apply IH.
Qed.

Lemma kinds_partition (ms : list reminder) :
  length (List.filter sendAbandonedCartReminder ms)
  = (sentOfKind oneHour ms + sentOfKind twentyFourHours ms
     + sentOfKind threeDays ms)%nat.
Proof.
  unfold sentOfKind, ofKind. induction ms as [|m ms IH]; [reflexivity|].
  simpl. destruct (sendAbandonedCartReminder m); simpl; [|exact IH].
  destruct (kind m); simpl; lia.
Qed.

(** X19. The report of a sweep.  Each call is the reminder of one of the
    customers with a cart item, in their order, and no customer is called
    twice; [alertsSent] is the number of calls the notifier reported as
    delivered.  With no such customer the report is the early one: a
    message, nothing sent, and neither [totalChecked] nor a breakdown.
    Otherwise it has no message, [totalChecked] is the number of customers
    with a cart item, each counter of the breakdown is the number of
    delivered calls of its type, and the three counters sum to
    [alertsSent]. *)
Theorem checkAbandonedCarts_report_adds_up (now : Z) (d : database) :
  let r := checkAbandonedCarts now d in
  let loaded := customersWithCarts d in
  success r = true
  /\ (exists called,
        called `sublist_of` loaded
        /\ Forall2 (fun c m => reminderFor now d c = Some m) called (calls r))
  /\ alertsSent r = length (List.filter sendAbandonedCartReminder (calls r))
  /\ (loaded = [] ->
      message r = Some "No carts" /\ alertsSent r = 0%nat /\ calls r = []
      /\ totalChecked r = None /\ results r = None)
  /\ (loaded <> [] ->
      message r = None
      /\ totalChecked r
         = Some (length (List.filter
                           (fun c => negb (length (cartItems c) =? 0)%nat)
                           (customers d)))
      /\ exists b,
           results r = Some b
           /\ oneHourCount b = sentOfKind oneHour (calls r)
           /\ twentyFourHoursCount b = sentOfKind twentyFourHours (calls r)
           /\ threeDaysCount b = sentOfKind threeDays (calls r)
           /\ alertsSent r
              = (oneHourCount b + twentyFourHoursCount b
                 + threeDaysCount b)%nat).
Proof.
  intros r loaded.
  assert (Hcalls : calls r = omap (reminderFor now d) loaded)
    by apply checkAbandonedCarts_calls.
  split; [subst r; unfold checkAbandonedCarts;
          by destruct (length (customersWithCarts d) =? 0)%nat|].
  split; [rewrite Hcalls; apply omap_sublist|].
  subst r loaded. unfold checkAbandonedCarts in *. cbv zeta in *.
  destruct (customersWithCarts d) as [|c cs] eqn:Hloaded.
  - cbn [length Nat.eqb]. cbn. by repeat split.
  - change (length (c :: cs) =? 0)%nat with false. cbv iota.
    cbn [alertsSent calls message totalChecked results].
    match goal with
    | |- context [fold_left _ _ ?s] =>
        destruct (fold_visit_counts now d (c :: cs) s)
          as (Ha & H1 & H2 & H3); try reflexivity
    end.
    split; [exact Ha|]. split; [done|]. intros _.
    split; [reflexivity|]. split.
    + rewrite <- Hloaded. unfold customersWithCarts. by rewrite length_map.
    + eexists. split; [reflexivity|].
      split; [exact H1|]. split; [exact H2|]. split; [exact H3|].
      rewrite Ha, H1, H2, H3. apply kinds_partition.
Qed.

End WithNotifier.

(** *** The properties on the sample data *)

Import CartFixtures.

Lemma hourly_sweeps_skip_the_hour_reminder_witness :
  kind <$> reminderFor (now + 1800000 + 0 * 3600000) sampleDb
             (includeCartItems carol)
  <> Some oneHour.
Proof.
  apply (hourly_sweeps_skip_the_hour_reminder (now + 1800000) sampleDb
           (includeCartItems carol)
           {| createdAt := now - 60 * 60 * 1000; quantity := 2;
              variantSellingPrice := 90; variantMRP := 100 |}
           [ {| createdAt := now - 5 * 60 * 60 * 1000; quantity := 1;
                variantSellingPrice := 40; variantMRP := 50 |} ]).
  - reflexivity.
  - intros o Ho. inversion Ho.
  - vm_compute. split; reflexivity.
Defined.

Lemma hourly_sweeps_repeat_the_later_reminders_witness :
  exists k, (0 <= k)%Z
    /\ forall j, (0 <= j < 2)%Z ->
         kind <$> reminderFor (now - 7200000 + (k + j) * 3600000) sampleDb
                    (includeCartItems carol)
         = Some twentyFourHours.
Proof.
  apply (hourly_sweeps_repeat_the_later_reminders (now - 7200000) sampleDb
           (includeCartItems carol)
           {| createdAt := now - 60 * 60 * 1000; quantity := 2;
              variantSellingPrice := 90; variantMRP := 100 |}
           [ {| createdAt := now - 5 * 60 * 60 * 1000; quantity := 1;
                variantSellingPrice := 40; variantMRP := 50 |} ]).
  - reflexivity.
  - intros o Ho. inversion Ho.
  - vm_compute. discriminate.
Defined.

End CartScheduleProofs.

(** ** Whole sweeps of the wishlist schedulers *)

Module WishlistSweepProofs.
Import WishlistAlerts WishlistAlertsSpec WishlistAlertsProofs.

Section Loop.
Context {alert : Type}
        (choose : wishlistItem -> option (alert * productData))
        (send : alert -> bool).


(** A sweep over all the rows handles each row on its own. *)
Lemma sweep_rows (stored : list wishlistItem) :
  NoDup (id <$> stored) ->
  table (fold_left (visit choose send) stored
           {| table := stored; alertsSent := 0; calls := [] |})
  = map (rowAfter choose send) stored.
Proof.
  intros Hnd. rewrite fold_visit_table; [|exact Hnd|].
  - apply map_ext_in. intros w Hw.
    by rewrite visited_true by (by apply list_elem_of_In).
  - intros it w Hit Hw Hid. simpl in Hw.
    by apply (NoDup_fmap_eq id stored).
Qed.

(** A sweep over some of the rows handles these, each on its own, and
    leaves the others. *)
Lemma sweep_some_rows (stored items : list wishlistItem) :
  NoDup (id <$> stored) ->
  NoDup (id <$> items) ->
  (forall w, w ∈ items -> w ∈ stored) ->
  table (fold_left (visit choose send) items
           {| table := stored; alertsSent := 0; calls := [] |})
  = map (fun w => if visited items w then rowAfter choose send w else w) stored.
Proof.
  intros Hnd Hndi Hsub. apply fold_visit_table; [exact Hndi|].
  intros it w Hit Hw Hid. simpl in Hw.
  apply (NoDup_fmap_eq id stored); auto.
Qed.

End Loop.

Lemma priceDropFor_inv (catalog : list onlineProduct) (item : wishlistItem)
    (a : priceDropAlert) (pd' : productData) :
  priceDropFor catalog item = Some (a, pd') ->
  exists pd cust product v,
    snapshot item = Some pd
    /\ owner item = Some cust
    /\ findProduct catalog (productId item) = Some product
    /\ currentVariant product (JS.orZero (variantIndex pd)) = Some v
    /\ JS.lt (liveSellingPrice v) (JS.or (variantSellingPrice pd) (price pd)) = true
    /\ pd' = withPrice pd (liveSellingPrice v).
Proof.
  unfold priceDropFor.
  destruct (snapshot item) as [pd|]; [|discriminate].
  destruct (owner item) as [cust|]; [|discriminate].
  destruct (findProduct catalog (productId item)) as [product|]; [|discriminate].
  destruct (currentVariant product _) as [v|] eqn:Hv; [|discriminate].
  destruct (JS.lt _ _) eqn:Hlt; [|discriminate].
  intros [= <- <-]. by exists pd, cust, product, v.
Qed.

Section WithNotifier.
Context `{Notifier}.


End WithNotifier.

(** X21. A second price sweep over the table the first one left, with the
    same catalogue, calls the notifier for exactly the rows whose alert of
    the first sweep was not delivered: what was delivered is not repeated,
    what failed is tried again. *)
Theorem second_price_sweep_retries_failures
    (first second : Notifier)
    (catalog : list onlineProduct) (stored : list wishlistItem) (i : string) :
  NoDup (id <$> stored) ->
  let r1 := @checkWishlistPriceDrops first catalog stored in
  let r2 := @checkWishlistPriceDrops second catalog (table r1) in
  firedFor i r2 <-> firedFor i r1 /\ ~ deliveredFor i r1.
Proof.
  intros Hnd r1 r2. subst r1 r2.
  rewrite !checkWishlistPriceDrops_fold.
  rewrite sweep_rows by exact Hnd.
  rewrite !firedFor_fold, deliveredFor_fold by reflexivity.
  split.
  - intros (w' & Hw' & Hid & Hsome).
    apply list_elem_of_In, in_map_iff in Hw' as (w & <- & Hw).
    apply list_elem_of_In in Hw.
    rewrite rowAfter_id in Hid. unfold rowAfter in Hsome.
    destruct (priceDropFor catalog w) as [[a pd']|] eqn:Hchoose;
      [|by rewrite Hchoose in Hsome; destruct Hsome].
    destruct (@sendPriceDropAlert first a) eqn:Hsend.
    + exfalso.
      apply priceDropFor_inv in Hchoose
        as (pd & cust & product & v & _ & Ho & Hp & Hv & _ & ->).
      rewrite (priceDropFor_after catalog w pd cust product v Ho Hp Hv) in Hsome.
      by destruct Hsome.
    + split; [exists w; by rewrite Hchoose|].
      intros (w2 & a2 & pd2 & Hw2 & Hid2 & Hchoose2 & Hsend2).
      assert (w2 = w) as -> by (apply (NoDup_fmap_eq id stored); congruence).
      congruence.
  - intros [(w & Hw & Hid & Hsome) Hnot].
    exists (rowAfter (priceDropFor catalog) (@sendPriceDropAlert first) w).
    split; [apply list_elem_of_In, in_map; by apply list_elem_of_In|].
    split; [by rewrite rowAfter_id|].
    unfold rowAfter. destruct (priceDropFor catalog w) as [[a pd']|] eqn:Hchoose;
      [|by rewrite Hchoose].
    destruct (@sendPriceDropAlert first a) eqn:Hsend; [|by rewrite Hchoose].
    exfalso. apply Hnot. by exists w, a, pd'.
Qed.

Section StockEvents.
Context `{Notifier}.

Lemma backInStock_stocked (V newStock : Q) (item : wishlistItem)
    (pd : productData) (q : Q) :
  snapshot item = Some pd ->
  variantStockQuantity pd = JS.Number q ->
  ~ (q == 0)%Q ->
  backInStockFor V newStock item = None.
Proof.
  intros Hs Hq Hne.
  destruct (backInStockFor V newStock item) as [[a pd']|] eqn:Hchoose;
    [|reflexivity].
  apply backInStockFor_some in Hchoose
    as (pd0 & cust & Hs0 & _ & _ & Hzero & _).
  rewrite Hs in Hs0. injection Hs0 as <-.
  rewrite Hq in Hzero. simpl in Hzero.
  destruct (Qeq_bool q 0) eqn:Hq0; [by apply Qeq_bool_iff in Hq0|].
  contradiction.
Qed.

Lemma stockCheck_stocked (ev : stockEvent) (stored : list wishlistItem)
    (item : wishlistItem) (pd : productData) (q : Q) :
  NoDup (id <$> stored) ->
  item ∈ stored ->
  snapshot item = Some pd ->
  variantStockQuantity pd = JS.Number q ->
  ~ (q == 0)%Q ->
  ~ firedFor (id item) (stockCheck ev stored)
  /\ item ∈ table (stockCheck ev stored)
  /\ NoDup (id <$> table (stockCheck ev stored)).
Proof.
  intros Hnd Hin Hs Hq Hne.
  pose proof (backInStock_stocked (eventVariant ev) (eventStock ev) item pd q
                Hs Hq Hne) as Hnone.
  unfold stockCheck. rewrite checkWishlistBackInStock_fold.
  set (items := List.filter (fun w => String.eqb (productId w) (eventProduct ev))
                            stored).
  assert (Hndi : NoDup (id <$> items)) by (by apply NoDup_fmap_filter).
  assert (Hsub : forall w, w ∈ items -> w ∈ stored)
    by (intros w; apply examined_stored).
  rewrite (sweep_some_rows _ _ stored items Hnd Hndi Hsub).
  split; [|split].
  - rewrite firedFor_fold by reflexivity.
    intros (w & Hw & Hid & Hsome).
    assert (w = item) as -> by (apply (NoDup_fmap_eq id stored); auto).
    rewrite Hnone in Hsome. by destruct Hsome.
  - apply list_elem_of_In, in_map_iff. exists item.
    split; [|by apply list_elem_of_In].
    unfold rowAfter. rewrite Hnone. by destruct (visited items item).
  - assert (Hids : id <$> map (fun w => if visited items w
                                        then rowAfter
                                               (backInStockFor (eventVariant ev)
                                                  (eventStock ev))
                                               sendBackInStockAlert w
                                        else w) stored
                   = id <$> stored).
    { generalize items. clear. intros items.
      induction stored as [|w stored IH]; [reflexivity|].
      csimpl. f_equal; [|exact IH].
      destruct (visited items w); [apply rowAfter_id|reflexivity]. }
    by rewrite Hids.
Qed.

(** X22. A wishlist row whose snapshot holds a stock other than zero is
    never alerted as back in stock and never changes, whatever stock
    updates follow and for whatever product, variant and quantity: the
    check does not record a stock that goes to zero, so once an alert has
    been delivered and the new stock stored, the row is not alerted
    again. *)
Theorem back_in_stock_alert_is_never_repeated
    (stored : list wishlistItem) (item : wishlistItem)
    (pd : productData) (q : Q)
    (before : list stockEvent) (ev : stockEvent) :
  NoDup (id <$> stored) ->
  item ∈ stored ->
  snapshot item = Some pd ->
  variantStockQuantity pd = JS.Number q ->
  ~ (q == 0)%Q ->
  item ∈ afterStockEvents before stored
  /\ ~ firedFor (id item) (stockCheck ev (afterStockEvents before stored)).
Proof.
  intros Hnd Hin Hs Hq Hne.
  assert (Hinv : item ∈ afterStockEvents before stored
                 /\ NoDup (id <$> afterStockEvents before stored)).
  { unfold afterStockEvents. revert stored Hnd Hin.
    induction before as [|ev0 before IH]; intros stored Hnd Hin; [by split|].
    simpl.
    destruct (stockCheck_stocked ev0 stored item pd q Hnd Hin Hs Hq Hne)
      as (_ & Hin' & Hnd').
    by apply IH. }
  destruct Hinv as [Hin' Hnd']. split; [exact Hin'|].
  by destruct (stockCheck_stocked ev _ item pd q Hnd' Hin' Hs Hq Hne).
Qed.

(** X23. A stock update to zero or less calls nobody and stores nothing,
    so the snapshots keep the stock they had. *)
Theorem checkWishlistBackInStock_ignores_empty_stock
    (pid : string) (V newStock : Q) (stored : list wishlistItem) :
  (newStock <= 0)%Q ->
  let r := checkWishlistBackInStock pid V newStock stored in
  calls r = [] /\ alertsSent r = 0%nat /\ table r = stored.
Proof.
  intros Hle r. subst r. rewrite checkWishlistBackInStock_fold.
  assert (Hnone : forall w, backInStockFor V newStock w = None).
  { intros w. destruct (backInStockFor V newStock w) as [[a pd']|] eqn:Hc;
      [|reflexivity].
    apply backInStockFor_some in Hc as (_ & _ & _ & _ & _ & _ & Hpos & _).
    exfalso. by apply (Qlt_not_le 0 newStock). }
  generalize (List.filter (fun w => String.eqb (productId w) pid) stored).
  intros items. induction items as [|w items IH]; [by repeat split|].
  simpl. unfold visit at 2 4 6. by rewrite Hnone.
Qed.

End StockEvents.

(** *** The properties on the sample data *)

Import WishlistFixtures.


Lemma second_price_sweep_retries_failures_witness :
  firedFor "w1"
    (checkWishlistPriceDrops catalog
       (table (checkWishlistPriceDrops catalog [outOfStock])))
  <-> firedFor "w1" (checkWishlistPriceDrops catalog [outOfStock])
      /\ ~ deliveredFor "w1" (checkWishlistPriceDrops catalog [outOfStock]).
Proof.
  apply (second_price_sweep_retries_failures alwaysDelivers alwaysDelivers
           catalog [outOfStock] "w1").
  apply NoDup_singleton.
Defined.

Lemma back_in_stock_alert_is_never_repeated_witness :
  ~ firedFor "w2"
      (stockCheck {| eventProduct := "p1"; eventVariant := 0; eventStock := 9 |}
         (afterStockEvents
            [ {| eventProduct := "p1"; eventVariant := 0; eventStock := 0 |} ]
            [inStock])).
Proof.
  apply (back_in_stock_alert_is_never_repeated [inStock] inStock
           (cached (JS.Number 100) (JS.Number 3)) 3
           [ {| eventProduct := "p1"; eventVariant := 0; eventStock := 0 |} ]
           {| eventProduct := "p1"; eventVariant := 0; eventStock := 9 |}).
  - apply NoDup_singleton.
  - apply list_elem_of_here.
  - reflexivity.
  - reflexivity.
  - intros Hq. discriminate Hq.
Defined.

Lemma checkWishlistBackInStock_ignores_empty_stock_witness :
  calls (checkWishlistBackInStock "p1" 0 0 [outOfStock]) = [].
Proof.
  apply (checkWishlistBackInStock_ignores_empty_stock "p1" 0 0 [outOfStock]).
  vm_compute. discriminate.
Defined.

End WishlistSweepProofs.

(** ** The wishlist controller *)

Module WishlistControllerProofs.
Import WishlistController.

Lemma setItems_same (d : database) : setItems d (wishlistItems d) = d.
Proof. by destruct d. Qed.

Lemma filter_all {A} (p : A -> bool) (l : list A) :
  (forall x, x ∈ l -> p x = true) -> List.filter p l = l.
Proof.
  induction l as [|x l IH]; intros Hall; [reflexivity|]. simpl.
  rewrite (Hall x) by apply list_elem_of_here.
  f_equal. apply IH. intros y Hy. apply Hall. by apply list_elem_of_further.
Qed.

Lemma findItem_none (d : database) (c : customer) (p : string) :
  findItem d c p = None
  <-> forall w, w ∈ wishlistItems d -> belongsTo c p w = false.
Proof. apply MobileAuthProofs.find_none_iff. Qed.

Lemma findItem_some (d : database) (c : customer) (p : string) (w : wishlistItem) :
  findItem d c p = Some w ->
  w ∈ wishlistItems d /\ customerId w = id c /\ productId w = p.
Proof.
  intros Hfind. apply find_some in Hfind as [Hin Hb].
  apply andb_true_iff in Hb as [Hc Hp].
  apply String.eqb_eq in Hc, Hp. split; [by apply list_elem_of_In|done].
Qed.

Lemma belongsTo_false (c : customer) (p : string) (w : wishlistItem) :
  belongsTo c p w = false <-> customerId w <> id c \/ productId w <> p.
Proof.
  unfold belongsTo. rewrite andb_false_iff, !String.eqb_neq. tauto.
Qed.


Lemma oncePerProduct_filter (d : database) (p : wishlistItem -> bool) :
  oncePerProduct d -> oncePerProduct (setItems d (List.filter p (wishlistItems d))).
Proof.
  unfold oncePerProduct. simpl.
  apply (WishlistAlertsProofs.NoDup_fmap_filter
           (fun w => (customerId w, productId w)) p).
Qed.


(** X25. If no customer has a product twice in the wishlist, this is still
    so after [addToWishlist], [removeFromWishlist] and [clearWishlist],
    whatever the request. *)
Theorem wishlist_holds_a_product_once
    (newId : string) (now : Z) (b : addBody) (pid uid : string) (d : database) :
  oncePerProduct d ->
  oncePerProduct (db (addToWishlist newId now b d))
  /\ oncePerProduct (db (removeFromWishlist pid uid d))
  /\ oncePerProduct (db (clearWishlist uid d)).
Proof.
  intros Honce. split; [|split].
  - unfold addToWishlist.
    destruct (add_productData b) as [pdata|]; [|exact Honce].
    destruct (negb _ || negb _ || negb _); [exact Honce|].
    destruct (findCustomer d (add_userId b)) as [c|]; [|exact Honce].
    destruct (findItem d c (add_productId b)) as [w|] eqn:Hfind; [exact Honce|].
    cbn [db]. unfold oncePerProduct in *. cbn [wishlistItems setItems].
    rewrite map_app. simpl.
    apply list.NoDup_app. split; [exact Honce|]. split; [|apply NoDup_singleton].
    intros [cid p] Hin Hnew. apply list_elem_of_singleton in Hnew.
    injection Hnew as -> ->.
    apply list_elem_of_In, in_map_iff in Hin as (w & Hw & Hin).
    injection Hw as Hc Hp.
    apply list_elem_of_In in Hin.
    pose proof (proj1 (findItem_none _ _ _) Hfind w Hin) as Hb.
    unfold belongsTo in Hb. by rewrite Hc, Hp, !String.eqb_refl in Hb.
  - unfold removeFromWishlist.
    destruct (negb (JS.truthy uid)); [exact Honce|].
    destruct (findCustomer d uid) as [c|]; [|exact Honce].
    destruct (_ =? 0)%nat; by apply oncePerProduct_filter.
  - unfold clearWishlist.
    destruct (negb (JS.truthy uid)); [exact Honce|].
    destruct (findCustomer d uid) as [c|]; [|exact Honce].
    by apply oncePerProduct_filter.
Qed.

(** X26. [removeFromWishlist] answers 200 exactly when the user is a
    customer who has the product, and otherwise changes nothing; when it
    answers 200 the rows of other customers and of other products stay, in
    their order, and in every case the check of that product for that user
    then answers [isInWishlist: false]. *)
Theorem removeFromWishlist_removes_that_product
    (pid uid : string) (d : database) :
  let out := removeFromWishlist pid uid d in
  (status (res out) = 200%nat
   <-> JS.truthy uid = true
       /\ exists c w, findCustomer d uid = Some c
                      /\ w ∈ wishlistItems d
                      /\ customerId w = id c /\ productId w = pid)
  /\ (status (res out) <> 200%nat -> db out = d)
  /\ customers (db out) = customers d
  /\ wishlistItems (db out) `sublist_of` wishlistItems d
  /\ (forall c, findCustomer d uid = Some c ->
      forall w, w ∈ wishlistItems d ->
                customerId w <> id c \/ productId w <> pid ->
                w ∈ wishlistItems (db out))
  /\ (JS.truthy uid = true ->
      isInWishlist (res (checkWishlistItem pid uid (db out)))
      = Some (JBool false)).
Proof.
  intros out. subst out. unfold removeFromWishlist.
  destruct (JS.truthy uid) eqn:Hu; cbn [negb].
  2:{ cbn [res db reply status failure].
      split; [split; [discriminate|by intros [? _]]|].
      repeat split; done. }
  destruct (findCustomer d uid) as [c|] eqn:Hc.
  2:{ cbn [res db reply status failure].
      split; [split; [discriminate|by intros (_ & ? & ? & ? & _)]|].
      repeat split; try done.
      intros _. unfold checkWishlistItem. by rewrite Hu, Hc. }
  set (mine := List.filter (belongsTo c pid) (wishlistItems d)).
  set (others := List.filter (fun w => negb (belongsTo c pid w)) (wishlistItems d)).
  assert (Hothers : others `sublist_of` wishlistItems d).
  { subst others. clear. induction (wishlistItems d) as [|w l IH]; [done|].
    simpl. destruct (negb _); by constructor. }
  assert (Hkept : forall w, w ∈ wishlistItems d ->
                            customerId w <> id c \/ productId w <> pid ->
                            w ∈ others).
  { intros w Hw Hne. apply list_elem_of_In, filter_In.
    split; [by apply list_elem_of_In|].
    by rewrite (proj2 (belongsTo_false c pid w) Hne). }
  assert (Hgone : findItem (setItems d others) c pid = None).
  { apply findItem_none. intros w Hw. simpl in Hw.
    apply list_elem_of_In, filter_In in Hw as [_ Hw].
    by apply negb_true_iff. }
  assert (Hcheck : isInWishlist
                     (res (checkWishlistItem pid uid (setItems d others)))
                   = Some (JBool false)).
  { unfold checkWishlistItem. rewrite Hu. cbn [negb].
    change (findCustomer (setItems d others) uid) with (findCustomer d uid).
    by rewrite Hc, Hgone. }
  destruct (length mine =? 0)%nat eqn:Hcount.
  - apply Nat.eqb_eq in Hcount.
    assert (Hnone : forall w, w ∈ wishlistItems d -> belongsTo c pid w = false).
    { apply ExpensesProofs.filter_nil_iff. by apply nil_length_inv. }
    assert (Hsame : others = wishlistItems d).
    { apply filter_all. intros w Hw. by rewrite Hnone. }
    cbn [res db reply status failure].
    split; [|split; [|split; [|split; [|split]]]]; try done.
    + split; [discriminate|].
      intros (_ & c' & w & [= <-] & Hw & Hcid & Hpid). exfalso.
      specialize (Hnone w Hw). unfold belongsTo in Hnone.
      by rewrite Hcid, Hpid, !String.eqb_refl in Hnone.
    + intros _. rewrite Hsame. apply setItems_same.
    + intros c' [= <-]. exact Hkept.
  - apply Nat.eqb_neq in Hcount.
    cbn [res db reply status].
    split; [|split; [|split; [|split; [|split]]]]; try done.
    + split; [|done]. intros _. split; [done|].
      destruct mine as [|w rest] eqn:Hmine; [done|].
      assert (Hw : In w (List.filter (belongsTo c pid) (wishlistItems d))).
      { fold mine. rewrite Hmine. by left. }
      apply filter_In in Hw as [Hw Hb].
      apply andb_true_iff in Hb as [Hcid Hpid].
      apply String.eqb_eq in Hcid, Hpid.
      exists c, w. split; [done|]. split; [by apply list_elem_of_In|done].
    + intros c' [= <-]. exact Hkept.
Qed.

(** X27. [clearWishlist] for a user who is a customer reports as
    [removedCount] the number of rows of that customer, leaves no row of
    that customer and every row of the others, in their order; clearing
    again then reports 0 and changes nothing. *)
Theorem clearWishlist_removes_the_customers_rows
    (uid : string) (d : database) (c : customer) :
  JS.truthy uid = true ->
  findCustomer d uid = Some c ->
  let out := clearWishlist uid d in
  removedCount (res out)
  = Some (JNum (Z.of_nat (length (List.filter
                                    (fun w => String.eqb (customerId w) (id c))
                                    (wishlistItems d)))))
  /\ (forall w, w ∈ wishlistItems (db out)
                <-> w ∈ wishlistItems d /\ customerId w <> id c)
  /\ wishlistItems (db out) `sublist_of` wishlistItems d
  /\ removedCount (res (clearWishlist uid (db out))) = Some (JNum 0)
  /\ db (clearWishlist uid (db out)) = db out.
Proof.
  intros Hu Hc out. subst out. unfold clearWishlist.
  rewrite Hu. cbn [negb]. rewrite Hc. cbn [res db reply body].
  change (findCustomer (setItems d ?x) uid) with (findCustomer d uid).
  rewrite Hc. cbn [res db reply body wishlistItems setItems].
  set (others := List.filter (fun w => negb (String.eqb (customerId w) (id c)))
                             (wishlistItems d)).
  assert (Hiff : forall w, w ∈ others
                           <-> w ∈ wishlistItems d /\ customerId w <> id c).
  { intros w. subst others. rewrite !list_elem_of_In, filter_In.
    by rewrite negb_true_iff, String.eqb_neq. }
  assert (Hnone : List.filter (fun w => String.eqb (customerId w) (id c)) others
                  = []).
  { apply ExpensesProofs.filter_nil_iff. intros w Hw.
    apply Hiff in Hw as [_ Hw]. by apply String.eqb_neq. }
  assert (Hall : List.filter (fun w => negb (String.eqb (customerId w) (id c)))
                             others = others).
  { apply filter_all. intros w Hw. apply Hiff in Hw as [_ Hw].
    by apply negb_true_iff, String.eqb_neq. }
  split; [reflexivity|]. split; [exact Hiff|]. split.
  - subst others. clear. induction (wishlistItems d) as [|w l IH]; [done|].
    simpl. destruct (negb _); by constructor.
  - rewrite Hnone, Hall. by split.
Qed.

(** X28. In the [data] of an answer the fields of the product data come
    after [wishlistItemId] and [addedAt] and overwrite them: a key of the
    product data is answered with the value the product data gives it, so
    product data with a key [wishlistItemId] hides the id of the row; a key
    the product data does not have keeps the value of the row. *)
Theorem itemData_product_data_wins
    (item : wishlistItem) (fs : list (string * json)) (k : string) :
  productData item = JObj fs ->
  NoDup (fst <$> fs) ->
  (forall v, (k, v) ∈ fs -> field k (itemData item) = Some v)
  /\ ((forall v, (k, v) ∉ fs) ->
      field k (itemData item)
      = field k (JObj [("wishlistItemId", JStr (itemId item));
                       ("addedAt", JNum (addedAt item))])).
Proof.
  intros Hpd Hnd. unfold itemData. rewrite Hpd. cbn [properties].
  clear Hpd.
  generalize [("wishlistItemId", JStr (itemId item));
              ("addedAt", JNum (addedAt item))].
  assert (Hassign : forall base k' v',
            field k (JObj (assign base k' v'))
            = if String.eqb k' k then Some v' else field k (JObj base)).
  { induction base as [|[k0 v0] base IH]; intros k' v'; simpl.
    - destruct (String.eqb k' k); reflexivity.
    - destruct (String.eqb k0 k') eqn:H0; simpl.
      + apply String.eqb_eq in H0 as ->. by destruct (String.eqb k' k).
      + destruct (String.eqb k0 k) eqn:H1; simpl.
        * apply String.eqb_eq in H1 as ->.
          by rewrite (proj2 (String.eqb_neq _ _)) by (by apply not_eq_sym, String.eqb_neq).
        * apply IH. }
  revert Hnd. induction fs as [|[k1 v1] fs IH]; intros Hnd base.
  - split; [intros v Hv; inversion Hv|done].
  - rewrite fmap_cons in Hnd.
    apply list.NoDup_cons in Hnd as [Hfresh Hnd]. cbn [fold_left fst snd].
    destruct (IH Hnd (assign base k1 v1)) as [IHin IHout].
    split.
    + intros v Hv. apply elem_of_cons in Hv as [[= <- <-]|Hv];
        [|by apply IHin].
      rewrite IHout.
      * by rewrite Hassign, String.eqb_refl.
      * intros v' Hv'. apply Hfresh. apply list_elem_of_fmap.
        by exists (k, v').
    + intros Hnone. rewrite IHout.
      * rewrite Hassign.
        destruct (String.eqb k1 k) eqn:Hk; [|reflexivity].
        apply String.eqb_eq in Hk as ->. exfalso.
        apply (Hnone v1). apply list_elem_of_here.
      * intros v' Hv'. apply (Hnone v'). by apply list_elem_of_further.
Qed.

(** *** The properties on the sample data *)

Import WishlistControllerFixtures.


Lemma wishlist_holds_a_product_once_witness :
  oncePerProduct (db (removeFromWishlist "p1" "u7" sampleDb)).
Proof.
  apply (wishlist_holds_a_product_once "w8" 2000
           {| add_userId := "u7"; add_productId := "p2";
              add_productData := Some (JObj []) |} "p1" "u7" sampleDb).
  apply NoDup_singleton.
Defined.

Lemma clearWishlist_removes_the_customers_rows_witness :
  removedCount (res (clearWishlist "u7" sampleDb)) = Some (JNum 1).
Proof.
  apply (clearWishlist_removes_the_customers_rows "u7" sampleDb erin
           eq_refl eq_refl).
Defined.

Lemma itemData_product_data_wins_witness :
  field "wishlistItemId" (itemData kettle) = Some (JStr "client-side").
Proof.
  apply (itemData_product_data_wins kettle
           [("productName", JStr "Kettle");
            ("wishlistItemId", JStr "client-side")]
           "wishlistItemId" eq_refl).
  - apply (bool_decide_unpack _). vm_compute. exact I.
  - apply list_elem_of_further, list_elem_of_here.
Defined.

End WishlistControllerProofs.

(** ** Expense numbers that repeat, and numbers that do not *)

Module ExpenseNumberProofs.
Import Expenses ExpensesProofs.

Lemma lastNumber_NaN (Y : Z) :
  (0 <= Y)%Z -> lastNumber (yearPrefix Y +:+ "NaN") = None.
Proof.
  intros HY. unfold lastNumber. by rewrite split_year.
Qed.

(** X29. When the number of the latest expense of the year has no digit
    where its counter should start, the next number is [EXP-<year>-NaN],
    and once an expense has been created under it the next number is
    [EXP-<year>-NaN] again: the numbering of the year does not
    recover. *)
Theorem generateExpenseNumber_stays_NaN
    (Y : Z) (store : list expense) (latest : expense) :
  (0 <= Y)%Z ->
  latestExpense Y store = Some latest ->
  lastNumber (expenseNumber latest) = None ->
  generateExpenseNumber Y store = yearPrefix Y +:+ "NaN"
  /\ forall now, (createdAt latest < now)%Z ->
       generateExpenseNumber Y (createExpense Y now store)
       = yearPrefix Y +:+ "NaN".
Proof.
  intros HY Hlatest Hnan.
  assert (Hgen : forall rows l,
            latestExpense Y rows = Some l ->
            lastNumber (expenseNumber l) = None ->
            generateExpenseNumber Y rows = yearPrefix Y +:+ "NaN").
  { intros rows l Hl Hn. unfold generateExpenseNumber. by rewrite Hl, Hn. }
  split; [by apply (Hgen store latest)|].
  intros now Hnow. unfold createExpense.
  rewrite (Hgen store latest Hlatest Hnan).
  eapply Hgen.
  - apply latestExpense_appended.
    + apply year_prefix_matches.
    + intros r Hr Hp. simpl.
      destruct (latestExpense_some Y store latest Hlatest) as (_ & _ & Hmax).
      specialize (Hmax r Hr Hp). lia.
  - simpl. by apply lastNumber_NaN.
Qed.


(** *** The properties on the sample data *)

Import ExpenseFixtures.

Lemma generateExpenseNumber_stays_NaN_witness :
  generateExpenseNumber 2024 brokenLedger = "EXP-2024-NaN"
  /\ generateExpenseNumber 2024 (createExpense 2024 900 brokenLedger)
     = "EXP-2024-NaN".
Proof.
  destruct (generateExpenseNumber_stays_NaN 2024 brokenLedger
              {| expenseNumber := "EXP-2024-A12"; createdAt := 500 |}
              ltac:(lia) eq_refl eq_refl)
    as [Hfirst Hnext].
  split; [exact Hfirst|]. apply Hnext. simpl. lia.
Defined.


End ExpenseNumberProofs.
